(** * kwt, the k11r worktree tool: a shallow embedding and its properties

    The development follows the layout of the TypeScript sources:

    - [types/index.ts]: the configuration schema, the records exchanged
      with git and the hosting CLIs, the error classes;
    - [config/manager.ts]: the two-tier configuration store;
    - [git/remotes.ts], [git/worktrees.ts], [git/gitlab.ts],
      [git/github.ts]: the thin wrappers around the external binaries;
    - [utils/exec.ts]: the command runner;
    - [commands/*.ts]: the orchestration of [new], [mr] and [rm].

    JavaScript strings are modelled by [string] (a sequence of character
    codes below 256), JavaScript regular expressions by a small
    backtracking matcher that follows the priorities of the ECMAScript
    semantics, and asynchronous effectful code by programs over an
    explicit signature of host operations. *)

From Stdlib Require Import Bool List Arith ZArith Lia String Ascii.
From Stdlib Require Import DecimalString.
Import ListNotations.

Local Open Scope list_scope.
Local Open Scope string_scope.

Set Implicit Arguments.
Set Warnings "-register-all".

(* ================================================================== *)
(** * Strings *)
(* ================================================================== *)

Module Str.

(** [s.startsWith(p)] *)
Fixpoint startsWith (p s : string) : bool :=
  match p with
  | EmptyString => true
  | String a p' =>
      match s with
      | EmptyString => false
      | String b s' => Ascii.eqb a b && startsWith p' s'
      end
  end.

(** [s.substring(n)] for [0 <= n] *)
Fixpoint drop (n : nat) (s : string) : string :=
  match n with
  | 0 => s
  | S n' => match s with
            | EmptyString => EmptyString
            | String _ s' => drop n' s'
            end
  end.

(** [s.substring(0, n)] *)
Fixpoint take (n : nat) (s : string) : string :=
  match n with
  | 0 => EmptyString
  | S n' => match s with
            | EmptyString => EmptyString
            | String c s' => String c (take n' s')
            end
  end.

Fixpoint rev_onto (s acc : string) : string :=
  match s with
  | EmptyString => acc
  | String c s' => rev_onto s' (String c acc)
  end.

Definition rev (s : string) : string := rev_onto s EmptyString.

Fixpoint map (f : ascii -> ascii) (s : string) : string :=
  match s with
  | EmptyString => EmptyString
  | String c s' => String (f c) (map f s')
  end.

Fixpoint forallb (p : ascii -> bool) (s : string) : bool :=
  match s with
  | EmptyString => true
  | String c s' => p c && forallb p s'
  end.

(** [s.endsWith(p)] *)
Definition endsWith (p s : string) : bool :=
  Nat.leb (String.length p) (String.length s)
  && String.eqb (drop (String.length s - String.length p) s) p.

(** White space and line terminators removed by [String.prototype.trim],
    restricted to character codes below 256. *)
Definition isSpace (c : ascii) : bool :=
  let n := nat_of_ascii c in
  Nat.eqb n 9 || Nat.eqb n 10 || Nat.eqb n 11 || Nat.eqb n 12
  || Nat.eqb n 13 || Nat.eqb n 32 || Nat.eqb n 160.

Fixpoint trimStart (s : string) : string :=
  match s with
  | EmptyString => EmptyString
  | String c s' => if isSpace c then trimStart s' else s
  end.

(** Removes the trailing white space: the result of the recursive call
    is empty exactly when everything after [c] is white space. *)
Fixpoint trimEnd (s : string) : string :=
  match s with
  | EmptyString => EmptyString
  | String c s' =>
      match trimEnd s' with
      | EmptyString => if isSpace c then EmptyString else String c EmptyString
      | t => String c t
      end
  end.

(** [s.trim()] *)
Definition trim (s : string) : string := trimEnd (trimStart s).

(** [s.split(sep)] for a one-character separator: the pieces between the
    occurrences of [sep]; the empty string yields one empty piece. *)
Fixpoint split (sep : ascii) (s : string) : list string :=
  match s with
  | EmptyString => [EmptyString]
  | String c s' =>
      if Ascii.eqb c sep then EmptyString :: split sep s'
      else match split sep s' with
           | [] => [String c EmptyString]
           | piece :: rest => String c piece :: rest
           end
  end.

(** [parts.join(sep)] *)
Definition join (sep : string) (parts : list string) : string :=
  String.concat sep parts.

(** Decimal rendering of an integer, as [Number.prototype.toString]
    gives it for the safe integers. *)
Definition ofZ (z : Z) : string := NilZero.string_of_int (Z.to_int z).

End Str.

(* ================================================================== *)
(** * Errors and results *)
(* ================================================================== *)

(** The error classes of [types/index.ts], with the built-in ones the
    code can meet. [KWT code] is the base class [KWTError] with its
    [code] field. *)
Inductive ErrorClass : Type :=
| PlainError          (* Error *)
| TypeError           (* TypeError, SyntaxError and other built-ins *)
| ZodError            (* thrown by ConfigSchema.parse *)
| KWTError (code : string)
| ConfigError         (* code CONFIG_ERROR *)
| GitError            (* code GIT_ERROR *)
| GitLabError         (* code GITLAB_ERROR *)
| GitHubError.        (* code GITHUB_ERROR *)

Inductive JsError : Type :=
| MkError (cls : ErrorClass) (message : string) (cause : option JsError).

Definition errClass (e : JsError) : ErrorClass :=
  match e with MkError c _ _ => c end.
Definition errMessage (e : JsError) : string :=
  match e with MkError _ m _ => m end.
Definition errCause (e : JsError) : option JsError :=
  match e with MkError _ _ c => c end.

(** Every value thrown in the sources is an [Error] instance, so
    [error instanceof Error ? error.message : 'Unknown error'] is the
    message and [error instanceof Error ? error : undefined] the error. *)
Definition messageOf (e : JsError) : string := errMessage e.

Inductive Result (A : Type) : Type :=
| Ok (a : A)
| Err (e : JsError).
Arguments Ok {A} a.
Arguments Err {A} e.

Definition isOk {A} (r : Result A) : bool :=
  match r with Ok _ => true | Err _ => false end.

(* ================================================================== *)
(** * JSON values *)
(* ================================================================== *)

(** What [JSON.parse] and the configuration loader produce. An object is
    the list of its own properties; a key that is not listed reads as
    [undefined], which is [None] below. *)
Inductive json : Type :=
| JNull
| JBool (b : bool)
| JNum (z : Z)
| JStr (s : string)
| JArr (items : list json)
| JObj (fields : list (string * json)).

Fixpoint lookupField (k : string) (fields : list (string * json)) : option json :=
  match fields with
  | [] => None
  | (k', v) :: rest => if String.eqb k k' then Some v else lookupField k rest
  end.

(** [v[k]] where [v] is known to be an object. *)
Definition getField (k : string) (v : json) : option json :=
  match v with
  | JObj fields => lookupField k fields
  | _ => None
  end.

(* ================================================================== *)
(** * types/index.ts: the configuration schema *)
(* ================================================================== *)

Inductive PrefixType : Type := PrefixNone | PrefixManual | PrefixDetect.

Record PostCommand : Type := mkPostCommand {
  label : string;
  commands : list string
}.

(** [Config = z.infer<typeof ConfigSchema>]: three fields are always
    there after validation, [manualPrefix] is optional. *)
Record Config : Type := mkConfig {
  prefixType : PrefixType;
  manualPrefix : option string;
  worktreeDir : string;
  postCommands : list PostCommand
}.

(** [Partial<Config>] *)
Record PartialConfig : Type := mkPartialConfig {
  p_prefixType : option PrefixType;
  p_manualPrefix : option string;
  p_worktreeDir : option string;
  p_postCommands : option (list PostCommand)
}.

Module Zod.

(** A schema is a validator of a present value; the result is [None]
    where zod raises a [ZodError]. *)
Definition schema (A : Type) := json -> option A.

Definition string_ : schema string :=
  fun v => match v with JStr s => Some s | _ => None end.

Fixpoint all {A} (elem : schema A) (items : list json) : option (list A) :=
  match items with
  | [] => Some []
  | x :: rest =>
      match elem x, all elem rest with
      | Some a, Some l => Some (a :: l)
      | _, _ => None
      end
  end.

Definition array {A} (elem : schema A) : schema (list A) :=
  fun v => match v with JArr items => all elem items | _ => None end.

(** [s.default(d)] applied to the value of a key: [undefined] gives
    the default. *)
Definition default {A} (d : A) (s : schema A) (v : option json) : option A :=
  match v with
  | None => Some d
  | Some x => s x
  end.

(** [s.optional()] applied to the value of a key. *)
Definition optional {A} (s : schema A) (v : option json) : option (option A) :=
  match v with
  | None => Some None
  | Some x => match s x with Some a => Some (Some a) | None => None end
  end.

(** A key without [default] or [optional] must be there. *)
Definition required {A} (s : schema A) (v : option json) : option A :=
  match v with
  | None => None
  | Some x => s x
  end.

End Zod.

(** [PrefixTypeSchema = z.enum(['none', 'manual', 'detect'])] *)
Definition PrefixTypeSchema : Zod.schema PrefixType :=
  fun v =>
    match v with
    | JStr s =>
        if String.eqb s "none" then Some PrefixNone
        else if String.eqb s "manual" then Some PrefixManual
        else if String.eqb s "detect" then Some PrefixDetect
        else None
    | _ => None
    end.

(** [PostCommandSchema = z.object({label: z.string(), commands: z.array(z.string())})] *)
Definition PostCommandSchema : Zod.schema PostCommand :=
  fun v =>
    match v with
    | JObj fields =>
        match Zod.required Zod.string_ (lookupField "label" fields),
              Zod.required (Zod.array Zod.string_) (lookupField "commands" fields) with
        | Some l, Some cs => Some (mkPostCommand l cs)
        | _, _ => None
        end
    | _ => None
    end.

Definition default_worktreeDir : string := "../worktrees".

(** [ConfigSchema]: an object (unknown keys are dropped) with
    [prefixType] defaulting to ['none'], an optional [manualPrefix],
    [worktreeDir] defaulting to ['../worktrees'] and [postCommands]
    defaulting to the empty array. *)
Definition ConfigSchema : Zod.schema Config :=
  fun v =>
    match v with
    | JObj fields =>
        match Zod.default PrefixNone PrefixTypeSchema (lookupField "prefixType" fields),
              Zod.optional Zod.string_ (lookupField "manualPrefix" fields),
              Zod.default default_worktreeDir Zod.string_ (lookupField "worktreeDir" fields),
              Zod.default [] (Zod.array PostCommandSchema) (lookupField "postCommands" fields) with
        | Some pt, Some mp, Some wd, Some pcs => Some (mkConfig pt mp wd pcs)
        | _, _, _, _ => None
        end
    | _ => None
    end.

(** [ConfigSchema.parse(v)], where [v] may be [undefined]. *)
Definition ConfigSchema_parse (v : option json) : Result Config :=
  match v with
  | None => Err (MkError ZodError "Required" None)
  | Some x =>
      match ConfigSchema x with
      | Some c => Ok c
      | None => Err (MkError ZodError "Invalid configuration" None)
      end
  end.

(** The JavaScript object of a validated configuration, as
    [JSON.stringify] then the loader see it. *)
Definition PrefixType_toString (p : PrefixType) : string :=
  match p with
  | PrefixNone => "none"
  | PrefixManual => "manual"
  | PrefixDetect => "detect"
  end.

Definition PostCommand_toJson (pc : PostCommand) : json :=
  JObj [("label", JStr (label pc));
        ("commands", JArr (List.map JStr (commands pc)))].

Definition optField {A} (k : string) (f : A -> json) (v : option A) : list (string * json) :=
  match v with
  | None => []
  | Some a => [(k, f a)]
  end.

Definition Config_toJson (c : Config) : json :=
  JObj ([("prefixType", JStr (PrefixType_toString (prefixType c)))]
        ++ optField "manualPrefix" JStr (manualPrefix c)
        ++ [("worktreeDir", JStr (worktreeDir c));
            ("postCommands", JArr (List.map PostCommand_toJson (postCommands c)))])%list.

Definition PartialConfig_toJson (c : PartialConfig) : json :=
  JObj (optField "prefixType" (fun p => JStr (PrefixType_toString p)) (p_prefixType c)
        ++ optField "manualPrefix" JStr (p_manualPrefix c)
        ++ optField "worktreeDir" JStr (p_worktreeDir c)
        ++ optField "postCommands"
             (fun l => JArr (List.map PostCommand_toJson l)) (p_postCommands c))%list.

(* ================================================================== *)
(** * config/manager.ts: merging *)
(* ================================================================== *)

(** [{ ...a, ...b }] on two [Config] objects: every own key of [b]
    overrides; [manualPrefix] is an own key of [b] only when defined. *)
Definition spreadConfig (a b : Config) : Config :=
  {| prefixType := prefixType b;
     manualPrefix := match manualPrefix b with
                     | Some p => Some p
                     | None => manualPrefix a
                     end;
     worktreeDir := worktreeDir b;
     postCommands := postCommands b |}.

Definition set_postCommands (c : Config) (pcs : list PostCommand) : Config :=
  {| prefixType := prefixType c;
     manualPrefix := manualPrefix c;
     worktreeDir := worktreeDir c;
     postCommands := pcs |}.

Definition defaultConfig : Config :=
  {| prefixType := PrefixNone;
     manualPrefix := None;
     worktreeDir := default_worktreeDir;
     postCommands := [] |}.

(** [ConfigManager.mergeConfigs]. The test [if (local.postCommands)] is
    on an array, which is truthy even when empty. *)
Definition mergeConfigs (global local : option Config) : Config :=
  let merged := defaultConfig in
  let merged := match global with
                | Some g => spreadConfig merged g
                | None => merged
                end in
  match local with
  | Some l =>
      let merged := spreadConfig merged l in
      set_postCommands merged (postCommands l)
  | None => merged
  end.

(** The layering the specification describes, field by field: the value
    of the innermost layer that defines the field. *)
Definition layered {A} (dflt : A) (global local : option A) : A :=
  match local with
  | Some v => v
  | None => match global with
            | Some v => v
            | None => dflt
            end
  end.

Definition layeredOpt {A} (global local : option A) : option A :=
  match local with
  | Some v => Some v
  | None => global
  end.

Definition bindOpt {A B} (o : option A) (f : A -> option B) : option B :=
  match o with
  | Some a => f a
  | None => None
  end.


(* ================================================================== *)
(** * Regular expressions *)
(* ================================================================== *)

(** The fragment of ECMAScript regular expressions the sources use:
    literals, character classes, [+] and [+?] on a class, the greedy
    [?], capturing groups, alternation and the two anchors. The matcher
    is the backtracking one of the language definition, written with a
    continuation: alternatives are tried in priority order and the first
    one whose continuation succeeds wins. *)
Module Regex.

Inductive regex : Type :=
| Eps                              (* the empty pattern *)
| Chr (c : ascii)                  (* a literal character *)
| Cls (p : ascii -> bool)          (* [...]  .  \S  \w *)
| Plus (p : ascii -> bool)         (* cls+   greedy *)
| PlusLazy (p : ascii -> bool)     (* cls+?  lazy *)
| Opt (r : regex)                  (* r?     greedy *)
| Group (n : nat) (r : regex)      (* the n-th capturing group *)
| Seq (r1 r2 : regex)
| Alt (r1 r2 : regex)              (* r1|r2 *)
| Bos                              (* ^ *)
| Eos.                             (* $ *)

(** A literal string. *)
Fixpoint lit (s : string) : regex :=
  match s with
  | EmptyString => Eps
  | String c s' => Seq (Chr c) (lit s')
  end.

(** Captures, the most recent first. *)
Definition captures := list (nat * string).

Fixpoint capture (n : nat) (cs : captures) : option string :=
  match cs with
  | [] => None
  | (m, v) :: rest => if Nat.eqb n m then Some v else capture n rest
  end.

(** A match ends at an index, with the captures made on the way. *)
Definition outcome := option (nat * captures).

(** A continuation receives the index reached, the input that remains
    there and the captures. *)
Definition cont := nat -> string -> captures -> outcome.

Definition orElse (a b : outcome) : outcome :=
  match a with
  | Some x => Some x
  | None => b
  end.

(** [cls+]: one character of the class, then as many more as possible,
    giving back one at a time. *)
Fixpoint plusGreedy (p : ascii -> bool) (i : nat) (s : string)
         (cs : captures) (k : cont) : outcome :=
  match s with
  | EmptyString => None
  | String c s' =>
      if p c then orElse (plusGreedy p (S i) s' cs k) (k (S i) s' cs)
      else None
  end.

(** [cls+?]: one character of the class, then as few more as possible. *)
Fixpoint plusLazy (p : ascii -> bool) (i : nat) (s : string)
         (cs : captures) (k : cont) : outcome :=
  match s with
  | EmptyString => None
  | String c s' =>
      if p c then orElse (k (S i) s' cs) (plusLazy p (S i) s' cs k)
      else None
  end.

(** [run r i s cs k]: match [r] at index [i], where [s] is the input
    from [i] on, then continue with [k]. *)
Fixpoint run (r : regex) (i : nat) (s : string) (cs : captures)
         (k : cont) : outcome :=
  match r with
  | Eps => k i s cs
  | Chr c =>
      match s with
      | String d s' => if Ascii.eqb c d then k (S i) s' cs else None
      | EmptyString => None
      end
  | Cls p =>
      match s with
      | String d s' => if p d then k (S i) s' cs else None
      | EmptyString => None
      end
  | Plus p => plusGreedy p i s cs k
  | PlusLazy p => plusLazy p i s cs k
  | Opt r1 => orElse (run r1 i s cs k) (k i s cs)
  | Group n r1 =>
      run r1 i s cs (fun j s' cs' => k j s' ((n, Str.take (j - i) s) :: cs'))
  | Seq r1 r2 => run r1 i s cs (fun j s' cs' => run r2 j s' cs' k)
  | Alt r1 r2 => orElse (run r1 i s cs k) (run r2 i s cs k)
  | Bos => if Nat.eqb i 0 then k i s cs else None
  | Eos =>
      match s with
      | EmptyString => k i s cs
      | String _ _ => None
      end
  end.

Definition matchAt (r : regex) (i : nat) (s : string) : outcome :=
  run r i s [] (fun j _ cs => Some (j, cs)).

(** The leftmost index from [i] on at which [r] matches. *)
Fixpoint searchFrom (r : regex) (i : nat) (s : string) : outcome :=
  match matchAt r i s with
  | Some m => Some m
  | None =>
      match s with
      | EmptyString => None
      | String _ s' => searchFrom r (S i) s'
      end
  end.

(** [s.match(r)] for a pattern without the [g] flag: the captures of
    the leftmost match, [None] for [null]. *)
Definition exec (r : regex) (s : string) : option captures :=
  match searchFrom r 0 s with
  | Some (_, cs) => Some cs
  | None => None
  end.

(** [s.replace(r, rep)] for a pattern with the [g] flag and a
    replacement without [$]: scanning from the left, every match is
    replaced and the search resumes where the match ended (one
    character further after an empty match). [skip] counts the
    characters of the current match that are still to be dropped. *)
Fixpoint replaceFrom (r : regex) (rep : string) (i : nat) (s : string)
         (skip : nat) {struct s} : string :=
  match skip with
  | S n =>
      match s with
      | EmptyString => EmptyString
      | String _ s' => replaceFrom r rep (S i) s' n
      end
  | 0 =>
      match matchAt r i s with
      | Some (j, _) =>
          rep ++ match s with
                 | EmptyString => EmptyString
                 | String c s' =>
                     if Nat.eqb j i then String c (replaceFrom r rep (S i) s' 0)
                     else replaceFrom r rep (S i) s' (j - i - 1)
                 end
      | None =>
          match s with
          | EmptyString => EmptyString
          | String c s' => String c (replaceFrom r rep (S i) s' 0)
          end
      end
  end.

Definition replaceAll (r : regex) (rep : string) (s : string) : string :=
  replaceFrom r rep 0 s 0.

(** Character classes. *)
Definition only (c : ascii) : ascii -> bool := fun d => Ascii.eqb c d.
Definition except (c : ascii) : ascii -> bool := fun d => negb (Ascii.eqb c d).

(** [.] matches everything but a line terminator. *)
Definition dot : ascii -> bool :=
  fun d => negb (Nat.eqb (nat_of_ascii d) 10 || Nat.eqb (nat_of_ascii d) 13).

Definition inRange (lo hi : nat) (d : ascii) : bool :=
  Nat.leb lo (nat_of_ascii d) && Nat.leb (nat_of_ascii d) hi.

Definition isLower : ascii -> bool := inRange 97 122.
Definition isUpper : ascii -> bool := inRange 65 90.
Definition isDigit : ascii -> bool := inRange 48 57.

(** [\w] *)
Definition word : ascii -> bool :=
  fun d => isLower d || isUpper d || isDigit d || Ascii.eqb d "_".

(** [\s] and [\S] *)
Definition space : ascii -> bool := Str.isSpace.
Definition nonSpace : ascii -> bool := fun d => negb (Str.isSpace d).

End Regex.

(** A captured group used as a condition, [match?.[n]]: the group took
    part in the match and is not the empty string. *)
Definition truthyGroup (n : nat) (m : option Regex.captures) : option string :=
  match m with
  | None => None
  | Some cs =>
      match Regex.capture n cs with
      | Some EmptyString => None
      | Some g => Some g
      | None => None
      end
  end.

(* ================================================================== *)
(** * git/remotes.ts: the repository name of a remote URL *)
(* ================================================================== *)

Import Regex.

(** The part the two patterns share, [([^/]+\/)?(.+?)] followed by the
    end of the pattern. *)
Definition repoPath (tail : regex) : regex :=
  Seq (Opt (Group 1 (Seq (Plus (except "/")) (Chr "/"))))
   (Seq (Group 2 (PlusLazy dot)) tail).

(** [(?:\.git)?$] *)
Definition sshTail : regex := Seq (Opt (lit ".git")) Eos.

(** [(?:\.git)?(?:\/)?$] *)
Definition httpTail : regex := Seq (Opt (lit ".git")) (Seq (Opt (Chr "/")) Eos).

(** [/git@[^:]+:([^/]+\/)?(.+?)(?:\.git)?$/] *)
Definition sshUrlRegex : regex :=
  Seq (lit "git@")
   (Seq (Plus (except ":"))
    (Seq (Chr ":") (repoPath sshTail))).

(** [/https?:\/\/[^/]+\/([^/]+\/)?(.+?)(?:\.git)?(?:\/)?$/] *)
Definition httpUrlRegex : regex :=
  Seq (lit "http")
   (Seq (Opt (Chr "s"))
    (Seq (lit "://")
     (Seq (Plus (except "/"))
      (Seq (Chr "/") (repoPath httpTail))))).

(** [GitRemoteManager.extractRepoName] (the [logger.debug] lines have no
    effect on the result). *)
Definition extractRepoName (url : string) : Result string :=
  if Str.startsWith "git@" url then
    match truthyGroup 2 (exec sshUrlRegex url) with
    | Some repoName => Ok repoName
    | None => Err (MkError GitError ("Unable to parse SSH git URL: " ++ url) None)
    end
  else if Str.startsWith "http" url then
    match truthyGroup 2 (exec httpUrlRegex url) with
    | Some repoName => Ok repoName
    | None => Err (MkError GitError ("Unable to parse HTTPS git URL: " ++ url) None)
    end
  else Err (MkError GitError ("Unsupported git URL format: " ++ url) None).

(* ================================================================== *)
(** * git/gitlab.ts, git/github.ts: the worktree name of a change request *)
(* ================================================================== *)

(** The characters of [[a-zA-Z0-9\-_]]. *)
Definition isNameChar (c : ascii) : bool :=
  isLower c || isUpper c || isDigit c || Ascii.eqb c "-" || Ascii.eqb c "_".

(** [/[^a-zA-Z0-9\-_]/g] *)
Definition problematicRegex : regex := Cls (fun c => negb (isNameChar c)).

(** [/-+/g] *)
Definition dashesRegex : regex := Plus (only "-").

(** [/^-+|-+$/g] *)
Definition edgeDashesRegex : regex :=
  Alt (Seq Bos (Plus (only "-"))) (Seq (Plus (only "-")) Eos).

(** Lines 70 to 84 of [generateWorktreeName], the same in both managers
    but for the prefix of the fallback: [fallback] is ['mr'] or ['pr']. *)
Definition worktreeNameOf (fallback : string) (branch : string) (number : Z) : string :=
  let name := branch in
  let name := replaceAll problematicRegex "-" name in
  let name := replaceAll dashesRegex "-" name in
  let name := replaceAll edgeDashesRegex "" name in
  if Nat.ltb (String.length name) 2
  then fallback ++ "-" ++ Str.ofZ number
  else name.
(* ================================================================== *)
(** * Numbers and their numerals *)
(* ================================================================== *)

From Stdlib Require DecimalPos DecimalN DecimalFacts.

(** The numbers of the program are doubles. [Str.ofZ] is what a template
    literal prints for the integers that a double holds exactly and
    prints in plain digits, the safe integers; above them a double
    rounds, and from 1e21 on the literal is in exponent form
    ([1e+21]). The properties that depend on the characters of a
    rendered number take the number in that range. *)
Module Num.

(** [Number.MAX_SAFE_INTEGER], 2^53 - 1 *)
Definition MAX_SAFE_INTEGER : Z := 9007199254740991.

(** [Number.isSafeInteger(n)], for an integer [n] *)
Definition isSafeInteger (n : Z) : bool :=
  Z.leb (- MAX_SAFE_INTEGER) n && Z.leb n MAX_SAFE_INTEGER.

End Num.

(** ** Decimal numerals, read digit by digit *)

(** What a decimal numeral denotes, written apart from the rendering of
    the code: the digits are read from the left, a numeral has at least
    one digit and no superfluous zero in front, a minus sign comes
    before a numeral that is not zero. *)
Module Numeral.

Definition digitValue (c : ascii) : option Z :=
  if isDigit c then Some (Z.of_nat (nat_of_ascii c) - 48)%Z else None.

Fixpoint digitsValue (s : string) (acc : Z) : option Z :=
  match s with
  | EmptyString => Some acc
  | String c rest =>
      match digitValue c with
      | Some d => digitsValue rest (10 * acc + d)
      | None => None
      end
  end.

Definition leadingZero (s : string) : bool :=
  match s with
  | String c (String _ _) => Ascii.eqb c "0"
  | _ => false
  end.

Definition natural (s : string) : option Z :=
  match s with
  | EmptyString => None
  | _ => if leadingZero s then None else digitsValue s 0
  end.

Definition value (s : string) : option Z :=
  match s with
  | String c digits =>
      if Ascii.eqb c "-" then
        match natural digits with
        | Some n => if Z.eqb n 0 then None else Some (- n)%Z
        | None => None
        end
      else natural s
  | EmptyString => None
  end.

End Numeral.

(** ** The derivation of the name, in the words of the specification *)

(** The three steps the specification lists, written on the characters
    directly; [worktreeNameOf] above is the code, with its three regular
    expressions. *)
Module NameSpec.

Definition isDash (c : ascii) : bool := Ascii.eqb "-" c.

(** Every character outside [[A-Za-z0-9_-]] becomes a dash. *)
Definition replaceOutside (s : string) : string :=
  Str.map (fun c => if isNameChar c then c else "-"%char) s.

Definition startsWithDash (s : string) : bool :=
  match s with
  | String c _ => isDash c
  | EmptyString => false
  end.

(** A run of dashes becomes one dash: a dash followed by a dash goes. *)
Fixpoint collapseDashes (s : string) : string :=
  match s with
  | EmptyString => EmptyString
  | String c s' =>
      if isDash c && startsWithDash s' then collapseDashes s'
      else String c (collapseDashes s')
  end.

Fixpoint stripLeading (s : string) : string :=
  match s with
  | EmptyString => EmptyString
  | String c s' => if isDash c then stripLeading s' else s
  end.

Fixpoint stripTrailing (s : string) : string :=
  match s with
  | EmptyString => EmptyString
  | String c s' =>
      match stripTrailing s' with
      | EmptyString => if isDash c then EmptyString else String c EmptyString
      | t => String c t
      end
  end.

Definition sanitize (branch : string) : string :=
  stripTrailing (stripLeading (collapseDashes (replaceOutside branch))).

(** The name, or the numbered fallback when fewer than two characters
    are left. *)
Definition deriveWorktreeName (providerPrefix : string) (branch : string)
           (id : Z) : string :=
  let name := sanitize branch in
  if Nat.ltb (String.length name) 2
  then providerPrefix ++ "-" ++ Str.ofZ id
  else name.

(** The same, with the fallback told by what it denotes and not by the
    rendering of the code: [name] is the sanitised branch, or the prefix,
    a dash and the decimal numeral of the id. *)
Definition isWorktreeName (providerPrefix : string) (branch : string) (id : Z)
           (name : string) : Prop :=
  if Nat.ltb (String.length (sanitize branch)) 2
  then exists numeral,
      Numeral.value numeral = Some id
      /\ name = providerPrefix ++ "-" ++ numeral
  else name = sanitize branch.

End NameSpec.

(** ** The two URL shapes, in the words of the specification *)

Module UrlShape.

(** [[group/]] *)
Definition groupPart (group : option string) : string :=
  match group with
  | Some g => g ++ "/"
  | None => ""
  end.

(** [[.git]] *)
Definition gitSuffix (dotGit : bool) : string :=
  if dotGit then ".git" else "".

(** [[/]] *)
Definition slashSuffix (trailingSlash : bool) : string :=
  if trailingSlash then "/" else "".

(** [user@host:[group/]name[.git]] *)
Definition sshUrl (user host : string) (group : option string)
           (name : string) (dotGit : bool) : string :=
  user ++ "@" ++ host ++ ":" ++ groupPart group ++ name ++ gitSuffix dotGit.

(** [scheme://host/[group/]name[.git][/]] with [scheme] one of [http]
    and [https]. *)
Definition httpUrl (secure : bool) (host : string) (group : option string)
           (name : string) (dotGit trailingSlash : bool) : string :=
  "http" ++ (if secure then "s" else "") ++ "://" ++ host ++ "/"
  ++ groupPart group ++ name ++ gitSuffix dotGit ++ slashSuffix trailingSlash.

(** A path segment: not empty, without separator or line terminator. *)
Definition segmentChar (c : ascii) : bool := except "/" c && dot c.

Definition segment (s : string) : Prop :=
  s <> "" /\ Str.forallb segmentChar s = true.

(** The host of an SSH URL stops at the colon, the host of an HTTP(S)
URL at the slash. *)
Definition sshHost (s : string) : Prop :=
s <> "" /\ Str.forallb (except ":") s = true.

Definition httpHost (s : string) : Prop :=
s <> "" /\ Str.forallb (except "/") s = true.

Definition groupOk (group : option string) : Prop :=
  match group with
  | Some g => segment g
  | None => True
  end.

(** The suffix [.git] of the final segment is the optional one: a URL
    written without it has a name that does not itself end in [.git]. *)
Definition nameOk (name : string) (dotGit : bool) : Prop :=
  segment name
  /\ (dotGit = false -> forall x, x <> "" -> name <> x ++ ".git").

End UrlShape.

(* ================================================================== *)
(** * Effectful code *)
(* ================================================================== *)

(** ** What the host offers *)

(** [execa(command, args, options)] resolves with the captured output or
    rejects with an [ExecaError], whose fields may be missing (a binary
    that cannot be spawned has no exit code). *)
Inductive ExecaOutcome : Type :=
| Resolved (out err : option string) (code : option Z)
| Rejected (out err : option string) (code : option Z).

(** [explorer.load(path)] of cosmiconfig: it rejects when the file cannot
    be read or parsed, and yields [null] or a result whose [config] is
    [undefined] for an empty file. *)
Inductive LoadOutcome : Type :=
| LoadThrows (e : JsError)
| LoadNull
| Loaded (config : option json).

(** The text [JSON.stringify(v, null, 2)] is written [JsonText v]. *)
Inductive FileContent : Type :=
| JsonText (v : json).

(** Modelled from the spec: the logger of [utils/logger.ts] is not among
    the sources at hand. The specification treats the display of logs
    and spinners as an external collaborator; its methods, as the
    sources call them, are operations of the host. *)
Inductive LogLevel : Type :=
| Info | Warn | Error | Success
| StartSpinner | SucceedSpinner | FailSpinner.

(** The operations on the world outside the process. The [logger.debug]
    lines of the sources print only under [--verbose] and are left out. *)
Inductive Op : Type -> Type :=
| Execa (command : string) (args : list string) (cwd : option string)
    : Op ExecaOutcome
| ExistsSync (path : string) : Op bool
| RmSync (path : string) : Op (option JsError)
| MkdirSync (path : string) : Op (option JsError)
| WriteFileSync (path : string) (content : FileContent) : Op (option JsError)
| CosmiconfigLoad (path : string) : Op LoadOutcome
| Confirm (message : string) : Op bool
| SetVerbose (verbose : bool) : Op unit
| Log (level : LogLevel) (message : string) : Op unit.

(** The pure library functions: [path], [os], [process], [JSON.parse]
    ([None] where it throws a [SyntaxError]). *)
Record Platform : Type := mkPlatform {
  path_join : string -> string -> string;
  path_resolve : string -> string;
  path_resolve2 : string -> string -> string;
  path_isAbsolute : string -> bool;
  path_dirname : string -> string;
  os_homedir : string;
  process_cwd : string;
  JSON_parse : string -> option json
}.

(** ** Programs *)

(** An asynchronous function of the sources is a program: it returns,
    throws, or performs an operation and goes on with the answer. *)
Inductive Prog (A : Type) : Type :=
| Ret (a : A)
| Throw (e : JsError)
| Do (X : Type) (op : Op X) (k : X -> Prog A).
Arguments Ret {A} a.
Arguments Throw {A} e.
Arguments Do {A X} op k.

Fixpoint bind {A B} (m : Prog A) (f : A -> Prog B) : Prog B :=
  match m with
  | Ret a => f a
  | Throw e => Throw e
  | Do op k => Do op (fun x => bind (k x) f)
  end.

(** [try { m } catch (error) { h error }] *)
Fixpoint tryCatch {A} (m : Prog A) (h : JsError -> Prog A) : Prog A :=
  match m with
  | Ret a => Ret a
  | Throw e => h e
  | Do op k => Do op (fun x => tryCatch (k x) h)
  end.

Definition perform {X} (op : Op X) : Prog X := Do op Ret.

Definition ofResult {A} (r : Result A) : Prog A :=
  match r with
  | Ok a => Ret a
  | Err e => Throw e
  end.

Declare Scope prog_scope.
Delimit Scope prog_scope with prog.
Notation "x <- m ;; k" := (bind m (fun x => k))
  (at level 61, m at next level, right associativity) : prog_scope.
Notation "m ;;; k" := (bind m (fun _ => k))
  (at level 61, right associativity) : prog_scope.
Local Open Scope prog_scope.

Definition log (level : LogLevel) (message : string) : Prog unit :=
  perform (Log level message).

(** [for (const x of xs) { body x }] *)
Fixpoint forEach {A} (xs : list A) (body : A -> Prog unit) : Prog unit :=
  match xs with
  | [] => Ret tt
  | x :: rest => body x ;;; forEach rest body
  end.

(** ** Running a program *)

(** What happened: an operation and the answer it got. *)
Inductive Event : Type :=
| Ev (X : Type) (op : Op X) (answer : X).
Arguments Ev {X} op answer.

(** A host answers an operation, knowing all that happened before: any
    deterministic world is of this form. *)
Definition Host : Type := forall X, list Event -> Op X -> X.

(** [interp host past p]: the outcome of [p] run after the events
    [past], and the events of the run itself. *)
Fixpoint interp {A} (host : Host) (past : list Event) (p : Prog A)
  : Result A * list Event :=
  match p with
  | Ret a => (Ok a, [])
  | Throw e => (Err e, [])
  | Do op k =>
      let answer := host _ past op in
      let (r, events) := interp host (past ++ [Ev op answer])%list (k answer) in
      (r, Ev op answer :: events)
  end.

Definition outcomeOf {A} (host : Host) (past : list Event) (p : Prog A) : Result A :=
  fst (interp host past p).

Definition eventsOf {A} (host : Host) (past : list Event) (p : Prog A) : list Event :=
  snd (interp host past p).

(* ================================================================== *)
(** * utils/exec.ts *)
(* ================================================================== *)

Record ExecResult : Type := mkExecResult {
  stdout : string;
  stderr : string;
  exitCode : Z
}.

(** [String(x || '')] *)
Definition stringOr (x : option string) : string :=
  match x with
  | Some s => s
  | None => ""
  end.

(** [x ?? d] *)
Definition nullish {A} (x : option A) (d : A) : A :=
  match x with
  | Some a => a
  | None => d
  end.

Module ExecUtils.

(** [result.exitCode] of [run], from what [execa] gave. *)
Definition exitStatus (outcome : ExecaOutcome) : Z :=
  match outcome with
  | Resolved _ _ code => nullish code 0%Z
  | Rejected _ _ code => nullish code 1%Z
  end.

(** The two [return] statements of [run]. *)
Definition resultOf (outcome : ExecaOutcome) : ExecResult :=
  match outcome with
  | Resolved out err code =>
      mkExecResult (stringOr out) (stringOr err) (nullish code 0%Z)
  | Rejected out err code =>
      mkExecResult (stringOr out) (stringOr err) (nullish code 1%Z)
  end.

(** [ExecUtils.run]: the rejection of [execa] is caught and turned
    into a result, so that [run] itself never throws. *)
Definition run (command : string) (args : list string) (cwd : option string)
  : Prog ExecResult :=
  outcome <- perform (Execa command args cwd) ;;
  Ret (resultOf outcome).

Definition commandFailed (command : string) (args : list string)
           (result : ExecResult) : JsError :=
  MkError (KWTError "EXEC_ERROR")
          ("Command failed: " ++ command ++ " " ++ Str.join " " args
           ++ String "010" (stderr result))
          None.

(** [ExecUtils.runOrThrow] *)
Definition runOrThrow (command : string) (args : list string)
           (cwd : option string) : Prog string :=
  result <- run command args cwd ;;
  if negb (Z.eqb (exitCode result) 0)
  then Throw (commandFailed command args result)
  else Ret (stdout result).

(** [ExecUtils.exists]: [run] is awaited inside a [try] whose [catch]
    returns [false]. *)
Definition exists_ (command : string) : Prog bool :=
  tryCatch (_ <- run "which" [command] None ;; Ret true)
           (fun _ => Ret false).

End ExecUtils.

(* ================================================================== *)
(** * types/index.ts: the records of git and of the hosting CLIs *)
(* ================================================================== *)

Record GitRemote : Type := mkGitRemote {
  remote_name : string;
  remote_url : string;
  remote_type : string
}.

(** [Partial<GitWorktree>], the record the listing parser fills in. The
    parser casts it to [GitWorktree] when it appends it, so the records
    of a listing are of this type too. *)
Record GitWorktree : Type := mkGitWorktree {
  wt_path : option string;
  wt_branch : option string;
  wt_commit : option string;
  wt_bare : option bool;
  wt_detached : option bool
}.

(** A string used as a condition: defined and not empty. *)
Definition truthy (s : option string) : bool :=
  match s with
  | Some EmptyString => false
  | Some _ => true
  | None => false
  end.

(* ================================================================== *)
(** * git/worktrees.ts: the parser of the porcelain listing *)
(* ================================================================== *)

Module Porcelain.

(** [{}] *)
Definition empty : GitWorktree := mkGitWorktree None None None None None.

(** [{ path: p }] *)
Definition started (p : string) : GitWorktree :=
  mkGitWorktree (Some p) None None None None.

Definition set_commit (w : GitWorktree) (v : string) : GitWorktree :=
  mkGitWorktree (wt_path w) (wt_branch w) (Some v) (wt_bare w) (wt_detached w).
Definition set_branch (w : GitWorktree) (v : string) : GitWorktree :=
  mkGitWorktree (wt_path w) (Some v) (wt_commit w) (wt_bare w) (wt_detached w).
Definition set_bare (w : GitWorktree) : GitWorktree :=
  mkGitWorktree (wt_path w) (wt_branch w) (wt_commit w) (Some true) (wt_detached w).
Definition set_detached (w : GitWorktree) : GitWorktree :=
  mkGitWorktree (wt_path w) (wt_branch w) (wt_commit w) (wt_bare w) (Some true).

(** The state of the loop: [worktrees] and [currentWorktree]. *)
Definition state : Type := list GitWorktree * GitWorktree.

(** [if (currentWorktree.path) worktrees.push(currentWorktree)] *)
Definition flush (st : state) : list GitWorktree :=
  let (worktrees, current) := st in
  if truthy (wt_path current) then (worktrees ++ [current])%list else worktrees.

(** The body of [for (const line of lines)]. *)
Definition step (st : state) (line : string) : state :=
  if Str.startsWith "worktree " line then
    (flush st, started (Str.drop 9 line))
  else
    let (worktrees, current) := st in
    if Str.startsWith "HEAD " line then
      (worktrees, set_commit current (Str.drop 5 line))
    else if Str.startsWith "branch " line then
      (worktrees, set_branch current (Str.drop 7 line))
    else if String.eqb line "bare" then
      (worktrees, set_bare current)
    else if String.eqb line "detached" then
      (worktrees, set_detached current)
    else st.

Definition loop (lines : list string) (st : state) : state :=
  List.fold_left step lines st.

(** The loop from the empty state, then the last record. *)
Definition parseLines (lines : list string) : list GitWorktree :=
  flush (loop lines ([], empty)).

(** The lines of the output: [output.trim().split('\n')]. *)
Definition linesOf (output : string) : list string :=
  Str.split "010" (Str.trim output).

(** The part of [listWorktrees] after the command has run. *)
Definition parse (output : string) : list GitWorktree :=
  parseLines (linesOf output).

End Porcelain.

(** ** The listing format, in the words of the specification *)

Module PorcelainSpec.

(** A line that begins a record: it starts with the path marker. *)
Definition isMarker (line : string) : bool := Str.startsWith "worktree " line.

(** A block: a marker line and the lines up to the next marker or the
    end of the input. *)
Definition block : Type := string * list string.

(** The lines up to the next marker or the end of the input. *)
Fixpoint bodyOf (lines : list string) : list string :=
  match lines with
  | [] => []
  | line :: rest => if isMarker line then [] else line :: bodyOf rest
  end.

(** The blocks of an input; the lines before the first marker belong
    to no block. *)
Fixpoint blocks (lines : list string) : list block :=
  match lines with
  | [] => []
  | line :: rest =>
      if isMarker line then (line, bodyOf rest) :: blocks rest
      else blocks rest
  end.

(** The last line with the given prefix, without the prefix. *)
Fixpoint lastWithPrefix (prefix : string) (body : list string) : option string :=
  match body with
  | [] => None
  | line :: rest =>
      match lastWithPrefix prefix rest with
      | Some v => Some v
      | None =>
          if Str.startsWith prefix line
          then Some (Str.drop (String.length prefix) line)
          else None
      end
  end.

(** [Some true] when the flag line is there. *)
Definition flag (name : string) (body : list string) : option bool :=
  if List.existsb (String.eqb name) body then Some true else None.

(** The record of a block, each field from the lines of the block
    only. *)
Definition recordOf (b : block) : GitWorktree :=
  let (marker, body) := b in
  {| wt_path := Some (Str.drop 9 marker);
     wt_branch := lastWithPrefix "branch " body;
     wt_commit := lastWithPrefix "HEAD " body;
     wt_bare := flag "bare" body;
     wt_detached := flag "detached" body |}.

(** Every marker line carries a path, as in the output of
    [git worktree list --porcelain]. *)
Definition wellFormed (lines : list string) : Prop :=
  forall line, In line lines -> isMarker line = true -> line <> "worktree ".

End PorcelainSpec.

(* ================================================================== *)
(** * The managers *)
(* ================================================================== *)

(** [throw new C(`${prefix}${error.message}`, error)] *)
Definition wrapError (cls : ErrorClass) (prefix : string) (error : JsError) : JsError :=
  MkError cls (prefix ++ messageOf error) (Some error).

(** [/^(\S+)\s+(\S+)\s+\((\w+)\)$/] *)
Definition remoteLineRegex : regex :=
  Seq Bos
   (Seq (Group 1 (Plus nonSpace))
    (Seq (Plus space)
     (Seq (Group 2 (Plus nonSpace))
      (Seq (Plus space)
       (Seq (Chr "(")
        (Seq (Group 3 (Plus word))
         (Seq (Chr ")") Eos))))))).

(** The body of the loop of [getRemotes]: the remote of a line, if the
    line has the shape. *)
Definition remoteOfLine (line : string) : list GitRemote :=
  let m := exec remoteLineRegex line in
  match truthyGroup 1 m, truthyGroup 2 m, truthyGroup 3 m with
  | Some name, Some url, Some type => [mkGitRemote name url type]
  | _, _, _ => []
  end.

(** [${v}] for a value that may be [undefined]. *)
Definition showOpt (v : option string) : string :=
  match v with
  | Some s => s
  | None => "undefined"
  end.

(** The options of [createWorktree], each with its default. *)
Record CreateOptions : Type := mkCreateOptions {
  createBranch : option bool;
  force : option bool;
  checkout : option bool
}.

(** The hosting CLIs. [gitlab.ts] and [github.ts] are the same code up
    to the constants gathered here. *)
Record Provider : Type := mkProvider {
  cli : string;                          (* 'glab' / 'gh' *)
  viewArgs : string -> list string;      (* the arguments of the view command *)
  providerError : ErrorClass;            (* GitLabError / GitHubError *)
  requestNoun : string;                  (* 'merge request' / 'pull request' *)
  branchField : string;                  (* source_branch / headRefName *)
  fallbackPrefix : string                (* 'mr' / 'pr' *)
}.

Definition gitlab : Provider :=
  {| cli := "glab";
     viewArgs := fun n => ["mr"; "view"; n; "--output"; "json"];
     providerError := GitLabError;
     requestNoun := "merge request";
     branchField := "source_branch";
     fallbackPrefix := "mr" |}.

(** Modelled from the spec: the class [GitHubError] and the interface
    [GitHubPR], which [github.ts] imports from [types/index.ts], are not
    declared in the sources at hand. The error kind is the one the
    specification lists beside [GitLabError]; the fields are those
    [github.ts] reads and asks [gh] for. *)
Definition github : Provider :=
  {| cli := "gh";
     viewArgs := fun n => ["pr"; "view"; n; "--json";
                           "number,title,headRefName,baseRefName,state,url"];
     providerError := GitHubError;
     requestNoun := "pull request";
     branchField := "headRefName";
     fallbackPrefix := "pr" |}.

(** [String(v)], the conversion a template literal applies. *)
Fixpoint showJson (v : json) : string :=
  match v with
  | JNull => "null"
  | JBool true => "true"
  | JBool false => "false"
  | JNum z => Str.ofZ z
  | JStr s => s
  | JArr items =>
      Str.join "," (List.map (fun x => match x with
                                       | JNull => ""
                                       | _ => showJson x
                                       end) items)
  | JObj _ => "[object Object]"
  end.

(** [${v}] for a property that may be missing. *)
Definition showProp (v : option json) : string :=
  match v with
  | Some x => showJson x
  | None => "undefined"
  end.

(** [value.key] on what [JSON.parse] returned: reading a property of
    [null] throws, a missing property is [undefined]. *)
Definition getProp (value : json) (key : string) : Prog (option json) :=
  match value with
  | JNull => Throw (MkError TypeError
                      ("Cannot read properties of null (reading '" ++ key ++ "')") None)
  | _ => Ret (getField key value)
  end.

Section Managers.

Variable P : Platform.
(** [this.cwd] *)
Variable cwd : string.

Local Open Scope prog_scope.

(** ** git/remotes.ts *)
Definition getRemotes : Prog (list GitRemote) :=
  tryCatch
    (output <- ExecUtils.runOrThrow "git" ["remote"; "-v"] (Some cwd) ;;
     let lines := List.filter (fun line => truthy (Some (Str.trim line)))
                              (Str.split "010" (Str.trim output)) in
     Ret (List.flat_map remoteOfLine lines))
    (fun error => Throw (wrapError GitError "Failed to get git remotes: " error)).

Definition getOriginUrl : Prog string :=
  remotes <- getRemotes ;;
  match List.find (fun remote => String.eqb (remote_name remote) "origin"
                                 && String.eqb (remote_type remote) "fetch")
                  remotes with
  | None => Throw (MkError GitError "No origin remote found" None)
  | Some origin => Ret (remote_url origin)
  end.

Definition generatePrefix : Prog string :=
  originUrl <- getOriginUrl ;;
  repoName <- ofResult (extractRepoName originUrl) ;;
  Ret (repoName ++ "-").

Definition isGitRepo : Prog bool :=
  tryCatch
    (_ <- ExecUtils.runOrThrow "git" ["rev-parse"; "--git-dir"] (Some cwd) ;;
     Ret true)
    (fun _ => Ret false).

Definition getCurrentBranch : Prog string :=
  tryCatch
    (output <- ExecUtils.runOrThrow "git" ["branch"; "--show-current"] (Some cwd) ;;
     Ret (Str.trim output))
    (fun error => Throw (wrapError GitError "Failed to get current branch: " error)).

Definition branchExists (branchName : string) : Prog bool :=
  tryCatch
    (_ <- ExecUtils.runOrThrow "git"
            ["show-ref"; "--verify"; "--quiet"; "refs/heads/" ++ branchName]
            (Some cwd) ;;
     Ret true)
    (fun _ => Ret false).

Definition remoteBranchExists (branchName : string) (remote : string) : Prog bool :=
  tryCatch
    (_ <- ExecUtils.runOrThrow "git"
            ["show-ref"; "--verify"; "--quiet";
             "refs/remotes/" ++ remote ++ "/" ++ branchName]
            (Some cwd) ;;
     Ret true)
    (fun _ => Ret false).

(** ** git/worktrees.ts *)
Definition listWorktrees : Prog (list GitWorktree) :=
  tryCatch
    (output <- ExecUtils.runOrThrow "git" ["worktree"; "list"; "--porcelain"]
                 (Some cwd) ;;
     Ret (Porcelain.parse output))
    (fun error => Throw (wrapError GitError "Failed to list worktrees: " error)).

Definition createArgs (path branchName : string) (options : CreateOptions)
  : list string :=
  let createBranch := nullish (createBranch options) true in
  let force := nullish (force options) false in
  let checkout := nullish (checkout options) true in
  (["worktree"; "add"]
   ++ (if force then ["--force"] else [])
   ++ (if createBranch then ["-b"; branchName]
       else if negb checkout then ["--detach"] else [])
   ++ [path]
   ++ (if negb createBranch && checkout then [branchName] else []))%list.

Definition createWorktree (path branchName : string) (options : CreateOptions)
  : Prog unit :=
  tryCatch
    (_ <- ExecUtils.runOrThrow "git" (createArgs path branchName options)
            (Some cwd) ;;
     Ret tt)
    (fun error => Throw (wrapError GitError "Failed to create worktree: " error)).

Definition removeArgs (path : string) (force : bool) : list string :=
  (["worktree"; "remove"] ++ (if force then ["--force"] else []) ++ [path])%list.

(** The manual cleanup in the [catch] of [removeWorktree]: [rmSync]
    may throw, [ExecUtils.run] does not. *)
Definition manualCleanup (path : string) : Prog unit :=
  tryCatch
    (failure <- perform (RmSync path) ;;
     match failure with
     | Some e => Throw e
     | None => _ <- ExecUtils.run "git" ["worktree"; "prune"] (Some cwd) ;; Ret tt
     end)
    (fun cleanupError =>
       log Warn ("Manual cleanup also failed: " ++ messageOf cleanupError)).

Definition removeWorktree (path : string) (force : bool) : Prog unit :=
  tryCatch
    (_ <- ExecUtils.runOrThrow "git" (removeArgs path force) (Some cwd) ;;
     Ret tt)
    (fun error =>
       (if force
        then (there <- perform (ExistsSync path) ;;
              if there : bool then manualCleanup path else Ret tt)
        else Ret tt) ;;;
       Throw (wrapError GitError "Failed to remove worktree: " error)).

(** [resolve(wt.path)]; the records of a listing have a path. *)
Definition resolvedPathOf (wt : GitWorktree) : string :=
  path_resolve P (showOpt (wt_path wt)).

Definition worktreeExists (path : string) : Prog bool :=
  worktrees <- listWorktrees ;;
  let absolutePath := if path_isAbsolute P path then path
                      else path_resolve2 P cwd path in
  Ret (List.existsb (fun wt => String.eqb (resolvedPathOf wt) absolutePath)
                    worktrees).

Definition findWorktreeByName (name : string) : Prog (option GitWorktree) :=
  worktrees <- listWorktrees ;;
  Ret (List.find (fun wt => Str.endsWith ("/" ++ name) (showOpt (wt_path wt))
                            || Str.endsWith ("\" ++ name) (showOpt (wt_path wt)))
                 worktrees).

Definition resolveWorktreePath (worktreeDir name : string) : string :=
  let baseDir := if path_isAbsolute P worktreeDir then worktreeDir
                 else path_join P cwd worktreeDir in
  path_join P baseDir name.

Definition pruneWorktrees : Prog unit :=
  tryCatch
    (_ <- ExecUtils.runOrThrow "git" ["worktree"; "prune"] (Some cwd) ;;
     Ret tt)
    (fun error => Throw (wrapError GitError "Failed to prune worktrees: " error)).

(** ** git/gitlab.ts and git/github.ts *)
Section Hosting.

Variable provider : Provider.

(** [isGlabAvailable], [isGhAvailable] *)
Definition isAvailable : Prog bool := ExecUtils.exists_ (cli provider).

(** [getMergeRequest], [getPullRequest]: the parsed output, cast to
    the interface without a check. *)
Definition getRequest (number : Z) : Prog json :=
  available <- isAvailable ;;
  if negb available then
    Throw (MkError (providerError provider)
             (cli provider ++ " CLI is not available. Please install it first.")
             None)
  else
    tryCatch
      (output <- ExecUtils.runOrThrow (cli provider)
                   (viewArgs provider (Str.ofZ number)) (Some cwd) ;;
       match JSON_parse P output with
       | Some data => Ret data
       | None => Throw (MkError TypeError "Unexpected token in JSON" None)
       end)
      (fun error =>
         Throw (wrapError (providerError provider)
                  ("Failed to get " ++ requestNoun provider ++ " "
                   ++ Str.ofZ number ++ ": ") error)).

(** [mergeRequestExists], [pullRequestExists] *)
Definition requestExists (number : Z) : Prog bool :=
  tryCatch (_ <- getRequest number ;; Ret true) (fun _ => Ret false).

(** [mr.source_branch], [pr.headRefName] as a receiver of a string
    method: anything but a string throws. *)
Definition branchOf (request : json) : Prog string :=
  v <- getProp request (branchField provider) ;;
  match v with
  | Some (JStr branch) => Ret branch
  | _ => Throw (MkError TypeError "name.replace is not a function" None)
  end.

(** [getMergeRequestBranch], [getPullRequestBranch]: the property as
    it is. *)
Definition getRequestBranch (number : Z) : Prog (option json) :=
  request <- getRequest number ;;
  getProp request (branchField provider).

Definition generateWorktreeName (number : Z) : Prog string :=
  request <- getRequest number ;;
  branch <- branchOf request ;;
  Ret (worktreeNameOf (fallbackPrefix provider) branch number).

(** [fetchMergeRequestBranch], [fetchPullRequestBranch] *)
Definition fetchRequestBranch (number : Z) (remote : string) : Prog unit :=
  branchName <- getRequestBranch number ;;
  let branchName := showProp branchName in
  tryCatch
    (_ <- ExecUtils.runOrThrow "git"
            ["fetch"; remote; branchName ++ ":" ++ branchName] (Some cwd) ;;
     Ret tt)
    (fun _ =>
       tryCatch
         (_ <- ExecUtils.runOrThrow "git" ["fetch"; remote; branchName]
                 (Some cwd) ;;
          Ret tt)
         (fun fetchError =>
            Throw (wrapError (providerError provider)
                     ("Failed to fetch branch " ++ branchName ++ ": ")
                     fetchError))).

(** [isGitLabProject], [isGitHubProject] *)
Definition isProject : Prog bool :=
  available <- isAvailable ;;
  if negb available then Ret false
  else
    tryCatch
      (_ <- ExecUtils.runOrThrow (cli provider) ["repo"; "view"] (Some cwd) ;;
       Ret true)
      (fun _ => Ret false).

End Hosting.

End Managers.

(* ================================================================== *)
(** * config/manager.ts: the store *)
(* ================================================================== *)

(** The fields of a [ConfigManager]. *)
Record ConfigManager : Type := mkConfigManager {
  cm_cwd : string;
  localConfig : option Config;
  globalConfig : option Config;
  mergedConfig : option Config
}.

(** [new ConfigManager(cwd)] *)
Definition newConfigManager (cwd : string) : ConfigManager :=
  mkConfigManager cwd None None None.

Section ConfigStore.

Variable P : Platform.

Local Open Scope prog_scope.

(** [`.${ConfigManager.CONFIG_NAME}`] and [GLOBAL_CONFIG_FILE] *)
Definition localConfigPath (m : ConfigManager) : string :=
  path_join P (cm_cwd m) ".kwt".
Definition globalConfigPath : string :=
  path_join P (os_homedir P) ".kwt".

(** The body shared by [loadLocalConfig] and [loadGlobalConfig]: the
    whole of it is inside a [try] whose [catch] returns [null]. *)
Definition loadConfigFile (configPath : string) : Prog (option Config) :=
  tryCatch
    (there <- perform (ExistsSync configPath) ;;
     if negb there then Ret None
     else
       result <- perform (CosmiconfigLoad configPath) ;;
       match result with
       | LoadThrows e => Throw e
       | LoadNull => Ret None
       | Loaded config =>
           c <- ofResult (ConfigSchema_parse config) ;;
           Ret (Some c)
       end)
    (fun _ => Ret None).

Definition loadLocalConfig (m : ConfigManager) : Prog (option Config) :=
  loadConfigFile (localConfigPath m).

Definition loadGlobalConfig : Prog (option Config) :=
  loadConfigFile globalConfigPath.

(** [loadConfig]: the merged configuration and the manager after the
    call. *)
Definition loadConfig (m : ConfigManager) : Prog (Config * ConfigManager) :=
  match mergedConfig m with
  | Some merged => Ret (merged, m)
  | None =>
      g <- loadGlobalConfig ;;
      l <- loadLocalConfig m ;;
      let merged := mergeConfigs g l in
      Ret (merged, mkConfigManager (cm_cwd m) l g (Some merged))
  end.

(** [getConfig] *)
Definition getConfig (m : ConfigManager) : Result Config :=
  match mergedConfig m with
  | Some merged => Ok merged
  | None => Err (MkError ConfigError
                   "Configuration not loaded. Call loadConfig() first." None)
  end.

Definition writeFile (path : string) (content : FileContent) : Prog unit :=
  failure <- perform (WriteFileSync path content) ;;
  match failure with
  | Some e => Throw e
  | None => Ret tt
  end.

(** [saveLocalConfig]: the argument is what the caller passes at run
    time, a JavaScript value. The result is the manager after the
    call. *)
Definition saveLocalConfig (m : ConfigManager) (config : json) : Prog ConfigManager :=
  let configPath := localConfigPath m in
  tryCatch
    (validatedConfig <- ofResult (ConfigSchema_parse (Some config)) ;;
     writeFile configPath (JsonText (Config_toJson validatedConfig)) ;;;
     let l := Some validatedConfig in
     Ret (mkConfigManager (cm_cwd m) l (globalConfig m)
            (Some (mergeConfigs (globalConfig m) l))))
    (fun error =>
       Throw (MkError ConfigError
                ("Failed to save local config: " ++ messageOf error) None)).

(** [saveGlobalConfig] *)
Definition saveGlobalConfig (m : ConfigManager) (config : json) : Prog ConfigManager :=
  tryCatch
    (let dir := path_dirname P globalConfigPath in
     there <- perform (ExistsSync dir) ;;
     (if negb there
      then failure <- perform (MkdirSync dir) ;;
           match failure with
           | Some e => Throw e
           | None => Ret tt
           end
      else Ret tt) ;;;
     validatedConfig <- ofResult (ConfigSchema_parse (Some config)) ;;
     writeFile globalConfigPath (JsonText (Config_toJson validatedConfig)) ;;;
     let g := Some validatedConfig in
     Ret (mkConfigManager (cm_cwd m) (localConfig m) g
            (Some (mergeConfigs g (localConfig m)))))
    (fun error =>
       Throw (MkError ConfigError
                ("Failed to save global config: " ++ messageOf error) None)).

(** [{ prefixType: 'none', worktreeDir: '../worktrees', postCommands: [],
    ...config }] *)
Definition withDefaults (config : PartialConfig) : Config :=
  {| prefixType := nullish (p_prefixType config) PrefixNone;
     manualPrefix := p_manualPrefix config;
     worktreeDir := nullish (p_worktreeDir config) default_worktreeDir;
     postCommands := nullish (p_postCommands config) [] |}.

(** [initLocalConfig] *)
Definition initLocalConfig (m : ConfigManager) (config : PartialConfig)
  : Prog (Config * ConfigManager) :=
  let defaultConfig := withDefaults config in
  m' <- saveLocalConfig m (Config_toJson defaultConfig) ;;
  Ret (defaultConfig, m').

Definition hasLocalConfig (m : ConfigManager) : Prog bool :=
  perform (ExistsSync (localConfigPath m)).

Definition hasGlobalConfig : Prog bool :=
  perform (ExistsSync globalConfigPath).

End ConfigStore.

(* ================================================================== *)
(** * commands/ *)
(* ================================================================== *)

(** The options, as [types/index.ts] declares them; a missing flag is
    [false]. *)
Record CLIOptions : Type := mkCLIOptions {
  opt_config : option string;
  opt_verbose : bool;
  opt_dryRun : bool
}.

Record NewCommandOptions : Type := mkNewCommandOptions {
  new_cli : CLIOptions;
  new_branch : option string;
  new_noPush : bool
}.

Record MRCommandOptions : Type := mkMRCommandOptions {
  mr_cli : CLIOptions;
  mr_checkout : bool
}.

Record RemoveCommandOptions : Type := mkRemoveCommandOptions {
  rm_cli : CLIOptions;
  rm_force : bool
}.

(** [command.split(/\s+/)]: the pieces between the runs of white space. *)
Fixpoint splitSpaces (s : string) : list string :=
  match s with
  | EmptyString => [EmptyString]
  | String c s' =>
      if Str.isSpace c then
        match s' with
        | String d _ => if Str.isSpace d then splitSpaces s'
                        else EmptyString :: splitSpaces s'
        | EmptyString => EmptyString :: splitSpaces s'
        end
      else
        match splitSpaces s' with
        | piece :: rest => String c piece :: rest
        | [] => [String c EmptyString]
        end
  end.

(** [parseInt(s, 10)] on the integers; [None] is [NaN]. *)
Fixpoint leadingDigits (s : string) (acc : Z) (seen : bool) : option Z :=
  match s with
  | String c s' =>
      if isDigit c
      then leadingDigits s' (10 * acc + Z.of_nat (nat_of_ascii c - 48))%Z true
      else if seen then Some acc else None
  | EmptyString => if seen then Some acc else None
  end.

Definition parseInt10 (s : string) : option Z :=
  match Str.trimStart s with
  | String "-" s' => option_map Z.opp (leadingDigits s' 0%Z false)
  | String "+" s' => leadingDigits s' 0%Z false
  | s' => leadingDigits s' 0%Z false
  end.

Section Commands.

Variable P : Platform.
(** [this.cwd], shared with the managers the constructor creates. *)
Variable cwd : string.

Local Open Scope prog_scope.

(** ** commands/base.ts *)

(** [initialize]: the value it leaves in [this.config]. *)
Definition initialize (options : CLIOptions) : Prog Config :=
  (if opt_verbose options then perform (SetVerbose true) else Ret tt) ;;;
  loaded <- loadConfig P (newConfigManager cwd) ;;
  repo <- isGitRepo cwd ;;
  if negb repo then Throw (MkError PlainError "Not in a git repository" None)
  else Ret (fst loaded).

(** [generatePrefix] of the base command. *)
Definition commandPrefix (config : Config) : Prog string :=
  match prefixType config with
  | PrefixNone => Ret ""
  | PrefixManual => Ret (stringOr (manualPrefix config))
  | PrefixDetect => generatePrefix cwd
  end.

(** [generateWorktreeName] of the base command. *)
Definition prefixedName (config : Config) (baseName : string) : Prog string :=
  prefix <- commandPrefix config ;;
  Ret (prefix ++ baseName).

(** [executePostCommand] *)
Definition executePostCommand (postCommand : PostCommand) (worktreePath : string)
  : Prog unit :=
  log Info ("Running: " ++ label postCommand) ;;;
  forEach (commands postCommand)
    (fun command =>
       tryCatch
         (let parts := splitSpaces (Str.trim command) in
          match parts with
          | [] | EmptyString :: _ =>
              log Warn ("Empty command in " ++ label postCommand ++ ", skipping")
          | program :: args =>
              _ <- ExecUtils.runOrThrow program args (Some worktreePath) ;;
              Ret tt
          end)
         (fun error =>
            log Error ("Command failed: " ++ command) ;;;
            log Error ("Error: " ++ messageOf error) ;;;
            Throw error)) ;;;
  log Success ("Completed: " ++ label postCommand).

(** [executePostCommands] *)
Definition executePostCommands (config : Config) (worktreePath : string)
  : Prog unit :=
  match postCommands config with
  | [] => Ret tt
  | _ =>
      log Info "Executing post-creation commands..." ;;;
      forEach (postCommands config)
        (fun postCommand => executePostCommand postCommand worktreePath)
  end.

(** The lines both dry runs print for the post-creation commands. *)
Definition listPostCommands (config : Config) : Prog unit :=
  match postCommands config with
  | [] => Ret tt
  | _ =>
      log Info "  Post-creation commands:" ;;;
      forEach (postCommands config)
        (fun cmd => log Info ("    - " ++ label cmd))
  end.

(** ** commands/new.ts *)

(** What [NewCommand.execute] has computed when it reaches the test
    of [options.dryRun]. *)
Record NewTarget : Type := mkNewTarget {
  nt_config : Config;
  nt_worktreeName : string;
  nt_worktreePath : string;
  nt_branchName : string
}.

(** [execute], up to the test of [options.dryRun]. *)
Definition newResolve (name : string) (options : NewCommandOptions)
  : Prog NewTarget :=
  config <- initialize (new_cli options) ;;
  worktreeName <- prefixedName config name ;;
  let worktreePath := resolveWorktreePath P cwd (worktreeDir config) worktreeName in
  there <- worktreeExists P cwd worktreePath ;;
  if there : bool then
    Throw (MkError PlainError ("Worktree already exists at: " ++ worktreePath) None)
  else
    let branchName := if truthy (new_branch options)
                      then stringOr (new_branch options) else worktreeName in
    taken <- branchExists cwd branchName ;;
    if taken : bool then
      Throw (MkError PlainError ("Branch '" ++ branchName ++ "' already exists") None)
    else Ret (mkNewTarget config worktreeName worktreePath branchName).

(** The branch [if (options.dryRun)]. *)
Definition newPlan (t : NewTarget) : Prog unit :=
  log Info "Dry run mode - would create:" ;;;
  log Info ("  Worktree: " ++ nt_worktreePath t) ;;;
  log Info ("  Branch: " ++ nt_branchName t) ;;;
  listPostCommands (nt_config t).

(** The rest of [execute]. *)
Definition newCreate (options : NewCommandOptions) (t : NewTarget) : Prog unit :=
  tryCatch
    (log StartSpinner ("Creating worktree '" ++ nt_worktreeName t ++ "'...") ;;;
     createWorktree cwd (nt_worktreePath t) (nt_branchName t)
       (mkCreateOptions (Some true) (Some false) (Some true)) ;;;
     log SucceedSpinner
       ("Worktree '" ++ nt_worktreeName t ++ "' created successfully") ;;;
     (match postCommands (nt_config t) with
      | [] => Ret tt
      | _ => executePostCommands (nt_config t) (nt_worktreePath t)
      end) ;;;
     (if negb (new_noPush options) then
        tryCatch
          (log StartSpinner
             ("Pushing branch '" ++ nt_branchName t ++ "' to origin...") ;;;
           _ <- ExecUtils.runOrThrow "git"
                  ["push"; "-u"; "origin"; nt_branchName t]
                  (Some (nt_worktreePath t)) ;;
           log SucceedSpinner
             ("Branch '" ++ nt_branchName t ++ "' pushed to origin"))
          (fun error =>
             log FailSpinner ("Failed to push branch: " ++ messageOf error) ;;;
             log Warn "You may need to push the branch manually later")
      else Ret tt) ;;;
     log Success ("Worktree '" ++ nt_worktreeName t ++ "' is ready at: "
                  ++ nt_worktreePath t))
    (fun error => log FailSpinner "" ;;; Throw error).

(** [NewCommand.execute] *)
Definition newExecute (name : string) (options : NewCommandOptions) : Prog unit :=
  t <- newResolve name options ;;
  if opt_dryRun (new_cli options) then newPlan t else newCreate options t.

(** ** commands/remove.ts *)

Record RemoveTarget : Type := mkRemoveTarget {
  rt_worktreePath : option string;
  rt_branchName : option string
}.

(** The name of a listed worktree, [wt.path.split('/').pop() || wt.path]. *)
Definition lastSegment (wt : GitWorktree) : string :=
  let p := showOpt (wt_path wt) in
  match List.rev (Str.split "/" p) with
  | EmptyString :: _ | [] => p
  | seg :: _ => seg
  end.

Definition isSideWorktree (wt : GitWorktree) : bool :=
  negb (nullish (wt_bare wt) false)
  && negb (match wt_branch wt with Some b => String.eqb b "main" | None => false end)
  && negb (match wt_branch wt with Some b => String.eqb b "master" | None => false end).

(** [execute], up to the test of [options.dryRun]. *)
Definition removeResolve (name : string) (options : RemoveCommandOptions)
  : Prog RemoveTarget :=
  config <- initialize (rm_cli options) ;;
  worktreeName <- prefixedName config name ;;
  found <- findWorktreeByName cwd worktreeName ;;
  found <- match found with
           | Some wt => Ret (Some wt)
           | None => findWorktreeByName cwd name
           end ;;
  match found with
  | None =>
      worktrees <- listWorktrees cwd ;;
      let nonMainWorktrees := List.filter isSideWorktree worktrees in
      match nonMainWorktrees with
      | [] => log Error ("Worktree '" ++ name
                         ++ "' not found and no other worktrees available.")
      | _ =>
          log Error ("Worktree '" ++ name ++ "' not found. Available worktrees:") ;;;
          forEach nonMainWorktrees
            (fun wt => log Info ("  - " ++ lastSegment wt ++ " ("
                                 ++ showOpt (wt_branch wt) ++ ")"))
      end ;;;
      Throw (MkError PlainError ("Worktree '" ++ name ++ "' not found") None)
  | Some worktree =>
      log Info ("Found worktree: " ++ showOpt (wt_path worktree)) ;;;
      log Info ("Branch: " ++ showOpt (wt_branch worktree)) ;;;
      Ret (mkRemoveTarget (wt_path worktree) (wt_branch worktree))
  end.

(** The branch [if (options.dryRun)]. *)
Definition removePlan (t : RemoveTarget) : Prog unit :=
  log Info "Dry run mode - would remove:" ;;;
  log Info ("  Worktree: " ++ showOpt (rt_worktreePath t)) ;;;
  log Info ("  Branch: " ++ showOpt (rt_branchName t)).

(** The deletion of the branch, local then remote. *)
Definition deleteBranch (branchName : string) : Prog unit :=
  tryCatch
    (log StartSpinner ("Deleting branch '" ++ branchName ++ "'...") ;;;
     _ <- ExecUtils.runOrThrow "git" ["branch"; "-D"; branchName] (Some cwd) ;;
     tryCatch
       (_ <- ExecUtils.runOrThrow "git" ["push"; "origin"; "--delete"; branchName]
               (Some cwd) ;;
        log SucceedSpinner
          ("Branch '" ++ branchName ++ "' deleted locally and remotely"))
       (fun _ =>
          log SucceedSpinner
            ("Branch '" ++ branchName
             ++ "' deleted locally (remote deletion failed)") ;;;
          log Warn "You may need to delete the remote branch manually"))
    (fun error =>
       log FailSpinner ("Failed to delete branch: " ++ messageOf error)).

(** The rest of [execute]. *)
Definition removeApply (name : string) (options : RemoveCommandOptions)
           (t : RemoveTarget) : Prog unit :=
  confirmed <-
    (if negb (rm_force options) then
       perform (Confirm ("Are you sure you want to remove worktree '" ++ name
                         ++ "' and branch '" ++ showOpt (rt_branchName t) ++ "'?"))
     else Ret true) ;;
  if negb confirmed then log Info "Operation cancelled"
  else
    tryCatch
      (log StartSpinner ("Removing worktree '" ++ name ++ "'...") ;;;
       removeWorktree cwd (showOpt (rt_worktreePath t)) (rm_force options) ;;;
       log SucceedSpinner ("Worktree '" ++ name ++ "' removed successfully") ;;;
       (if negb (rm_force options) && truthy (rt_branchName t) then
          wanted <- perform (Confirm ("Do you also want to delete the branch '"
                                      ++ showOpt (rt_branchName t) ++ "'?")) ;;
          if wanted : bool then deleteBranch (showOpt (rt_branchName t))
          else Ret tt
        else Ret tt) ;;;
       log Success ("Cleanup completed for '" ++ name ++ "'"))
      (fun error => log FailSpinner "" ;;; Throw error).

(** [RemoveCommand.execute] *)
Definition removeExecute (name : string) (options : RemoveCommandOptions)
  : Prog unit :=
  t <- removeResolve name options ;;
  if opt_dryRun (rm_cli options) then removePlan t else removeApply name options t.

(** ** commands/mr.ts *)

Record MRTarget : Type := mkMRTarget {
  mt_config : Config;
  mt_iid : Z;
  mt_mr : json;
  mt_worktreeName : string;
  mt_worktreePath : string
}.

(** [${mr.key}] *)
Definition showField (mr : json) (key : string) : Prog string :=
  v <- getProp mr key ;; Ret (showProp v).

(** [execute], up to the test of [options.dryRun]; [None] when the
    worktree is there and [--checkout] was given, where [execute]
    returns at once. *)
Definition mrResolve (mrNumber : string) (options : MRCommandOptions)
  : Prog (option MRTarget) :=
  config <- initialize (mr_cli options) ;;
  match parseInt10 mrNumber with
  | None => Throw (MkError PlainError
                     ("Invalid merge request number: " ++ mrNumber) None)
  | Some iid =>
      if (iid <=? 0)%Z then
        Throw (MkError PlainError
                 ("Invalid merge request number: " ++ mrNumber) None)
      else
        project <- isProject cwd gitlab ;;
        if negb project then
          Throw (MkError PlainError
                   "Not in a GitLab project or glab CLI not available" None)
        else
          log StartSpinner ("Checking merge request " ++ Str.ofZ iid ++ "...") ;;;
          mr <- tryCatch
                  (mr <- getRequest P cwd gitlab iid ;;
                   title <- showField mr "title" ;;
                   log SucceedSpinner
                     ("Found MR " ++ Str.ofZ iid ++ ": " ++ title) ;;;
                   Ret mr)
                  (fun error =>
                     log FailSpinner
                       ("Merge request " ++ Str.ofZ iid ++ " not found") ;;;
                     Throw error) ;;
          baseName <- generateWorktreeName P cwd gitlab iid ;;
          worktreeName <- prefixedName config baseName ;;
          let worktreePath :=
            resolveWorktreePath P cwd (worktreeDir config) worktreeName in
          there <- worktreeExists P cwd worktreePath ;;
          if there : bool then
            if mr_checkout options then
              log Info ("Worktree already exists at: " ++ worktreePath) ;;;
              log Info "Switching to existing worktree..." ;;;
              Ret None
            else
              Throw (MkError PlainError
                       ("Worktree already exists at: " ++ worktreePath) None)
          else Ret (Some (mkMRTarget config iid mr worktreeName worktreePath))
  end.

(** The branch [if (options.dryRun)]. *)
Definition mrPlan (t : MRTarget) : Prog unit :=
  log Info "Dry run mode - would create:" ;;;
  log Info ("  Worktree: " ++ mt_worktreePath t) ;;;
  branch <- showField (mt_mr t) "source_branch" ;;
  log Info ("  Branch: " ++ branch) ;;;
  title <- showField (mt_mr t) "title" ;;
  log Info ("  MR: " ++ title) ;;;
  listPostCommands (mt_config t).

(** The rest of [execute]. *)
Definition mrCreate (t : MRTarget) : Prog unit :=
  tryCatch
    (branch <- showField (mt_mr t) "source_branch" ;;
     log StartSpinner ("Fetching branch '" ++ branch ++ "'...") ;;;
     fetchRequestBranch P cwd gitlab (mt_iid t) "origin" ;;;
     log SucceedSpinner ("Branch '" ++ branch ++ "' fetched") ;;;
     log StartSpinner ("Creating worktree '" ++ mt_worktreeName t ++ "'...") ;;;
     createWorktree cwd (mt_worktreePath t) branch
       (mkCreateOptions (Some false) (Some false) (Some true)) ;;;
     log SucceedSpinner
       ("Worktree '" ++ mt_worktreeName t ++ "' created successfully") ;;;
     (match postCommands (mt_config t) with
      | [] => Ret tt
      | _ => executePostCommands (mt_config t) (mt_worktreePath t)
      end) ;;;
     log Success ("Worktree for MR " ++ Str.ofZ (mt_iid t) ++ " is ready at: "
                  ++ mt_worktreePath t) ;;;
     title <- showField (mt_mr t) "title" ;;
     log Info ("MR: " ++ title) ;;;
     log Info ("Branch: " ++ branch) ;;;
     url <- showField (mt_mr t) "web_url" ;;
     log Info ("URL: " ++ url))
    (fun error => log FailSpinner "" ;;; Throw error).

(** [MRCommand.execute] *)
Definition mrExecute (mrNumber : string) (options : MRCommandOptions) : Prog unit :=
  target <- mrResolve mrNumber options ;;
  match target with
  | None => Ret tt
  | Some t => if opt_dryRun (mr_cli options) then mrPlan t else mrCreate t
  end.

End Commands.

(* ================================================================== *)
(** * A POSIX platform and scripted hosts *)
(* ================================================================== *)

(** The path functions of Node on a POSIX system. *)
Module Posix.

Definition isAbsolute (p : string) : bool := Str.startsWith "/" p.

(** [normalizeString]: the segments that remain once [.], [..] and the
    empty segments are resolved; [acc] holds them in reverse. *)
Fixpoint normalizeSegments (allowAboveRoot : bool) (segs acc : list string)
  : list string :=
  match segs with
  | [] => List.rev acc
  | seg :: rest =>
      if String.eqb seg "" || String.eqb seg "." then
        normalizeSegments allowAboveRoot rest acc
      else if String.eqb seg ".." then
        match acc with
        | top :: acc' =>
            if String.eqb top ".."
            then normalizeSegments allowAboveRoot rest (".." :: acc)
            else normalizeSegments allowAboveRoot rest acc'
        | [] =>
            if allowAboveRoot
            then normalizeSegments allowAboveRoot rest [".."]
            else normalizeSegments allowAboveRoot rest []
        end
      else normalizeSegments allowAboveRoot rest (seg :: acc)
  end.

Definition normalizeString (p : string) (allowAboveRoot : bool) : string :=
  Str.join "/" (normalizeSegments allowAboveRoot (Str.split "/" p) []).

Definition normalize (p : string) : string :=
  if String.eqb p "" then "."
  else
    let absolute := isAbsolute p in
    let trailing := Str.endsWith "/" p in
    let body := normalizeString p (negb absolute) in
    if String.eqb body "" then
      if absolute then "/" else if trailing then "./" else "."
    else
      let body := if trailing then body ++ "/" else body in
      if absolute then "/" ++ body else body.

Definition join (a b : string) : string :=
  match a, b with
  | EmptyString, EmptyString => "."
  | EmptyString, _ => normalize b
  | _, EmptyString => normalize a
  | _, _ => normalize (a ++ "/" ++ b)
  end.

(** [resolve(...paths)] from the right, down to the working directory. *)
Fixpoint resolveFrom (cwd : string) (paths : list string) (resolved : string)
  : string * bool :=
  match paths with
  | [] => if String.eqb cwd "" then (resolved, false)
          else (cwd ++ "/" ++ resolved, isAbsolute cwd)
  | p :: rest =>
      if String.eqb p "" then resolveFrom cwd rest resolved
      else if isAbsolute p then (p ++ "/" ++ resolved, true)
      else resolveFrom cwd rest (p ++ "/" ++ resolved)
  end.

Definition resolveAll (cwd : string) (paths : list string) : string :=
  let (resolved, absolute) := resolveFrom cwd (List.rev paths) "" in
  let body := normalizeString resolved (negb absolute) in
  if absolute then "/" ++ body
  else if String.eqb body "" then "." else body.

(** [dirname]: up to the last separator, trailing separators aside. *)
Fixpoint dropTrailingSlashes (r : string) : string :=
  match r with
  | String "/" r' => dropTrailingSlashes r'
  | _ => r
  end.

Fixpoint afterSlash (r : string) : option string :=
  match r with
  | EmptyString => None
  | String "/" r' => Some r'
  | String _ r' => afterSlash r'
  end.

Definition dirname (p : string) : string :=
  match afterSlash (dropTrailingSlashes (Str.rev p)) with
  | Some r =>
      match dropTrailingSlashes r with
      | EmptyString => "/"
      | r' => Str.rev r'
      end
  | None => if isAbsolute p then "/" else "."
  end.

(** The platform of a process started in [cwd] by a user whose home
    directory is [home]; [parse] stands for [JSON.parse]. *)
Definition platform (home cwd : string) (parse : string -> option json)
  : Platform :=
  {| path_join := join;
     path_resolve := fun p => resolveAll cwd [p];
     path_resolve2 := fun a b => resolveAll cwd [a; b];
     path_isAbsolute := isAbsolute;
     path_dirname := dirname;
     os_homedir := home;
     process_cwd := cwd;
     JSON_parse := parse |}.

End Posix.

(** A host without memory: each kind of operation is answered by a
    function of its arguments; the file system accepts every write and
    the user declines every prompt. *)
Definition scriptedHost
           (execa : string -> list string -> ExecaOutcome)
           (existsSync : string -> bool)
           (rmSync : string -> option JsError)
           (load : string -> LoadOutcome) : Host :=
  fun X _ op =>
    match op in Op X return X with
    | Execa command args _ => execa command args
    | ExistsSync path => existsSync path
    | RmSync path => rmSync path
    | MkdirSync _ => None
    | WriteFileSync _ _ => None
    | CosmiconfigLoad path => load path
    | Confirm _ => false
    | SetVerbose _ => tt
    | Log _ _ => tt
    end.

(** Every external command fails: [which] finds nothing, git and the
    hosting CLIs report an error. *)
Definition failingExeca (command : string) (args : list string) : ExecaOutcome :=
  if String.eqb command "which"
  then Rejected (Some "") (Some "") (Some 1%Z)
  else Rejected (Some "") (Some "fatal: not a git repository") (Some 128%Z).

(** The operations of a run, without the answers. *)
Definition performed (ev : Event) : {X : Type & Op X} :=
  match ev with
  | Ev op _ => existT _ _ op
  end.

(** ** A repository for the examples *)

Module Sample.

Definition nl : string := String "010" "".
Definition tab : string := String "009" "".
Definition quote : string := String (ascii_of_nat 34) "".

(** What [glab mr view 7 --output json] prints, and its value. *)
Definition mrText : string :=
  "{" ++ quote ++ "title" ++ quote ++ ":" ++ quote ++ "Fix login" ++ quote
  ++ "," ++ quote ++ "source_branch" ++ quote ++ ":" ++ quote
  ++ "feature/ABC-123_fix!!" ++ quote ++ "}".

Definition mr : json :=
  JObj [("title", JStr "Fix login");
        ("source_branch", JStr "feature/ABC-123_fix!!")].

(** [JSON.parse] on the texts of the examples. *)
Definition parse (text : string) : option json :=
  if String.eqb text mrText then Some mr else None.

Definition platform : Platform := Posix.platform "/home/user" "/repo" parse.

(** What [git worktree list --porcelain] prints: the main worktree and
    a detached one. *)
Definition listing : string :=
  "worktree /repo" ++ nl ++ "HEAD 1111111" ++ nl ++ "branch refs/heads/main" ++ nl
  ++ nl
  ++ "worktree /worktrees/review" ++ nl ++ "HEAD 2222222" ++ nl ++ "detached" ++ nl.

Definition ok (out : string) : ExecaOutcome :=
  Resolved (Some out) (Some "") (Some 0%Z).

Definition exited (code : Z) (err : string) : ExecaOutcome :=
  Rejected (Some "") (Some err) (Some code).

(** The answers of git and of glab in the repository: the queries
    succeed, no branch is known to [show-ref]. *)
Definition execa (command : string) (args : list string) : ExecaOutcome :=
  if String.eqb command "which" then ok "/usr/bin/glab"
  else if String.eqb command "glab" then
    match args with
    | "mr" :: _ => ok mrText
    | _ => ok ""
    end
  else
    match args with
    | "rev-parse" :: _ => ok ".git"
    | "remote" :: _ =>
        ok ("origin" ++ tab ++ "git@github.com:user/repo.git (fetch)" ++ nl
            ++ "origin" ++ tab ++ "git@github.com:user/repo.git (push)")
    | "worktree" :: "list" :: _ => ok listing
    | "show-ref" :: _ => exited 1 ""
    | _ => ok ""
    end.


(** No configuration file. *)
Definition host : Host :=
  scriptedHost execa (fun _ => false) (fun _ => None) (fun _ => LoadNull).

(** A local configuration file of the wrong shape. *)
Definition badConfig : json := JObj [("prefixType", JNum 42)].

Definition hostBadLocal : Host :=
  scriptedHost execa (fun path => String.eqb path "/repo/.kwt") (fun _ => None)
    (fun path => if String.eqb path "/repo/.kwt" then Loaded (Some badConfig)
                 else LoadNull).

(** A global configuration file with a manual prefix, no local file. *)
Definition globalConfigJson : json :=
  JObj [("prefixType", JStr "manual"); ("manualPrefix", JStr "g-")].

Definition hostGlobal : Host :=
  scriptedHost execa (fun path => String.eqb path "/home/user/.kwt")
    (fun _ => None)
    (fun path => if String.eqb path "/home/user/.kwt"
                 then Loaded (Some globalConfigJson) else LoadNull).

(** The global configuration, the manager once it has loaded it, the
    manager once a configuration that gives nothing has been saved, and
    the merged configuration it then holds. *)
Definition globalConfig : Config :=
  mkConfig PrefixManual (Some "g-") default_worktreeDir [].

Definition managerLoaded : ConfigManager :=
  mkConfigManager "/repo" None (Some globalConfig) (Some globalConfig).

Definition mergedAfterSave : Config :=
  mkConfig PrefixNone (Some "g-") default_worktreeDir [].

Definition managerSaved : ConfigManager :=
  mkConfigManager "/repo" (Some defaultConfig) (Some globalConfig)
    (Some mergedAfterSave).


(** Nothing works: every command is rejected. *)
Definition hostBroken : Host :=
  scriptedHost failingExeca (fun _ => false) (fun _ => None) (fun _ => LoadNull).

End Sample.

(** The options of a dry run. *)
Definition dryRun : CLIOptions := mkCLIOptions None false true.
(** ** The sample repository with a merge request on the branch [!] *)

Module Fallback.

(** What [glab mr view 42 --output json] prints, and its value. *)
Definition mrText : string :=
  "{" ++ Sample.quote ++ "source_branch" ++ Sample.quote ++ ":"
  ++ Sample.quote ++ "!" ++ Sample.quote ++ "}".

Definition mr : json := JObj [("source_branch", JStr "!")].

Definition parse (text : string) : option json :=
  if String.eqb text mrText then Some mr else None.

Definition platform : Platform := Posix.platform "/home/user" "/repo" parse.

Definition execa (command : string) (args : list string) : ExecaOutcome :=
  if String.eqb command "glab" then
    match args with
    | "mr" :: _ => Sample.ok mrText
    | _ => Sample.ok ""
    end
  else Sample.execa command args.

Definition host : Host :=
  scriptedHost execa (fun _ => false) (fun _ => None) (fun _ => LoadNull).

End Fallback.

(* ================================================================== *)
(** * Auxiliary notions for the proofs *)
(* ================================================================== *)

Module RegexAux.
Import Regex.

(** A continuation that refuses to start on a character of the class. *)
Definition rejects (p : ascii -> bool) (k : cont) : Prop :=
  forall j c s cs, p c = true -> k j (String c s) cs = None.

(** The input stops, or goes on with a character outside the class. *)
Definition stopsAt (p : ascii -> bool) (t : string) : Prop :=
  match t with
  | EmptyString => True
  | String c _ => p c = false
  end.

(** The length of the longest prefix in the class. *)
Fixpoint span (p : ascii -> bool) (s : string) : nat :=
  match s with
  | EmptyString => 0
  | String c s' => if p c then S (span p s') else 0
  end.

(** What a pattern tail accepts: the whole of the remaining input, when
    it is one of a few strings. *)
Definition tailOf (tail : regex) (accept : string -> bool) : Prop :=
  forall j s cs,
    run tail j s cs (fun j _ cs => Some (j, cs))
    = if accept s then Some (j + String.length s, cs) else None.

Definition acceptSsh (s : string) : bool :=
  String.eqb s ".git" || String.eqb s "".

Definition acceptSlash (s : string) : bool :=
  String.eqb s "/" || String.eqb s "".

Definition acceptHttp (s : string) : bool :=
  String.eqb s ".git/" || String.eqb s ".git" || acceptSlash s.

Definition allDashes (s : string) : bool := Str.forallb (only "-") s.

Ltac string_inv H u :=
  repeat (destruct u as [|? u]; cbn [String.append] in H;
          try discriminate H;
          try (injection H as ? H; subst)).

End RegexAux.

Module ProgAux.

Section Only.
Variable allowed : forall X, Op X -> bool.

(** A program that performs allowed operations only, whatever the
    answers. *)
Inductive only {A} : Prog A -> Prop :=
| only_Ret a : only (Ret a)
| only_Throw e : only (Throw e)
| only_Do X (op : Op X) k :
    allowed op = true -> (forall x, only (k x)) -> only (Do op k).

Definition allowedEvent (ev : Event) : Prop :=
  match ev with Ev op _ => allowed op = true end.
End Only.

(** What a program can return. *)
Definition ensures {A} (Q : A -> Prop) (p : Prog A) : Prop :=
  forall host past a evs, interp host past p = (Ok a, evs) -> Q a.

End ProgAux.


Module PorcelainAux.
Import Porcelain PorcelainSpec.

(** The record of the block being read: the fields of [current], each
    overridden by what the lines [body] say. *)
Definition fill (current : GitWorktree) (body : list string) : GitWorktree :=
  {| wt_path := wt_path current;
     wt_branch := layeredOpt (wt_branch current) (lastWithPrefix "branch " body);
     wt_commit := layeredOpt (wt_commit current) (lastWithPrefix "HEAD " body);
     wt_bare := layeredOpt (wt_bare current) (flag "bare" body);
     wt_detached := layeredOpt (wt_detached current) (flag "detached" body) |}.

Definition count (lines : list string) : nat :=
  List.length (List.filter isMarker lines).

(** A block whose marker line carries a path. *)
Definition carriesPath (b : block) : bool :=
  truthy (Some (Str.drop 9 (fst b))).

End PorcelainAux.

Module ConfigAux.

(** What a configuration file contributes: its validated content when
    the file is there, can be loaded and has the shape of the schema;
    nothing otherwise. *)
Definition fileConfig (there : bool) (loaded : LoadOutcome) : option Config :=
  if there then
    match loaded with
    | Loaded (Some v) => ConfigSchema v
    | _ => None
    end
  else None.

(** Reading the file at [path] after the events [past]: the
    contribution of the file and the operations performed. *)
Definition readConfig (host : Host) (past : list Event) (path : string)
  : option Config * list Event :=
  let there := host _ past (ExistsSync path) in
  let past1 := (past ++ [Ev (ExistsSync path) there])%list in
  let loaded := host _ past1 (CosmiconfigLoad path) in
  (fileConfig there loaded,
   Ev (ExistsSync path) there
   :: (if there then [Ev (CosmiconfigLoad path) loaded] else [])).

(** A configuration of which nothing is given. *)
Definition nothing : PartialConfig := mkPartialConfig None None None None.

End ConfigAux.

(** ** What a dry run may and may not do *)

Module DryRun.

Fixpoint sameArgs (a b : list string) : bool :=
  match a, b with
  | [], [] => true
  | x :: a', y :: b' => String.eqb x y && sameArgs a' b'
  | _, _ => false
  end.

(** The queries of git the tool issues. *)
Definition gitQuery (args : list string) : bool :=
  sameArgs args ["rev-parse"; "--git-dir"]
  || sameArgs args ["remote"; "-v"]
  || sameArgs args ["worktree"; "list"; "--porcelain"]
  || match args with
     | [a; b; c; _] => sameArgs [a; b; c] ["show-ref"; "--verify"; "--quiet"]
     | _ => false
     end.

(** The queries of the hosting CLIs the tool issues. *)
Definition hostingQuery (args : list string) : bool :=
  sameArgs args ["repo"; "view"]
  || match args with
     | a :: b :: _ => (String.eqb a "mr" || String.eqb a "pr") && String.eqb b "view"
     | _ => false
     end.

(** What [executePostCommands] and [executePostCommand] print before
    they run anything. *)
Definition postCommandNotice (message : string) : bool :=
  String.eqb message "Executing post-creation commands..."
  || Str.startsWith "Running: " message.

(** The operations that read and print: the queries above, the
    look-up of a binary, the reading of the configuration files, the
    logger but for the notices of the post-creation commands. Every
    other external command, and with it every post-creation command,
    every change of the file system and every prompt is left out. *)
Definition readOnly (X : Type) (op : Op X) : bool :=
  match op with
  | Execa command args _ =>
      String.eqb command "which"
      || (String.eqb command "git" && gitQuery args)
      || ((String.eqb command "glab" || String.eqb command "gh")
          && hostingQuery args)
  | ExistsSync _ => true
  | CosmiconfigLoad _ => true
  | SetVerbose _ => true
  | Log _ message => negb (postCommandNotice message)
  | RmSync _ => false
  | MkdirSync _ => false
  | WriteFileSync _ _ => false
  | Confirm _ => false
  end.

(** The git commands that create or remove a worktree, or create,
    fetch, push or delete a branch. *)
Definition changesRepository (args : list string) : bool :=
  match args with
  | [] => false
  | a :: rest =>
      String.eqb a "fetch" || String.eqb a "push" || String.eqb a "branch"
      || (String.eqb a "worktree"
          && match rest with
             | b :: _ => String.eqb b "add" || String.eqb b "remove"
                         || String.eqb b "prune"
             | [] => false
             end)
  end.

(** An event that changes something: the repository, through git, or
    the file system. *)
Definition mutation (ev : Event) : bool :=
  match ev with
  | Ev op _ =>
      match op with
      | Execa command args _ => String.eqb command "git" && changesRepository args
      | RmSync _ => true
      | MkdirSync _ => true
      | WriteFileSync _ _ => true
      | _ => false
      end
  end.

Definition info (message : string) : {X : Type & Op X} :=
  existT _ _ (Log Info message).

(** What the dry runs print. *)
Definition postCommandLines (config : Config) : list {X : Type & Op X} :=
  match postCommands config with
  | [] => []
  | cmds => info "  Post-creation commands:"
            :: List.map (fun cmd => info ("    - " ++ label cmd)) cmds
  end.

Definition newPlanLines (worktreePath branchName : string) (config : Config)
  : list {X : Type & Op X} :=
  (info "Dry run mode - would create:"
   :: info ("  Worktree: " ++ worktreePath)
   :: info ("  Branch: " ++ branchName)
   :: postCommandLines config).

Definition removePlanLines (worktreePath branchName : option string)
  : list {X : Type & Op X} :=
  [info "Dry run mode - would remove:";
   info ("  Worktree: " ++ showOpt worktreePath);
   info ("  Branch: " ++ showOpt branchName)].

Definition mrPlanLines (worktreePath : string) (mr : json) (config : Config)
  : list {X : Type & Op X} :=
  (info "Dry run mode - would create:"
   :: info ("  Worktree: " ++ worktreePath)
   :: info ("  Branch: " ++ showProp (getField "source_branch" mr))
   :: info ("  MR: " ++ showProp (getField "title" mr))
   :: postCommandLines config).

End DryRun.

Module DryRunAux.

(** A program that prints the given lines and returns, whatever the
    host. *)
Definition prints (p : Prog unit) (lines : list {X : Type & Op X}) : Prop :=
  forall host past,
    exists events,
      interp host past p = (Ok tt, events)
      /\ List.map performed events = lines.

(** The target of the [mr] command holds a change request that is not
    [null]. *)
Definition sound (target : option MRTarget) : Prop :=
  match target with
  | Some t => mt_mr t <> JNull
  | None => True
  end.

(** No event outside the read-only operations, none that changes the
    repository or the file system. *)
Definition harmless (ev : Event) : Prop :=
  ProgAux.allowedEvent DryRun.readOnly ev /\ DryRun.mutation ev = false.

End DryRunAux.
(* ================================================================== *)
(** * Shapes of names, listings and remotes *)
(* ================================================================== *)

(** ** Names that need no repair *)

Module NameShape.
Import NameSpec.

Fixpoint endsWithDash (s : string) : bool :=
  match s with
  | EmptyString => false
  | String c EmptyString => isDash c
  | String _ s' => endsWithDash s'
  end.

Fixpoint noDoubleDash (s : string) : bool :=
  match s with
  | EmptyString => true
  | String c s' => negb (isDash c && startsWithDash s') && noDoubleDash s'
  end.

(** A name made of the characters of [[A-Za-z0-9_-]], without a dash at
    either end and without two dashes in a row. *)
Definition clean (s : string) : bool :=
  Str.forallb isNameChar s
  && negb (startsWithDash s) && negb (endsWithDash s) && noDoubleDash s.

End NameShape.

(** ** Lines of the porcelain listing *)

Module ListingShape.
Import PorcelainSpec.

(** The five kinds of line the loop of [listWorktrees] tests for. *)
Definition recognised (line : string) : bool :=
  isMarker line
  || Str.startsWith "HEAD " line
  || Str.startsWith "branch " line
  || String.eqb line "bare"
  || String.eqb line "detached".

(** A line that names a branch names it as git does, by its full ref. *)
Definition branchAsRef (line : string) : bool :=
  implb (Str.startsWith "branch " line) (Str.startsWith "branch refs/" line).

(** A record with a path, as [GitWorktree] declares it. *)
Definition hasPath (wt : GitWorktree) : bool := truthy (wt_path wt).

(** [!wt.bare] *)
Definition notBare (wt : GitWorktree) : bool := negb (nullish (wt_bare wt) false).

End ListingShape.

(** ** Lines of [git remote -v] *)

Module RemoteShape.
Import Regex.

Definition nl : string := String "010" "".

Definition noNewline (c : ascii) : bool := negb (Ascii.eqb c "010").

(** [name<TAB>url (type)], the line git prints for a remote. *)
Definition remoteLine (r : GitRemote) : string :=
  remote_name r ++ String "009" (remote_url r ++ " (" ++ remote_type r ++ ")").

(** A non-empty string of characters of the class. *)
Definition token (p : ascii -> bool) (s : string) : bool :=
  negb (String.eqb s "") && Str.forallb p s.

(** The name and the URL hold no white space, the type is a word. *)
Definition wellFormed (r : GitRemote) : bool :=
  token nonSpace (remote_name r)
  && token nonSpace (remote_url r)
  && token word (remote_type r).

(** What git prints for a list of remotes, one line each. *)
Definition listing (remotes : list GitRemote) : string :=
  Str.join nl (List.map remoteLine remotes).

(** [remotes.find(remote => remote.name === 'origin' && remote.type === 'fetch')] *)
Definition isOriginFetch (remote : GitRemote) : bool :=
  String.eqb (remote_name remote) "origin" && String.eqb (remote_type remote) "fetch".

End RemoteShape.
(** ** The run of a request to the hosting CLI *)

Module HostingAux.

Section Request.
Variable P : Platform.
Variable host : Host.
Variable past : list Event.
Variable cwd : string.
Variable provider : Provider.
Variable number : Z.

(** The look-up of the binary and the event it leaves. *)
Definition lookup : Op ExecaOutcome := Execa "which" [cli provider] None.
Definition lookedUp : list Event := [Ev lookup (@host _ past lookup)].

(** The view command, run after the look-up. *)
Definition view : Op ExecaOutcome :=
  Execa (cli provider) (viewArgs provider (Str.ofZ number)) (Some cwd).
Definition viewed : ExecaOutcome := @host _ (past ++ lookedUp)%list view.

Definition requestFailure (cause : JsError) : JsError :=
  wrapError (providerError provider)
    ("Failed to get " ++ requestNoun provider ++ " " ++ Str.ofZ number ++ ": ")
    cause.

(** What [getMergeRequest] and [getPullRequest] make of the answer of
    the view command. *)
Definition requestOf (answer : ExecaOutcome) : Result json :=
  let result := ExecUtils.resultOf answer in
  if negb (Z.eqb (exitCode result) 0) then
    Err (requestFailure
           (ExecUtils.commandFailed (cli provider)
              (viewArgs provider (Str.ofZ number)) result))
  else
    match JSON_parse P (stdout result) with
    | Some data => Ok data
    | None => Err (requestFailure (MkError TypeError "Unexpected token in JSON" None))
    end.

End Request.

End HostingAux.
(** ** A file system that keeps what is written *)

Module Disk.

(** What a successful [writeFileSync] of the event writes at [path]. *)
Definition written (path : string) (ev : Event) : option FileContent :=
  match ev with
  | Ev op answer =>
      match op in Op X return X -> option FileContent with
      | WriteFileSync p content =>
          fun failure =>
            match failure with
            | None => if String.eqb p path then Some content else None
            | Some _ => None
            end
      | _ => fun _ => None
      end answer
  end.

(** The content of the file at [path] after the events [past], when one
    of them wrote it: the last write wins. *)
Fixpoint lastWritten (path : string) (past : list Event) : option FileContent :=
  match past with
  | [] => None
  | ev :: rest =>
      match lastWritten path rest with
      | Some content => Some content
      | None => written path ev
      end
  end.

(** The host gives back at [path] what was written there: the file is
    found, and the loader yields the value whose text was written. *)
Definition faithful (host : Host) (path : string) : Prop :=
  forall past v,
    lastWritten path past = Some (JsonText v) ->
    host bool past (ExistsSync path) = true
    /\ host LoadOutcome past (CosmiconfigLoad path) = Loaded (Some v).

(** A host that starts from an empty file system and keeps every file
    written; the external commands are answered by [execa], the user
    declines every prompt. *)
Definition diskHost (execa : string -> list string -> ExecaOutcome) : Host :=
  fun X past op =>
    match op in Op X return X with
    | Execa command args _ => execa command args
    | ExistsSync path =>
        match lastWritten path past with
        | Some _ => true
        | None => false
        end
    | RmSync _ => None
    | MkdirSync _ => None
    | WriteFileSync _ _ => None
    | CosmiconfigLoad path =>
        match lastWritten path past with
        | Some (JsonText v) => Loaded (Some v)
        | None => LoadNull
        end
    | Confirm _ => false
    | SetVerbose _ => tt
    | Log _ _ => tt
    end.

(** An event that writes a file. *)
Definition isWrite (ev : Event) : bool :=
  match ev with
  | Ev op _ =>
      match op with
      | WriteFileSync _ _ => true
      | _ => false
      end
  end.

End Disk.
(** ** Notions for the properties of the commands *)

Module CommandAux.

(** The error of [initialize] outside a repository. *)
Definition notRepo : JsError := MkError PlainError "Not in a git repository" None.

(** The query by which [initialize] tells whether it is in a repository. *)
Definition revParse (cwd : string) : Op ExecaOutcome :=
  Execa "git" ["rev-parse"; "--git-dir"] (Some cwd).

(** An external command. *)
Definition isCommand (ev : Event) : bool :=
  match ev with
  | Ev op _ =>
      match op with
      | Execa _ _ _ => true
      | _ => false
      end
  end.

(** The operations of the post-creation commands: external commands
    run in the worktree, and the logger. *)
Definition inWorktree (worktreePath : string) (X : Type) (op : Op X) : bool :=
  match op with
  | Execa _ _ (Some dir) => String.eqb dir worktreePath
  | Execa _ _ None => false
  | Log _ _ => true
  | _ => false
  end.

(** [git branch ...] and [git push ...] *)
Definition touchesBranch (args : list string) : bool :=
  match args with
  | a :: _ => String.eqb a "branch" || String.eqb a "push"
  | [] => false
  end.

(** Every operation but a prompt and a git command on a branch. *)
Definition unprompted (X : Type) (op : Op X) : bool :=
  match op with
  | Confirm _ => false
  | Execa command args _ => negb (String.eqb command "git" && touchesBranch args)
  | _ => true
  end.

(** A command line made of white space only. *)
Definition blank (command : string) : bool := Str.forallb Str.isSpace command.

(** The body of the loop of [executePostCommand], under its name. *)
Definition runCommand (label worktreePath command : string) : Prog unit :=
  tryCatch
    (let parts := splitSpaces (Str.trim command) in
     match parts with
     | [] | EmptyString :: _ =>
         log Warn ("Empty command in " ++ label ++ ", skipping")
     | program :: args =>
         _ <- ExecUtils.runOrThrow program args (Some worktreePath) ;;
         Ret tt
     end)
    (fun error =>
       log Error ("Command failed: " ++ command) ;;;
       log Error ("Error: " ++ messageOf error) ;;;
       Throw error).

(** The words of a command line. *)
Definition wordsOf (command : string) : list string :=
  splitSpaces (Str.trim command).

(** What a user sees of a command of a group that does not fail: a
    blank command is skipped with a warning, any other is run in the
    worktree, its first word being the program. *)
Definition seen (host : Host) (past : list Event)
           (worktreePath label command : string) : Event :=
  if blank command
  then Ev (Log Warn ("Empty command in " ++ label ++ ", skipping")) tt
  else
    let op := Execa (List.hd "" (wordsOf command)) (List.tl (wordsOf command))
                (Some worktreePath) in
    Ev op (host _ past op).

(** The same for the commands [before], one after the other. *)
Fixpoint handled (host : Host) (past : list Event)
         (worktreePath label : string) (before : list string) : list Event :=
  match before with
  | [] => []
  | command :: rest =>
      seen host past worktreePath label command
      :: handled host (past ++ [seen host past worktreePath label command])%list
           worktreePath label rest
  end.

(** The operation of a command of a group, without its answer. *)
Definition invoked (worktreePath label command : string) : {X : Type & Op X} :=
  if blank command
  then existT _ _ (Log Warn ("Empty command in " ++ label ++ ", skipping"))
  else existT _ _ (Execa (List.hd "" (wordsOf command))
                     (List.tl (wordsOf command)) (Some worktreePath)).

(** An event that is not a command that exited non-zero. *)
Definition succeeded (ev : Event) : bool :=
  match ev with
  | Ev op answer =>
      match op in Op X return X -> bool with
      | Execa _ _ _ => fun outcome => Z.eqb (ExecUtils.exitStatus outcome) 0
      | _ => fun _ => true
      end answer
  end.

(** [git worktree add ...] *)
Definition addsWorktree (ev : Event) : bool :=
  match ev with
  | Ev op _ =>
      match op with
      | Execa command ("worktree" :: "add" :: _) _ => String.eqb command "git"
      | _ => false
      end
  end.

(** Every operation but [git worktree add ...]. *)
Definition notAdding (X : Type) (op : Op X) : bool :=
  match op with
  | Execa command ("worktree" :: "add" :: _) _ => negb (String.eqb command "git")
  | _ => true
  end.

Definition logged (level : LogLevel) (message : string) : {X : Type & Op X} :=
  existT _ _ (Log level message).

Definition ran (command : string) (args : list string) (cwd : string)
  : {X : Type & Op X} :=
  existT _ _ (Execa command args (Some cwd)).

End CommandAux.
(** ** The sample repository without its remote *)

Module Offline.

(** The answers of the sample repository when the remote cannot be
    reached: [git push] and [git fetch] fail, the rest is unchanged. *)
Definition execa (command : string) (args : list string) : ExecaOutcome :=
  match args with
  | "push" :: _ | "fetch" :: _ =>
      if String.eqb command "git"
      then Sample.exited 128 "fatal: unable to access the remote"
      else Sample.execa command args
  | _ => Sample.execa command args
  end.

Definition host : Host :=
  scriptedHost execa (fun _ => false) (fun _ => None) (fun _ => LoadNull).

(** The user accepts every prompt; local branches cannot be deleted. *)
Definition execaProtected (command : string) (args : list string) : ExecaOutcome :=
  match args with
  | "branch" :: _ => Sample.exited 1 "error: branch not found"
  | _ => Sample.execa command args
  end.

Definition hostAccepting : Host :=
  fun X past op =>
    match op in Op X return X with
    | Confirm _ => true
    | Execa command args _ => execaProtected command args
    | ExistsSync _ => false
    | RmSync _ => None
    | MkdirSync _ => None
    | WriteFileSync _ _ => None
    | CosmiconfigLoad _ => LoadNull
    | SetVerbose _ => tt
    | Log _ _ => tt
    end.

(** The targets of the examples. *)
Definition newTarget : NewTarget :=
  mkNewTarget defaultConfig "feature-x" "/worktrees/feature-x" "feature-x".

Definition mrTarget : MRTarget :=
  mkMRTarget defaultConfig 7 Sample.mr "feature-ABC-123_fix"
    "/worktrees/feature-ABC-123_fix".

End Offline.
(* ================================================================== *)
(** * cli.ts *)
(* ================================================================== *)

(** How an action of the command line ends: it returns, or it ends the
    process with [process.exit(code)]. *)
Inductive Completion : Type :=
| Returned
| Exited (code : Z).

(** The line that [list] prints for a worktree. *)
Definition worktreeStatus (wt : GitWorktree) : string :=
  if nullish (wt_bare wt) false then "(bare)"
  else if nullish (wt_detached wt) false then "(detached)"
  else "".

(** [wt.branch || wt.commit] inside a template *)
Definition branchOrCommit (wt : GitWorktree) : string :=
  if truthy (wt_branch wt) then showOpt (wt_branch wt) else showOpt (wt_commit wt).

Definition worktreeLine (wt : GitWorktree) : string :=
  "  " ++ lastSegment wt ++ " -> " ++ branchOrCommit wt ++ " " ++ worktreeStatus wt.

Section Cli.

Variable P : Platform.
(** [JSON.stringify(value)] *)
Variable JSON_stringify : json -> string.

Local Open Scope prog_scope.

(** The [catch] of every action:
    [logger.error(error.message); process.exit(1)]. *)
Definition reportFailure (error : JsError) : Prog Completion :=
  log Error (messageOf error) ;;; Ret (Exited 1).

(** The action of [new], [mr] and [rm]: the command, created for the
    working directory of the process, runs inside a [try]. *)
Definition action (execute : string -> Prog unit) : Prog Completion :=
  tryCatch (execute (process_cwd P) ;;; Ret Returned) reportFailure.

Definition newAction (name : string) (options : NewCommandOptions) : Prog Completion :=
  action (fun cwd => newExecute P cwd name options).

Definition mrAction (number : string) (options : MRCommandOptions) : Prog Completion :=
  action (fun cwd => mrExecute P cwd number options).

Definition rmAction (name : string) (options : RemoveCommandOptions) : Prog Completion :=
  action (fun cwd => removeExecute P cwd name options).

(** The action of [list]; [verbose] is [globalOptions['verbose']]. *)
Definition listAction (verbose : option bool) : Prog Completion :=
  tryCatch
    (perform (SetVerbose (nullish verbose false)) ;;;
     worktrees <- listWorktrees (process_cwd P) ;;
     match worktrees with
     | [] => log Info "No worktrees found" ;;; Ret Returned
     | _ =>
         log Info "Worktrees:" ;;;
         forEach worktrees (fun wt => log Info (worktreeLine wt)) ;;;
         Ret Returned
     end)
    reportFailure.

(** The action of [config] under [--init]. *)
Definition configInitAction (verbose : option bool) : Prog Completion :=
  tryCatch
    (perform (SetVerbose (nullish verbose false)) ;;;
     let configManager := newConfigManager (process_cwd P) in
     there <- hasLocalConfig P configManager ;;
     if negb there then
       _ <- initLocalConfig P configManager ConfigAux.nothing ;;
       log Success "Local configuration initialized" ;;;
       Ret Returned
     else
       log Info "Local configuration already exists" ;;;
       Ret Returned)
    reportFailure.

(** [const [key, ...valueParts] = options.set.split('=')] and
    [valueParts.join('=')]; the split of a string is never empty. *)
Definition assignedKey (assignment : string) : string :=
  List.hd "" (Str.split "=" assignment).

Definition assignedValue (assignment : string) : string :=
  Str.join "=" (List.tl (Str.split "=" assignment)).

(** The value parsed as JSON if possible, kept as a string otherwise. *)
Definition parsedValue (value : string) : json :=
  match JSON_parse P value with
  | Some v => v
  | None => JStr value
  end.

(** The action of [config] under [--set], without [--init], [--list]
    and [--get], which are tested first. *)
Definition configSetAction (verbose : option bool) (useGlobal : bool)
           (assignment : string) : Prog Completion :=
  tryCatch
    (perform (SetVerbose (nullish verbose false)) ;;;
     let configManager := newConfigManager (process_cwd P) in
     let key := assignedKey assignment in
     let value := assignedValue assignment in
     if String.eqb key "" || String.eqb value "" then
       log Error "Invalid format. Use: --set key=value" ;;;
       Ret (Exited 1)
     else
       let partialConfig := JObj [(key, parsedValue value)] in
       if useGlobal then
         _ <- saveGlobalConfig P configManager partialConfig ;;
         log Success ("Global configuration updated: " ++ key ++ " = "
                      ++ JSON_stringify (parsedValue value)) ;;;
         Ret Returned
       else
         _ <- saveLocalConfig P configManager partialConfig ;;
         log Success ("Local configuration updated: " ++ key ++ " = "
                      ++ JSON_stringify (parsedValue value)) ;;;
         Ret Returned)
    reportFailure.

End Cli.

(** ** Notions for the properties of the command line *)

Module CliAux.

(** A key that holds no equals sign. *)
Definition plainKey (key : string) : bool :=
  negb (String.eqb key "")
  && Str.forallb (fun c => negb (Ascii.eqb c "=")) key.

(** One of the four keys of the schema. *)
Definition knownKey (key : string) : bool :=
  String.eqb key "prefixType" || String.eqb key "manualPrefix"
  || String.eqb key "worktreeDir" || String.eqb key "postCommands".

(** A JSON value that is not a string. *)
Definition notString (v : json) : bool :=
  match v with
  | JStr _ => false
  | _ => true
  end.

(** The sample platform with a [JSON.parse] that reads the number
    [2024] too. *)
Definition parseYear (text : string) : option json :=
  if String.eqb text "2024" then Some (JNum 2024) else Sample.parse text.

Definition platformYear : Platform :=
  Posix.platform "/home/user" "/repo" parseYear.

End CliAux.

(* ================================================================== *)
(** * Lemmas on strings *)
(* ================================================================== *)

Module StrFacts.

Lemma app_nil_r (s : string) : s ++ "" = s.
Proof. induction s; simpl; congruence. Qed.

Lemma app_assoc (a b c : string) : (a ++ b) ++ c = a ++ (b ++ c).
Proof. induction a; simpl; congruence. Qed.

Lemma length_app (a b : string) :
  String.length (a ++ b) = String.length a + String.length b.
Proof. induction a; simpl; congruence. Qed.

Lemma length_zero (s : string) : String.length s = 0 -> s = "".
Proof. destruct s; simpl; [reflexivity | discriminate]. Qed.

Lemma take_app (u r : string) : Str.take (String.length u) (u ++ r) = u.
Proof. induction u; simpl; congruence. Qed.

Lemma take_app_offset (i : nat) (u r : string) :
  Str.take (i + String.length u - i) (u ++ r) = u.
Proof. replace (i + String.length u - i) with (String.length u) by lia. apply take_app. Qed.

Lemma drop_app (u r : string) : Str.drop (String.length u) (u ++ r) = r.
Proof. induction u; simpl; congruence. Qed.

Lemma drop_all (s : string) : Str.drop (String.length s) s = "".
Proof. induction s; simpl; congruence. Qed.

Lemma forallb_app (p : ascii -> bool) (a b : string) :
  Str.forallb p (a ++ b) = Str.forallb p a && Str.forallb p b.
Proof.
  induction a as [|c a IH]; simpl; [reflexivity|].
  rewrite IH. apply andb_assoc.
Qed.

Lemma app_inv_nil (a b : string) : a ++ b = b -> a = "".
Proof.
  intros H. apply length_zero.
  apply (f_equal String.length) in H. rewrite length_app in H. lia.
Qed.

Lemma startsWith_app (p s : string) : Str.startsWith p (p ++ s) = true.
Proof.
  induction p as [|c p IH]; simpl; [reflexivity|].
  rewrite Ascii.eqb_refl. exact IH.
Qed.

Lemma startsWith_inv (p s : string) :
  Str.startsWith p s = true -> s = p ++ Str.drop (String.length p) s.
Proof.
  revert s. induction p as [|c p IH]; intros s H; simpl in *; [reflexivity|].
  destruct s as [|d s]; [discriminate|].
  apply andb_true_iff in H. destruct H as [Hc Hp].
  apply Ascii.eqb_eq in Hc. subst d. f_equal. apply IH, Hp.
Qed.

End StrFacts.
(* ================================================================== *)
(** * Properties of the configuration merge *)
(* ================================================================== *)

(** C1. When the local configuration has a non-empty [postCommands], the
    merged [postCommands] is exactly the local list, whatever the global
    configuration holds (replacement, no concatenation); and, for any
    local configuration or none, the scalar fields are layered
    default < global < local, each layer overriding only where it is
    there and defines the field. *)
Theorem mergeConfigs_local_postCommands_replace :
  forall (global : option Config) (local : Config),
    postCommands local <> [] ->
    postCommands (mergeConfigs global (Some local)) = postCommands local
    /\ (forall anyLocal : option Config,
           prefixType (mergeConfigs global anyLocal)
           = layered PrefixNone (option_map prefixType global)
               (option_map prefixType anyLocal)
           /\ worktreeDir (mergeConfigs global anyLocal)
              = layered default_worktreeDir (option_map worktreeDir global)
                  (option_map worktreeDir anyLocal)
           /\ manualPrefix (mergeConfigs global anyLocal)
              = layeredOpt (bindOpt global manualPrefix)
                  (bindOpt anyLocal manualPrefix)).
Proof.
  intros global local _. split; [reflexivity|].
  intros anyLocal. unfold mergeConfigs, layered, layeredOpt, bindOpt.
  destruct global as [g|], anyLocal as [l|]; cbn;
    (split; [reflexivity | split; [reflexivity |]]).
  - destruct (manualPrefix l), (manualPrefix g); reflexivity.
  - destruct (manualPrefix g); reflexivity.
  - destruct (manualPrefix l); reflexivity.
  - reflexivity.
Qed.

Lemma mergeConfigs_local_postCommands_replace_witness :
  postCommands
    (mergeConfigs
       (Some (mkConfig PrefixDetect (Some "g-") "/srv/worktrees"
                [mkPostCommand "Install" ["npm install"]]))
       (Some (mkConfig PrefixManual None "../wt"
                [mkPostCommand "Setup" ["make setup"]])))
  = [mkPostCommand "Setup" ["make setup"]].
Proof.
  refine (proj1 (@mergeConfigs_local_postCommands_replace
                   (Some (mkConfig PrefixDetect (Some "g-") "/srv/worktrees"
                            [mkPostCommand "Install" ["npm install"]]))
                   (mkConfig PrefixManual None "../wt"
                      [mkPostCommand "Setup" ["make setup"]]) _)).
  simpl. discriminate.
Defined.

(** Without a local configuration the merge is the global one over the
    defaults. *)
Lemma mergeConfigs_no_local (global : option Config) :
  mergeConfigs global None
  = match global with
    | Some g => g
    | None => defaultConfig
    end.
Proof. destruct global as [[pt mp wd pcs]|]; [|reflexivity]. destruct mp; reflexivity. Qed.

(* ================================================================== *)
(** * Lemmas on the matcher *)
(* ================================================================== *)

Module RegexFacts.
Import Regex RegexAux.

Lemma orElse_None_r (a : outcome) : orElse a None = a.
Proof. destruct a; reflexivity. Qed.

(** A literal consumes itself or fails. *)
Lemma run_lit (w : string) (i : nat) (s : string) (cs : captures) (k : cont) :
  run (lit w) i s cs k =
    if Str.startsWith w s
    then k (i + String.length w) (Str.drop (String.length w) s) cs
    else None.
Proof.
  revert i s. induction w as [|c w IH]; intros i s; simpl.
  - rewrite Nat.add_0_r. reflexivity.
  - destruct s as [|d s]; [reflexivity|].
    destruct (Ascii.eqb c d); simpl; [|reflexivity].
    rewrite IH. rewrite Nat.add_succ_r. reflexivity.
Qed.

Lemma plusGreedy_stop (p : ascii -> bool) (t : string) i cs k :
  stopsAt p t -> plusGreedy p i t cs k = None.
Proof.
  destruct t as [|c t]; simpl; [reflexivity|].
  intros ->. reflexivity.
Qed.

(** When what follows [cls+] cannot start inside the run, the greedy
    loop commits to the whole run. *)
Lemma plusGreedy_exact (p : ascii -> bool) (h t : string) i cs k :
  h <> "" -> Str.forallb p h = true -> rejects p k -> stopsAt p t ->
  plusGreedy p i (h ++ t) cs k = k (i + String.length h) t cs.
Proof.
  revert i. induction h as [|c h IH]; intros i Hne Hall Hrej Hstop.
  - congruence.
  - simpl in Hall. apply andb_true_iff in Hall. destruct Hall as [Hc Hall].
    simpl. rewrite Hc.
    destruct h as [|c' h].
    + simpl. rewrite plusGreedy_stop by assumption. simpl.
      rewrite Nat.add_1_r. reflexivity.
    + rewrite IH by (assumption || discriminate).
      assert (Hk : k (S i) (String c' h ++ t) cs = None).
      { simpl. apply Hrej. simpl in Hall.
        apply andb_true_iff in Hall. tauto. }
      rewrite Hk, orElse_None_r.
      f_equal. simpl. lia.
Qed.

(** The lazy loop stops at the first prefix after which the
    continuation succeeds. *)
Lemma plusLazy_shortest (p : ascii -> bool) (u rest : string) i cs k r :
  u <> "" -> Str.forallb p u = true ->
  (forall u1 u2, u = u1 ++ u2 -> u1 <> "" -> u2 <> "" ->
                 k (i + String.length u1) (u2 ++ rest) cs = None) ->
  k (i + String.length u) rest cs = Some r ->
  plusLazy p i (u ++ rest) cs k = Some r.
Proof.
  revert i. induction u as [|c u IH]; intros i Hne Hall Hshort Hk.
  - congruence.
  - simpl in Hall. apply andb_true_iff in Hall. destruct Hall as [Hc Hall].
    simpl. rewrite Hc.
    destruct u as [|c' u].
    + simpl in *. rewrite Nat.add_1_r in Hk. rewrite Hk. reflexivity.
    + assert (H1 : k (S i) (String c' u ++ rest) cs = None).
      { specialize (Hshort (String c "") (String c' u)).
        simpl in Hshort. rewrite Nat.add_1_r in Hshort.
        apply Hshort; [reflexivity | discriminate | discriminate]. }
      rewrite H1. simpl orElse.
      apply IH; [discriminate | assumption | |].
      * intros u1 u2 Hu Hu1 Hu2.
        specialize (Hshort (String c u1) u2).
        simpl in Hshort. rewrite Nat.add_succ_r in Hshort.
        apply Hshort; [rewrite Hu; reflexivity | discriminate | assumption].
      * simpl in Hk. rewrite Nat.add_succ_r in Hk. exact Hk.
Qed.

(** The greedy loop followed by the end of input: the whole input must
    be in the class. *)
Lemma plusGreedy_to_end (p : ascii -> bool) (s : string) i cs :
  plusGreedy p i s cs (fun j s' cs' => run Eos j s' cs' (fun j _ cs => Some (j, cs)))
  = if Str.forallb p s && negb (String.eqb s "")
    then Some (i + String.length s, cs) else None.
Proof.
  revert i. induction s as [|c s IH]; intros i; simpl; [reflexivity|].
  destruct (p c); simpl; [|reflexivity].
  rewrite IH. destruct s as [|d s].
  - simpl. rewrite Nat.add_1_r. reflexivity.
  - destruct (Str.forallb p (String d s)); simpl.
    + do 2 f_equal. lia.
    + reflexivity.
Qed.

(** The greedy loop with nothing after it takes the longest prefix. *)
Lemma plusGreedy_final (p : ascii -> bool) (s : string) i cs :
  plusGreedy p i s cs (fun j _ cs => Some (j, cs))
  = match span p s with
    | 0 => None
    | S n => Some (i + S n, cs)
    end.
Proof.
  revert i. induction s as [|c s IH]; intros i; simpl; [reflexivity|].
  destruct (p c); [|reflexivity].
  rewrite IH. destruct (span p s); simpl.
  - rewrite Nat.add_1_r. reflexivity.
  - rewrite (Nat.add_succ_r i (S n)). reflexivity.
Qed.

Lemma span_le (p : ascii -> bool) (s : string) : span p s <= String.length s.
Proof. induction s as [|c s IH]; simpl; [lia|]. destruct (p c); lia. Qed.

(** Dropping the characters of a match brings the scan to its end. *)
Lemma replaceFrom_skip (r : regex) (rep : string) (n : nat) :
  forall i s, n <= String.length s ->
    replaceFrom r rep i s n = replaceFrom r rep (i + n) (Str.drop n s) 0.
Proof.
  induction n as [|n IH]; intros i s Hn.
  - rewrite Nat.add_0_r. reflexivity.
  - destruct s as [|c s]; simpl in Hn; [lia|].
    simpl. rewrite IH by lia. rewrite Nat.add_succ_r. reflexivity.
Qed.

End RegexFacts.
(* ================================================================== *)
(** * The rendering of a number is its decimal numeral *)
(* ================================================================== *)

Module NumeralFacts.
Import Numeral.

Lemma digitsValue_acc (d : Decimal.uint) (p : positive) :
  digitsValue (NilEmpty.string_of_uint d) (Z.pos p)
  = Some (Z.pos (Pos.of_uint_acc d p)).
Proof.
  revert p. induction d; intros p; cbn [NilEmpty.string_of_uint digitsValue];
    [reflexivity|..];
    (match goal with
     | |- context [digitValue ?c] =>
         let v := eval vm_compute in (digitValue c) in
         change (digitValue c) with v
     end; cbn [Pos.of_uint_acc]; rewrite <- IHd; f_equal; lia).
Qed.

Lemma digitsValue_uint (d : Decimal.uint) :
  digitsValue (NilEmpty.string_of_uint d) 0 = Some (Z.of_N (Pos.of_uint d)).
Proof.
  induction d; cbn [NilEmpty.string_of_uint digitsValue Pos.of_uint];
    [reflexivity|exact IHd|..]; apply (@digitsValue_acc d).
Qed.

Lemma nzhead_head (d l : Decimal.uint) : Decimal.nzhead d <> Decimal.D0 l.
Proof. induction d; cbn [Decimal.nzhead]; try discriminate. exact IHd. Qed.

(** The digits of a positive number do not start with a zero. *)
Lemma to_uint_head (p : positive) (l : Decimal.uint) :
  Pos.to_uint p <> Decimal.D0 l.
Proof.
  intros E.
  pose proof (DecimalN.Unsigned.to_of (Pos.to_uint p)) as H.
  unfold N.of_uint in H. rewrite DecimalPos.Unsigned.of_to in H.
  cbn [N.to_uint] in H. rewrite E in H.
  unfold Decimal.unorm in H. cbn [Decimal.nzhead] in H.
  destruct (Decimal.nzhead l) eqn:Hl; try discriminate H.
  - injection H as Hnil. subst l. exact (@DecimalPos.Unsigned.to_uint_nonzero p E).
  - exact (@nzhead_head l _ (eq_trans Hl (eq_sym H))).
Qed.

Lemma leadingZero_uint (d : Decimal.uint) :
  (forall l, d <> Decimal.D0 l) ->
  leadingZero (NilEmpty.string_of_uint d) = false.
Proof.
  intros H. destruct d; try reflexivity;
    try (cbn [NilEmpty.string_of_uint leadingZero];
         destruct (NilEmpty.string_of_uint d); reflexivity).
  contradiction (H d); reflexivity.
Qed.

Lemma natural_pos (p : positive) :
  natural (NilEmpty.string_of_uint (Pos.to_uint p)) = Some (Z.pos p).
Proof.
  unfold natural.
  rewrite (@leadingZero_uint _ (to_uint_head p)).
  rewrite digitsValue_uint, DecimalPos.Unsigned.of_to.
  destruct (NilEmpty.string_of_uint (Pos.to_uint p)) eqn:E; [|reflexivity].
  destruct (Pos.to_uint p) eqn:Hp; try discriminate E.
  contradiction (@DecimalPos.Unsigned.to_uint_nonnil p Hp).
Qed.

Lemma NilZero_pos (p : positive) :
  NilZero.string_of_uint (Pos.to_uint p) = NilEmpty.string_of_uint (Pos.to_uint p).
Proof.
  destruct (Pos.to_uint p) eqn:Hp; try reflexivity.
  contradiction (@DecimalPos.Unsigned.to_uint_nonnil p Hp).
Qed.

Lemma string_of_uint_head (d : Decimal.uint) (s : string) :
  NilEmpty.string_of_uint d <> String "-" s.
Proof. destruct d; cbn [NilEmpty.string_of_uint]; discriminate. Qed.

(** [Str.ofZ n] is the decimal numeral of [n]. *)
Lemma value_ofZ (n : Z) : value (Str.ofZ n) = Some n.
Proof.
  unfold Str.ofZ. destruct n as [|p|p]; cbn [Z.to_int NilZero.string_of_int].
  - reflexivity.
  - rewrite NilZero_pos. pose proof (natural_pos p) as H.
    unfold value.
    destruct (NilEmpty.string_of_uint (Pos.to_uint p)) as [|c s] eqn:E.
    + discriminate H.
    + destruct (Ascii.eqb c "-") eqn:Ec; [|exact H].
      apply Ascii.eqb_eq in Ec. subst c.
      contradiction (@string_of_uint_head (Pos.to_uint p) s E).
  - rewrite NilZero_pos. unfold value.
    change (Ascii.eqb "-" "-") with true. cbv iota.
    rewrite natural_pos. reflexivity.
Qed.

End NumeralFacts.

(* ================================================================== *)
(** * The three replacements of [generateWorktreeName] *)
(* ================================================================== *)

Module NameFacts.
Import Regex RegexAux RegexFacts NameSpec.

(** [name.replace(/[^a-zA-Z0-9\-_]/g, '-')] maps the characters. *)
Lemma replaceFrom_problematic (s : string) :
  forall i, replaceFrom problematicRegex "-" i s 0 = replaceOutside s.
Proof.
  unfold replaceOutside.
  induction s as [|c s IH]; intros i; [reflexivity|].
  cbn [replaceFrom Str.map]. unfold matchAt, problematicRegex. cbn [run].
  destruct (isNameChar c); cbn [negb].
  - fold problematicRegex. rewrite IH. reflexivity.
  - assert (Hne : Nat.eqb (S i) i = false) by (apply Nat.eqb_neq; lia).
    rewrite Hne. replace (S i - i - 1) with 0 by lia.
    fold problematicRegex. rewrite IH. reflexivity.
Qed.

Lemma replace_problematic (s : string) :
  replaceAll problematicRegex "-" s = replaceOutside s.
Proof. apply replaceFrom_problematic. Qed.

Lemma collapse_run (s : string) :
  collapseDashes (String "-" s)
  = String "-" (collapseDashes (Str.drop (span (only "-") s) s)).
Proof.
  induction s as [|c s IH]; [reflexivity|].
  cbn [span]. unfold only at 1.
  destruct (Ascii.eqb "-" c) eqn:Hc.
  - apply Ascii.eqb_eq in Hc. subst c.
    cbn [Str.drop]. rewrite <- IH. reflexivity.
  - cbn [Str.drop]. cbn [collapseDashes startsWithDash]. unfold isDash.
    rewrite Hc. cbn. reflexivity.
Qed.

Lemma matchAt_dashes (i : nat) (s : string) :
  matchAt dashesRegex i s
  = match span (only "-") s with
    | 0 => None
    | S n => Some (i + S n, [])
    end.
Proof. unfold matchAt, dashesRegex. cbn [run]. apply plusGreedy_final. Qed.

(** [name.replace(/-+/g, '-')] collapses the runs of dashes. *)
Lemma replaceFrom_dashes (s : string) :
  forall i,
    replaceFrom dashesRegex "-" i s 0 = collapseDashes s
    /\ replaceFrom dashesRegex "-" i s (span (only "-") s)
       = collapseDashes (Str.drop (span (only "-") s) s).
Proof.
  induction s as [|c s IH]; intros i; [split; reflexivity|].
  assert (H0 : replaceFrom dashesRegex "-" i (String c s) 0
               = collapseDashes (String c s)).
  { cbn [replaceFrom]. rewrite matchAt_dashes. cbn [span]. unfold only at 1.
    destruct (Ascii.eqb "-" c) eqn:Hc.
    - apply Ascii.eqb_eq in Hc. subst c.
      assert (Hne : Nat.eqb (i + S (span (only "-") s)) i = false)
        by (apply Nat.eqb_neq; lia).
      rewrite Hne.
      replace (i + S (span (only "-") s) - i - 1) with (span (only "-") s) by lia.
      rewrite (proj2 (IH (S i))). rewrite collapse_run. reflexivity.
    - rewrite (proj1 (IH (S i))).
      cbn [collapseDashes]. unfold isDash. rewrite Hc. reflexivity. }
  split; [exact H0|].
  cbn [span]. unfold only at 1 3.
  destruct (Ascii.eqb "-" c) eqn:Hc.
  - cbn [replaceFrom Str.drop]. apply (proj2 (IH (S i))).
  - cbn [Str.drop]. exact H0.
Qed.

Lemma replace_dashes (s : string) :
  replaceAll dashesRegex "-" s = collapseDashes s.
Proof. apply (proj1 (replaceFrom_dashes s 0)). Qed.

(** ** The edges *)

Lemma stripTrailing_allDashes (s : string) :
  allDashes s = true -> stripTrailing s = "".
Proof.
  induction s as [|c s IH]; [reflexivity|].
  unfold allDashes. cbn [Str.forallb]. intros H.
  apply andb_true_iff in H. destruct H as [Hc Hs].
  cbn [stripTrailing]. rewrite (IH Hs). unfold isDash.
  unfold only in Hc. rewrite Hc. reflexivity.
Qed.

Lemma stripTrailing_empty (s : string) :
  stripTrailing s = "" -> allDashes s = true.
Proof.
  induction s as [|c s IH]; [reflexivity|].
  cbn [stripTrailing]. unfold allDashes. cbn [Str.forallb].
  destruct (stripTrailing s) eqn:Hs; [|discriminate].
  unfold isDash, only. destruct (Ascii.eqb "-" c); [|discriminate].
  intros _. apply IH. reflexivity.
Qed.

Lemma stripTrailing_cons (c : ascii) (s : string) :
  allDashes (String c s) = false ->
  stripTrailing (String c s) = String c (stripTrailing s).
Proof.
  intros H. cbn [stripTrailing].
  destruct (stripTrailing s) eqn:Hs; [|reflexivity].
  apply stripTrailing_empty in Hs.
  unfold allDashes in *. cbn [Str.forallb] in H. rewrite Hs in H.
  rewrite andb_true_r in H. unfold isDash. unfold only in H.
  rewrite H. reflexivity.
Qed.

(** The pattern at an index. *)
Lemma matchAt_edge (i : nat) (s : string) :
  matchAt edgeDashesRegex i s
  = orElse (if Nat.eqb i 0
            then match span (only "-") s with
                 | 0 => None
                 | S n => Some (i + S n, [])
                 end
            else None)
           (if allDashes s && negb (String.eqb s "")
            then Some (i + String.length s, []) else None).
Proof.
  unfold matchAt, edgeDashesRegex. cbn [run].
  rewrite plusGreedy_to_end.
  destruct (Nat.eqb i 0); [|reflexivity].
  rewrite plusGreedy_final. reflexivity.
Qed.

(** Away from the start only a trailing run matches. *)
Lemma replaceFrom_edge_inner (s : string) :
  forall i, 0 < i -> replaceFrom edgeDashesRegex "" i s 0 = stripTrailing s.
Proof.
  induction s as [|c s IH]; intros i Hi.
  - cbn [replaceFrom]. rewrite matchAt_edge.
    destruct (Nat.eqb i 0); reflexivity.
  - cbn [replaceFrom]. rewrite matchAt_edge.
    assert (Hi0 : Nat.eqb i 0 = false) by (apply Nat.eqb_neq; lia).
    rewrite Hi0. cbn [orElse].
    destruct (allDashes (String c s)) eqn:Hall; cbn [andb negb String.eqb].
    + assert (Hne : Nat.eqb (i + String.length (String c s)) i = false)
        by (apply Nat.eqb_neq; simpl; lia).
      rewrite Hne. cbn [String.length].
      replace (i + S (String.length s) - i - 1) with (String.length s) by lia.
      rewrite replaceFrom_skip by lia.
      rewrite StrFacts.drop_all.
      cbn [replaceFrom]. rewrite matchAt_edge.
      assert (Hj : Nat.eqb (S i + String.length s) 0 = false)
        by (apply Nat.eqb_neq; lia).
      rewrite Hj. rewrite (stripTrailing_allDashes _ Hall). reflexivity.
    + rewrite (IH (S i)) by lia.
      symmetry. apply stripTrailing_cons, Hall.
Qed.

Lemma stripLeading_span (s : string) :
  stripLeading s = Str.drop (span (only "-") s) s.
Proof.
  induction s as [|c s IH]; [reflexivity|].
  cbn [stripLeading span]. unfold isDash, only at 1.
  destruct (Ascii.eqb "-" c); [exact IH | reflexivity].
Qed.

(** [name.replace(/^-+|-+$/g, '')] strips the two edges. *)
Lemma replace_edges (s : string) :
  replaceAll edgeDashesRegex "" s = stripTrailing (stripLeading s).
Proof.
  unfold replaceAll. destruct s as [|c s]; [reflexivity|].
  cbn [replaceFrom]. rewrite matchAt_edge. cbn [Nat.eqb].
  rewrite stripLeading_span. cbn [span]. unfold only at 1 3.
  destruct (Ascii.eqb "-" c) eqn:Hc.
  - cbn [orElse Nat.add Nat.eqb Nat.sub Str.drop String.append].
    rewrite Nat.sub_0_r.
    rewrite replaceFrom_skip by apply span_le.
    apply replaceFrom_edge_inner. lia.
  - cbn [orElse Str.drop].
    assert (Hall : allDashes (String c s) = false).
    { unfold allDashes. cbn [Str.forallb]. unfold only at 1. rewrite Hc. reflexivity. }
    rewrite Hall. cbn [andb].
    rewrite replaceFrom_edge_inner by lia.
    symmetry. apply stripTrailing_cons, Hall.
Qed.

(** The code and the words of the specification agree. *)
Lemma worktreeNameOf_spec (fallback branch : string) (number : Z) :
  worktreeNameOf fallback branch number
  = deriveWorktreeName fallback branch number.
Proof.
  unfold worktreeNameOf, deriveWorktreeName, sanitize.
  rewrite replace_problematic, replace_dashes, replace_edges.
  reflexivity.
Qed.

End NameFacts.

(* ================================================================== *)
(** * The two URL patterns on URLs of the two shapes *)
(* ================================================================== *)

Module UrlFacts.
Import Regex RegexAux RegexFacts UrlShape.

Lemma run_Seq r1 r2 i s cs k :
  run (Seq r1 r2) i s cs k = run r1 i s cs (fun j s' cs' => run r2 j s' cs' k).
Proof. reflexivity. Qed.

Lemma run_Opt r i s cs k :
  run (Opt r) i s cs k = orElse (run r i s cs k) (k i s cs).
Proof. reflexivity. Qed.

Lemma run_Plus p i s cs k : run (Plus p) i s cs k = plusGreedy p i s cs k.
Proof. reflexivity. Qed.

Lemma run_Chr_cons c d i s cs k :
  run (Chr c) i (String d s) cs k = if Ascii.eqb c d then k (S i) s cs else None.
Proof. reflexivity. Qed.

Lemma searchFrom_hit r i s m : matchAt r i s = Some m -> searchFrom r i s = Some m.
Proof. intros H. destruct s; simpl; rewrite H; reflexivity. Qed.

Lemma forallb_impl (p q : ascii -> bool) (s : string) :
  (forall c, p c = true -> q c = true) ->
  Str.forallb p s = true -> Str.forallb q s = true.
Proof.
  intros Hpq. induction s as [|c s IH]; simpl; [reflexivity|].
  intros H. apply andb_true_iff in H. destruct H as [Hc Hs].
  rewrite (Hpq c Hc), (IH Hs). reflexivity.
Qed.

Lemma sshTail_accepts : tailOf sshTail acceptSsh.
Proof.
  intros j s cs. unfold sshTail, acceptSsh.
  rewrite run_Seq, run_Opt, run_lit.
  destruct (Str.startsWith ".git" s) eqn:Hp.
  - apply StrFacts.startsWith_inv in Hp.
    remember (Str.drop (String.length ".git") s) as d eqn:Hd. clear Hd. subst s.
    destruct d as [|c d]; simpl.
    + reflexivity.
    + reflexivity.
  - destruct s as [|c s]; [simpl; rewrite Nat.add_0_r; reflexivity|].
    destruct (String.eqb (String c s) ".git") eqn:He.
    + apply String.eqb_eq in He. rewrite He in Hp. discriminate.
    + reflexivity.
Qed.

Lemma slashTail_accepts : tailOf (Seq (Opt (Chr "/")) Eos) acceptSlash.
Proof.
  intros j s cs. unfold acceptSlash.
  rewrite run_Seq, run_Opt.
  destruct s as [|c s]; [simpl; rewrite Nat.add_0_r; reflexivity|].
  rewrite run_Chr_cons. cbn [run String.eqb orb].
  rewrite (Ascii.eqb_sym c "/").
  destruct (Ascii.eqb "/" c); [|reflexivity].
  destruct s; simpl; [rewrite Nat.add_1_r|]; reflexivity.
Qed.

Lemma httpTail_accepts : tailOf httpTail acceptHttp.
Proof.
  intros j s cs. unfold httpTail, acceptHttp.
  rewrite run_Seq, run_Opt, run_lit.
  rewrite !slashTail_accepts.
  destruct (Str.startsWith ".git" s) eqn:Hp.
  - apply StrFacts.startsWith_inv in Hp.
    remember (Str.drop (String.length ".git") s) as d eqn:Hd. clear Hd. subst s.
    destruct d as [|c d].
    + simpl. rewrite Nat.add_0_r. reflexivity.
    + unfold acceptSlash. cbn [String.append String.eqb Ascii.eqb Bool.eqb andb orb].
      destruct (Ascii.eqb c "/"); [destruct (String.eqb d "")|];
        cbn [orElse orb andb]; try reflexivity.
      do 2 f_equal. simpl. lia.
  - destruct (String.eqb s ".git/") eqn:H1;
      [apply String.eqb_eq in H1; rewrite H1 in Hp; discriminate|].
    destruct (String.eqb s ".git") eqn:H2;
      [apply String.eqb_eq in H2; rewrite H2 in Hp; discriminate|].
    reflexivity.
Qed.

(** ** The final segment *)

Lemma run_name tail accept i name rest cs :
  tailOf tail accept ->
  name <> "" -> Str.forallb dot name = true ->
  accept rest = true ->
  (forall u1 u2, name = u1 ++ u2 -> u1 <> "" -> u2 <> "" ->
                 accept (u2 ++ rest) = false) ->
  run (Seq (Group 2 (PlusLazy dot)) tail) i (name ++ rest) cs
      (fun j _ cs => Some (j, cs))
  = Some (i + String.length name + String.length rest, (2, name) :: cs).
Proof.
  intros Ht Hne Hdot Hacc Hshort. cbn [run].
  apply plusLazy_shortest; try assumption.
  - intros u1 u2 Hu Hu1 Hu2. rewrite Ht, (Hshort u1 u2 Hu Hu1 Hu2). reflexivity.
  - rewrite Ht, Hacc, StrFacts.take_app_offset. reflexivity.
Qed.

(** ** The optional group *)

Lemma rejects_slash (k : cont) :
  rejects (except "/") (fun j s cs => run (Chr "/") j s cs k).
Proof.
  intros j c s cs Hc. rewrite run_Chr_cons.
  unfold except in Hc. destruct (Ascii.eqb "/" c); [discriminate | reflexivity].
Qed.

Lemma take_group (i : nat) (g s : string) :
  Str.take (S (i + String.length g) - i) (g ++ String "/" s) = g ++ "/".
Proof.
  replace (S (i + String.length g) - i) with (String.length (g ++ "/")).
  - change (String "/" s) with ("/" ++ s). rewrite <- StrFacts.app_assoc.
    apply StrFacts.take_app.
  - rewrite StrFacts.length_app. change (String.length "/") with 1. lia.
Qed.

Lemma run_group_present R g s i cs r :
  g <> "" -> Str.forallb (except "/") g = true ->
  run R (S (i + String.length g)) s ((1, g ++ "/") :: cs)
      (fun j _ cs => Some (j, cs)) = Some r ->
  run (Seq (Opt (Group 1 (Seq (Plus (except "/")) (Chr "/")))) R) i
      (g ++ String "/" s) cs (fun j _ cs => Some (j, cs)) = Some r.
Proof.
  intros Hne Hg HR.
  rewrite run_Seq, run_Opt. cbn [run].
  rewrite plusGreedy_exact; [| assumption | assumption | | reflexivity].
  - rewrite Ascii.eqb_refl, take_group, HR. reflexivity.
  - intros j c s0 cs0 Hc. unfold except in Hc.
    destruct (Ascii.eqb "/" c); [discriminate | reflexivity].
Qed.

Lemma run_group_absent tail seg t i cs :
  seg <> "" -> Str.forallb (except "/") seg = true ->
  t = "" \/ t = "/" ->
  run (repoPath tail) i (seg ++ t) cs (fun j _ cs => Some (j, cs))
  = run (Seq (Group 2 (PlusLazy dot)) tail) i (seg ++ t) cs
        (fun j _ cs => Some (j, cs)).
Proof.
  intros Hne Hseg Ht. unfold repoPath.
  rewrite run_Seq, run_Opt.
  assert (H1 : run (Group 1 (Seq (Plus (except "/")) (Chr "/"))) i (seg ++ t) cs
                 (fun j s' cs' =>
                    run (Seq (Group 2 (PlusLazy dot)) tail) j s' cs'
                        (fun j _ cs => Some (j, cs))) = None).
  { cbn [run].
    rewrite plusGreedy_exact; [| assumption | assumption | |].
    - destruct Ht as [-> | ->]; reflexivity.
    - intros j c s0 cs0 Hc. unfold except in Hc.
      destruct (Ascii.eqb "/" c); [discriminate | reflexivity].
    - destruct Ht as [-> | ->]; simpl; reflexivity. }
  rewrite H1. reflexivity.
Qed.

(** ** The path: an optional group, the name, a suffix *)

Lemma segment_dot (s : string) :
  Str.forallb segmentChar s = true -> Str.forallb dot s = true.
Proof.
  apply forallb_impl. intros c H. unfold segmentChar in H.
  apply andb_true_iff in H. tauto.
Qed.

Lemma segment_noSlash (s : string) :
  Str.forallb segmentChar s = true -> Str.forallb (except "/") s = true.
Proof.
  apply forallb_impl. intros c H. unfold segmentChar in H.
  apply andb_true_iff in H. tauto.
Qed.

Lemma run_repoPath tail accept i group name dotGit trailingSlash cs :
  tailOf tail accept ->
  groupOk group -> segment name ->
  accept (gitSuffix dotGit ++ slashSuffix trailingSlash) = true ->
  (forall u1 u2, name = u1 ++ u2 -> u1 <> "" -> u2 <> "" ->
      accept (u2 ++ gitSuffix dotGit ++ slashSuffix trailingSlash) = false) ->
  exists j cs',
    run (repoPath tail) i
        (groupPart group ++ name ++ gitSuffix dotGit ++ slashSuffix trailingSlash)
        cs (fun j _ cs => Some (j, cs)) = Some (j, cs')
    /\ capture 2 cs' = Some name.
Proof.
  intros Ht Hg [Hne Hseg] Hacc Hshort.
  destruct group as [g|]; cbn [groupPart].
  - destruct Hg as [Hgne Hgseg].
    rewrite StrFacts.app_assoc. cbn [String.append].
    eexists. eexists. split.
    + unfold repoPath. apply run_group_present;
        [assumption | apply segment_noSlash; assumption |].
      apply run_name with (accept := accept); try assumption.
        apply segment_dot; assumption.
    + reflexivity.
  - cbn [String.append].
    eexists. eexists. split.
    + rewrite <- StrFacts.app_assoc.
      rewrite run_group_absent.
      * rewrite StrFacts.app_assoc.
        apply run_name with (accept := accept); try assumption.
        apply segment_dot; assumption.
      * destruct name; [congruence | discriminate].
      * rewrite StrFacts.forallb_app, (segment_noSlash _ Hseg).
        destruct dotGit; reflexivity.
      * destruct trailingSlash; [right | left]; reflexivity.
    + reflexivity.
Qed.

(** ** The suffixes the two tails accept *)

Lemma accept_suffix_http dotGit trailingSlash :
  acceptHttp (gitSuffix dotGit ++ slashSuffix trailingSlash) = true.
Proof. destruct dotGit, trailingSlash; reflexivity. Qed.

Lemma accept_suffix_ssh dotGit :
  acceptSsh (gitSuffix dotGit ++ slashSuffix false) = true.
Proof. destruct dotGit; reflexivity. Qed.

Lemma acceptSsh_http (s : string) : acceptSsh s = true -> acceptHttp s = true.
Proof.
  unfold acceptSsh, acceptHttp, acceptSlash. intros H.
  apply orb_true_iff in H. destruct H as [-> | ->];
    rewrite ?orb_true_r; reflexivity.
Qed.

(** No shorter prefix of the name leaves an accepted suffix. *)
Lemma shorter_rejected_http name dotGit trailingSlash :
  nameOk name dotGit ->
  forall u1 u2, name = u1 ++ u2 -> u1 <> "" -> u2 <> "" ->
    acceptHttp (u2 ++ gitSuffix dotGit ++ slashSuffix trailingSlash) = false.
Proof.
  intros [[Hne Hseg] Hname] u1 u2 Hu Hu1 Hu2.
  assert (Hseg2 : Str.forallb segmentChar u2 = true).
  { rewrite Hu, StrFacts.forallb_app in Hseg.
    apply andb_true_iff in Hseg. tauto. }
  assert (Hgit : dotGit = false -> u2 <> ".git").
  { intros Hd ->. exact (Hname Hd u1 Hu1 Hu). }
  clear Hname Hseg Hne Hu.
  destruct (acceptHttp _) eqn:Hacc; [exfalso | reflexivity].
  unfold acceptHttp, acceptSlash in Hacc.
  repeat (apply orb_true_iff in Hacc; destruct Hacc as [Hacc | Hacc]);
    apply String.eqb_eq in Hacc;
    destruct dotGit, trailingSlash; cbn [gitSuffix slashSuffix] in Hacc;
    string_inv Hacc u2;
    try (apply Hu2; reflexivity);
    try (apply Hgit; reflexivity);
    try discriminate Hseg2.
Qed.

Lemma shorter_rejected_ssh name dotGit :
  nameOk name dotGit ->
  forall u1 u2, name = u1 ++ u2 -> u1 <> "" -> u2 <> "" ->
    acceptSsh (u2 ++ gitSuffix dotGit ++ slashSuffix false) = false.
Proof.
  intros Hn u1 u2 Hu Hu1 Hu2.
  destruct (acceptSsh _) eqn:Hacc; [|reflexivity].
  apply acceptSsh_http in Hacc.
  rewrite (shorter_rejected_http false Hn Hu Hu1 Hu2) in Hacc.
  discriminate.
Qed.

Lemma capture_truthy (n : nat) (name : string) (cs : captures) :
  name <> "" -> capture n cs = Some name ->
  truthyGroup n (Some cs) = Some name.
Proof.
  intros Hne H. unfold truthyGroup. rewrite H.
  destruct name; [congruence | reflexivity].
Qed.

Lemma rejects_colon (k : cont) :
  rejects (except ":") (fun j s cs => run (Seq (Chr ":") (repoPath sshTail)) j s cs k).
Proof.
  intros j c s cs Hc. rewrite run_Seq, run_Chr_cons.
  unfold except in Hc. destruct (Ascii.eqb ":" c); [discriminate | reflexivity].
Qed.

(** The SSH pattern on a URL of the SSH shape whose user is [git]. *)
Lemma exec_ssh host group name dotGit :
  sshHost host -> groupOk group -> nameOk name dotGit ->
  truthyGroup 2 (exec sshUrlRegex (sshUrl "git" host group name dotGit))
  = Some name.
Proof.
  intros [Hhne Hhost] Hg Hn.
  destruct (@run_repoPath sshTail acceptSsh (S (0 + String.length "git@" + String.length host))
              group name dotGit false [] sshTail_accepts Hg (proj1 Hn)
              (accept_suffix_ssh dotGit) (shorter_rejected_ssh Hn))
    as (j & cs' & Hrun & Hcap).
  assert (Hm : matchAt sshUrlRegex 0 (sshUrl "git" host group name dotGit)
               = Some (j, cs')).
  { unfold matchAt, sshUrlRegex.
    change (sshUrl "git" host group name dotGit)
      with ("git@" ++ (host ++ String ":"
              (groupPart group ++ name ++ gitSuffix dotGit))).
    rewrite run_Seq, run_lit, StrFacts.startsWith_app, StrFacts.drop_app.
    rewrite run_Seq, run_Plus.
    rewrite plusGreedy_exact;
      [| assumption | assumption
       | apply rejects_colon | reflexivity].
    rewrite run_Seq, run_Chr_cons, Ascii.eqb_refl.
    replace (gitSuffix dotGit) with (gitSuffix dotGit ++ slashSuffix false)
      by apply StrFacts.app_nil_r.
    exact Hrun. }
  unfold exec. rewrite (searchFrom_hit _ _ _ Hm).
  apply capture_truthy; [exact (proj1 (proj1 Hn)) | exact Hcap].
Qed.

Lemma rejects_slash_path (k : cont) :
  rejects (except "/") (fun j s cs => run (Seq (Chr "/") (repoPath httpTail)) j s cs k).
Proof.
  intros j c s cs Hc. rewrite run_Seq, run_Chr_cons.
  unfold except in Hc. destruct (Ascii.eqb "/" c); [discriminate | reflexivity].
Qed.

(** The HTTP(S) pattern on a URL of the HTTP(S) shape. *)
Lemma exec_http secure host group name dotGit trailingSlash :
  httpHost host -> groupOk group -> nameOk name dotGit ->
  truthyGroup 2
    (exec httpUrlRegex (httpUrl secure host group name dotGit trailingSlash))
  = Some name.
Proof.
  intros [Hhne Hhost] Hg Hn.
  set (i0 := if secure then 8 else 7).
  destruct (@run_repoPath httpTail acceptHttp (S (i0 + String.length host))
              group name dotGit trailingSlash [] httpTail_accepts Hg (proj1 Hn)
              (accept_suffix_http dotGit trailingSlash)
              (shorter_rejected_http trailingSlash Hn))
    as (j & cs' & Hrun & Hcap).
  assert (Hm : matchAt httpUrlRegex 0
                 (httpUrl secure host group name dotGit trailingSlash)
               = Some (j, cs')).
  { unfold matchAt, httpUrlRegex.
    assert (Hrest : forall i,
               run (Seq (Plus (except "/")) (Seq (Chr "/") (repoPath httpTail))) i
                 (host ++ String "/" (groupPart group ++ name ++ gitSuffix dotGit
                                      ++ slashSuffix trailingSlash)) []
                 (fun j _ cs => Some (j, cs))
               = run (repoPath httpTail) (S (i + String.length host))
                   (groupPart group ++ name ++ gitSuffix dotGit
                    ++ slashSuffix trailingSlash) []
                   (fun j _ cs => Some (j, cs))).
    { intros i. rewrite run_Seq, run_Plus.
      rewrite plusGreedy_exact;
        [| assumption | assumption
         | apply rejects_slash_path | reflexivity].
      rewrite run_Seq, run_Chr_cons, Ascii.eqb_refl. reflexivity. }
    destruct secure; subst i0.
    - change (httpUrl true host group name dotGit trailingSlash)
        with ("http" ++ String "s" ("://" ++ (host ++ String "/"
                (groupPart group ++ name ++ gitSuffix dotGit
                 ++ slashSuffix trailingSlash)))).
      rewrite run_Seq, run_lit, StrFacts.startsWith_app, StrFacts.drop_app.
      rewrite run_Seq, run_Opt, run_Chr_cons, Ascii.eqb_refl.
      rewrite run_Seq, run_lit, StrFacts.startsWith_app, StrFacts.drop_app.
      rewrite Hrest.
      change (S (S (0 + String.length "http") + String.length "://"
                 + String.length host))
        with (S (8 + String.length host)).
      rewrite Hrun. reflexivity.
    - change (httpUrl false host group name dotGit trailingSlash)
        with ("http" ++ ("://" ++ (host ++ String "/"
                (groupPart group ++ name ++ gitSuffix dotGit
                 ++ slashSuffix trailingSlash)))).
      rewrite run_Seq, run_lit, StrFacts.startsWith_app, StrFacts.drop_app.
      rewrite run_Seq, run_Opt.
      change (run (Chr "s") (0 + String.length "http") ("://" ++ ?x) ?cs ?k)
        with (@None (nat * captures)).
      cbn [orElse].
      rewrite run_Seq, run_lit, StrFacts.startsWith_app, StrFacts.drop_app.
      rewrite Hrest. exact Hrun. }
  unfold exec. rewrite (searchFrom_hit _ _ _ Hm).
  apply capture_truthy; [exact (proj1 (proj1 Hn)) | exact Hcap].
Qed.

End UrlFacts.

(* ================================================================== *)
(** * Lemmas on programs *)
(* ================================================================== *)

Module ProgFacts.
Export ProgAux.

Local Open Scope prog_scope.

Lemma interp_bind {A B} (m : Prog A) (f : A -> Prog B) :
  forall host past,
    interp host past (bind m f)
    = match interp host past m with
      | (Ok a, ev1) =>
          let (r, ev2) := interp host (past ++ ev1)%list (f a) in
          (r, (ev1 ++ ev2)%list)
      | (Err e, ev1) => (Err e, ev1)
      end.
Proof.
  induction m as [a | e | X op k IH]; intros host past; cbn [bind interp].
  - rewrite app_nil_r. destruct (interp host past (f a)); reflexivity.
  - reflexivity.
  - rewrite IH.
    destruct (interp host (past ++ [Ev op (host X past op)])%list
                     (k (host X past op))) as [[a | e] ev1].
    + rewrite <- app_assoc. cbn [app].
      destruct (interp host _ (f a)); reflexivity.
    + reflexivity.
Qed.

Lemma interp_tryCatch {A} (m : Prog A) (h : JsError -> Prog A) :
  forall host past,
    interp host past (tryCatch m h)
    = match interp host past m with
      | (Ok a, ev1) => (Ok a, ev1)
      | (Err e, ev1) =>
          let (r, ev2) := interp host (past ++ ev1)%list (h e) in
          (r, (ev1 ++ ev2)%list)
      end.
Proof.
  induction m as [a | e | X op k IH]; intros host past; cbn [tryCatch interp].
  - reflexivity.
  - rewrite app_nil_r. destruct (interp host past (h e)); reflexivity.
  - rewrite IH.
    destruct (interp host (past ++ [Ev op (host X past op)])%list
                     (k (host X past op))) as [[a | e] ev1].
    + reflexivity.
    + rewrite <- app_assoc. cbn [app].
      destruct (interp host _ (h e)); reflexivity.
Qed.

(** ** Programs that only perform operations of a given kind *)

Section Only.
Variable allowed : forall X, Op X -> bool.

Lemma only_bind {A B} (m : Prog A) (f : A -> Prog B) :
  only allowed m -> (forall a, only allowed (f a)) -> only allowed (bind m f).
Proof.
  intros Hm Hf. induction Hm; cbn [bind]; try constructor; auto.
Qed.

Lemma only_tryCatch {A} (m : Prog A) (h : JsError -> Prog A) :
  only allowed m -> (forall e, only allowed (h e)) -> only allowed (tryCatch m h).
Proof.
  intros Hm Hh. induction Hm; cbn [tryCatch]; try constructor; auto.
Qed.

Lemma only_perform {X} (op : Op X) : allowed op = true -> only allowed (perform op).
Proof. intros H. constructor; [exact H | intros; constructor]. Qed.

Lemma only_ofResult {A} (r : Result A) : only allowed (ofResult r).
Proof. destruct r; constructor. Qed.

Lemma only_forEach {A} (xs : list A) (body : A -> Prog unit) :
  (forall x, only allowed (body x)) -> only allowed (forEach xs body).
Proof.
  intros H. induction xs as [|x xs IH]; cbn [forEach].
  - constructor.
  - apply only_bind; auto.
Qed.

(** Whatever the host answers, a run shows allowed operations only. *)
Lemma only_events {A} (p : Prog A) :
  only allowed p -> forall host past, Forall (allowedEvent allowed) (eventsOf host past p).
Proof.
  unfold eventsOf. intros Hp. induction Hp as [a | e | X op k Hop Hk IH];
    intros host past; cbn [interp].
  - constructor.
  - constructor.
  - specialize (IH (host X past op) host (past ++ [Ev op (host X past op)])%list).
    destruct (interp host _ (k (host X past op))) as [r evs].
    cbn [snd] in *. constructor; [exact Hop | exact IH].
Qed.

End Only.

(** ** What a program can return *)

Lemma ensures_Ret {A} (Q : A -> Prop) (a : A) : Q a -> ensures Q (Ret a).
Proof. intros H host past a' evs E. cbn in E. congruence. Qed.

Lemma ensures_Throw {A} (Q : A -> Prop) (e : JsError) : ensures Q (Throw e).
Proof. intros host past a' evs E. cbn in E. discriminate. Qed.

Lemma ensures_bind {A B} (Q1 : A -> Prop) (Q : B -> Prop) (m : Prog A)
      (f : A -> Prog B) :
  ensures Q1 m -> (forall a, Q1 a -> ensures Q (f a)) -> ensures Q (bind m f).
Proof.
  intros Hm Hf host past b evs E. rewrite interp_bind in E.
  destruct (interp host past m) as [[a | e] ev1] eqn:Em; [|discriminate].
  destruct (interp host (past ++ ev1)%list (f a)) as [r ev2] eqn:Ef.
  injection E as -> _.
  exact (Hf a (Hm _ _ _ _ Em) _ _ _ _ Ef).
Qed.

Lemma ensures_tryCatch {A} (Q : A -> Prop) (m : Prog A) (h : JsError -> Prog A) :
  ensures Q m -> (forall e, ensures Q (h e)) -> ensures Q (tryCatch m h).
Proof.
  intros Hm Hh host past a evs E. rewrite interp_tryCatch in E.
  destruct (interp host past m) as [[a' | e] ev1] eqn:Em.
  - injection E as -> _. exact (Hm _ _ _ _ Em).
  - destruct (interp host (past ++ ev1)%list (h e)) as [r ev2] eqn:Eh.
    injection E as -> _. exact (Hh e _ _ _ _ Eh).
Qed.

Lemma ensures_weaken {A} (Q Q' : A -> Prop) (p : Prog A) :
  (forall a, Q a -> Q' a) -> ensures Q p -> ensures Q' p.
Proof. intros H Hp host past a evs E. exact (H a (Hp _ _ _ _ E)). Qed.

End ProgFacts.

(* ================================================================== *)
(** * The parser of the porcelain listing *)
(* ================================================================== *)

Module PorcelainFacts.
Import Porcelain PorcelainSpec PorcelainAux.

Lemma fill_nil (w : GitWorktree) : fill w [] = w.
Proof. destruct w; reflexivity. Qed.

(** A line that is no marker updates the current record only. *)
Lemma step_body (worktrees : list GitWorktree) (current : GitWorktree)
      (line : string) (body : list string) :
  isMarker line = false ->
  exists current',
    step (worktrees, current) line = (worktrees, current')
    /\ fill current' body = fill current (line :: body).
Proof.
  intros Hm. unfold step. unfold isMarker in Hm. rewrite Hm.
  assert (Hfin : forall current',
             (Str.startsWith "HEAD " line = true ->
              current' = set_commit current (Str.drop 5 line)) ->
             (Str.startsWith "HEAD " line = false ->
              Str.startsWith "branch " line = true ->
              current' = set_branch current (Str.drop 7 line)) ->
             (Str.startsWith "HEAD " line = false ->
              Str.startsWith "branch " line = false ->
              String.eqb line "bare" = true -> current' = set_bare current) ->
             (Str.startsWith "HEAD " line = false ->
              Str.startsWith "branch " line = false ->
              String.eqb line "bare" = false ->
              String.eqb line "detached" = true ->
              current' = set_detached current) ->
             (Str.startsWith "HEAD " line = false ->
              Str.startsWith "branch " line = false ->
              String.eqb line "bare" = false ->
              String.eqb line "detached" = false -> current' = current) ->
             fill current' body = fill current (line :: body)).
  { intros current' E1 E2 E3 E4 E5.
    unfold fill, flag. cbn [lastWithPrefix List.existsb String.length].
    rewrite (String.eqb_sym "bare" line), (String.eqb_sym "detached" line).
    set (lb := lastWithPrefix "branch " body).
    set (lh := lastWithPrefix "HEAD " body).
    set (eb := List.existsb (String.eqb "bare") body).
    set (ed := List.existsb (String.eqb "detached") body).
    clearbody lb lh eb ed.
    destruct (Str.startsWith "HEAD " line) eqn:Hh.
    - rewrite (E1 eq_refl).
      pose proof (StrFacts.startsWith_inv _ _ Hh) as E. rewrite E.
      destruct current, lb, lh, eb, ed; reflexivity.
    - destruct (Str.startsWith "branch " line) eqn:Hb.
      + rewrite (E2 eq_refl eq_refl).
        pose proof (StrFacts.startsWith_inv _ _ Hb) as E. rewrite E.
        destruct current, lb, lh, eb, ed; reflexivity.
      + destruct (String.eqb line "bare") eqn:H1.
        * rewrite (E3 eq_refl eq_refl eq_refl).
          apply String.eqb_eq in H1. subst line.
          destruct current, lb, lh, eb, ed; reflexivity.
        * destruct (String.eqb line "detached") eqn:H2.
          -- rewrite (E4 eq_refl eq_refl eq_refl eq_refl).
             destruct current, lb, lh, eb, ed; reflexivity.
          -- rewrite (E5 eq_refl eq_refl eq_refl eq_refl).
             destruct current, lb, lh, eb, ed; reflexivity. }
  destruct (Str.startsWith "HEAD " line) eqn:Hh;
    [| destruct (Str.startsWith "branch " line) eqn:Hb;
       [| destruct (String.eqb line "bare") eqn:H1;
          [| destruct (String.eqb line "detached") eqn:H2]]];
    (eexists; split; [reflexivity |]);
    apply Hfin; intros; try reflexivity; congruence.
Qed.

Lemma fill_started (marker : string) (body : list string) :
  fill (started (Str.drop 9 marker)) body = recordOf (marker, body).
Proof.
  unfold fill, started, recordOf. cbn [wt_path wt_branch wt_commit wt_bare wt_detached].
  f_equal.
  - destruct (lastWithPrefix "branch " body); reflexivity.
  - destruct (lastWithPrefix "HEAD " body); reflexivity.
  - destruct (flag "bare" body); reflexivity.
  - destruct (flag "detached" body); reflexivity.
Qed.

Lemma marker_path (line : string) :
  isMarker line = true -> line <> "worktree " ->
  truthy (Some (Str.drop 9 line)) = true.
Proof.
  intros Hm Hne. unfold isMarker in Hm.
  apply StrFacts.startsWith_inv in Hm. cbn [String.length] in Hm.
  destruct (Str.drop 9 line) eqn:Hd; [|reflexivity].
  exfalso. apply Hne. rewrite Hm. reflexivity.
Qed.

Lemma flush_fill_started (worktrees : list GitWorktree) (marker : string)
      (body : list string) :
  isMarker marker = true -> marker <> "worktree " ->
  flush (worktrees, fill (started (Str.drop 9 marker)) body)
  = (worktrees ++ [recordOf (marker, body)])%list.
Proof.
  intros Hm Hne. unfold flush.
  replace (wt_path (fill (started (Str.drop 9 marker)) body))
    with (Some (Str.drop 9 marker)) by reflexivity.
  rewrite (marker_path Hm Hne), fill_started. reflexivity.
Qed.

Lemma loop_cons (line : string) (lines : list string) (st : state) :
  loop (line :: lines) st = loop lines (step st line).
Proof. reflexivity. Qed.

Lemma wellFormed_tail (line : string) (lines : list string) :
  wellFormed (line :: lines) -> wellFormed lines.
Proof. intros H l Hin. apply H. right. exact Hin. Qed.

Lemma wellFormed_app_l (pre post : list string) :
  wellFormed (pre ++ post) -> wellFormed pre.
Proof. intros H l Hin. apply H. apply in_or_app. left. exact Hin. Qed.

(** The result of the loop, from any state: what the state already
    holds, the record being read, then one record per later block. *)
Lemma flush_loop (lines : list string) :
  wellFormed lines ->
  forall worktrees current,
    flush (loop lines (worktrees, current))
    = (flush (worktrees, fill current (bodyOf lines))
       ++ List.map recordOf (blocks lines))%list.
Proof.
  induction lines as [|line lines IH]; intros Hwf worktrees current.
  - cbn [loop List.fold_left bodyOf blocks List.map].
    rewrite fill_nil, app_nil_r. reflexivity.
  - specialize (IH (wellFormed_tail Hwf)).
    rewrite loop_cons. cbn [bodyOf blocks].
    destruct (isMarker line) eqn:Hm.
    + unfold step at 1. unfold isMarker in Hm. rewrite Hm. fold (isMarker line) in Hm.
      rewrite IH, fill_nil.
      rewrite flush_fill_started;
        [| exact Hm | apply Hwf; [left; reflexivity | exact Hm]].
      cbn [List.map]. rewrite <- app_assoc. reflexivity.
    + destruct (step_body worktrees current line (bodyOf lines) Hm)
        as (current' & Hstep & Hfill).
      rewrite Hstep, IH, Hfill. reflexivity.
Qed.

(** The records already appended while a block is being read: those of
    the blocks before it. *)
Lemma fst_loop (lines : list string) :
  wellFormed lines ->
  forall worktrees current,
    fst (loop lines (worktrees, current))
    = match blocks lines with
      | [] => worktrees
      | _ :: _ =>
          (flush (worktrees, fill current (bodyOf lines))
           ++ List.map recordOf (List.removelast (blocks lines)))%list
      end.
Proof.
  induction lines as [|line lines IH]; intros Hwf worktrees current.
  - reflexivity.
  - specialize (IH (wellFormed_tail Hwf)).
    rewrite loop_cons. cbn [bodyOf blocks].
    destruct (isMarker line) eqn:Hm.
    + unfold step at 1. unfold isMarker in Hm. rewrite Hm. fold (isMarker line) in Hm.
      rewrite IH, fill_nil.
      destruct (blocks lines) as [|b bs] eqn:Hb.
      * cbn [List.removelast List.map]. rewrite app_nil_r. reflexivity.
      * rewrite flush_fill_started;
          [| exact Hm | apply Hwf; [left; reflexivity | exact Hm]].
        cbn [List.removelast List.map]. rewrite <- app_assoc. reflexivity.
    + destruct (step_body worktrees current line (bodyOf lines) Hm)
        as (current' & Hstep & Hfill).
      rewrite Hstep, IH, Hfill. reflexivity.
Qed.

(** On any input, also one that git would not print: the records of
    the blocks whose marker carries a path. *)
Lemma flush_loop_any (lines : list string) :
  forall worktrees current,
    flush (loop lines (worktrees, current))
    = (flush (worktrees, fill current (bodyOf lines))
       ++ List.map recordOf (List.filter carriesPath (blocks lines)))%list.
Proof.
  induction lines as [|line lines IH]; intros worktrees current.
  - cbn [loop List.fold_left bodyOf blocks List.map List.filter].
    rewrite fill_nil, app_nil_r. reflexivity.
  - rewrite loop_cons. cbn [bodyOf blocks].
    destruct (isMarker line) eqn:Hm.
    + unfold step at 1. unfold isMarker in Hm. rewrite Hm.
      rewrite IH, fill_nil. cbn [List.filter].
      change (carriesPath (line, bodyOf lines))
        with (truthy (Some (Str.drop 9 line))).
      unfold flush at 1.
      replace (wt_path (fill (started (Str.drop 9 line)) (bodyOf lines)))
        with (Some (Str.drop 9 line)) by reflexivity.
      destruct (truthy (Some (Str.drop 9 line))).
      * rewrite fill_started. cbn [List.map]. rewrite <- app_assoc. reflexivity.
      * reflexivity.
    + destruct (step_body worktrees current line (bodyOf lines) Hm)
        as (current' & Hstep & Hfill).
      rewrite Hstep, IH, Hfill. reflexivity.
Qed.

Lemma parseLines_any (lines : list string) :
  parseLines lines = List.map recordOf (List.filter carriesPath (blocks lines)).
Proof. unfold parseLines. rewrite flush_loop_any. reflexivity. Qed.

Lemma length_blocks (lines : list string) :
  List.length (blocks lines) = count lines.
Proof.
  unfold count. induction lines as [|line lines IH]; [reflexivity|].
  cbn [blocks List.filter]. destruct (isMarker line); cbn [List.length]; congruence.
Qed.

Lemma parseLines_blocks (lines : list string) :
  wellFormed lines -> parseLines lines = List.map recordOf (blocks lines).
Proof.
  intros Hwf. unfold parseLines. rewrite (flush_loop Hwf). reflexivity.
Qed.

Lemma bodyOf_body (body rest : list string) :
  List.forallb (fun l => negb (isMarker l)) body = true ->
  match rest with [] => True | m :: _ => isMarker m = true end ->
  bodyOf (body ++ rest) = body.
Proof.
  intros Hb Hr. induction body as [|l body IH]; cbn [app bodyOf].
  - destruct rest as [|m rest]; [reflexivity|]. cbn [bodyOf]. rewrite Hr. reflexivity.
  - cbn [List.forallb] in Hb. apply andb_true_iff in Hb. destruct Hb as [Hl Hb].
    apply negb_true_iff in Hl. rewrite Hl, (IH Hb). reflexivity.
Qed.

Lemma blocks_body (body rest : list string) :
  List.forallb (fun l => negb (isMarker l)) body = true ->
  blocks (body ++ rest) = blocks rest.
Proof.
  intros Hb. induction body as [|l body IH]; [reflexivity|].
  cbn [List.forallb] in Hb. apply andb_true_iff in Hb. destruct Hb as [Hl Hb].
  apply negb_true_iff in Hl. cbn [app blocks]. rewrite Hl. exact (IH Hb).
Qed.

(** Two consecutive blocks. *)
Lemma blocks_two (m1 m2 : string) (body1 body2 : list string) :
  isMarker m1 = true -> isMarker m2 = true ->
  List.forallb (fun l => negb (isMarker l)) body1 = true ->
  List.forallb (fun l => negb (isMarker l)) body2 = true ->
  blocks (m1 :: body1 ++ m2 :: body2) = [(m1, body1); (m2, body2)].
Proof.
  intros H1 H2 Hb1 Hb2. cbn [blocks]. rewrite H1.
  rewrite (bodyOf_body body1 (m2 :: body2) Hb1 H2).
  rewrite (blocks_body body1 (m2 :: body2) Hb1).
  cbn [blocks]. rewrite H2.
  rewrite <- (app_nil_r body2) at 1.
  rewrite (bodyOf_body body2 [] Hb2 I).
  rewrite <- (app_nil_r body2) at 2.
  rewrite (blocks_body body2 [] Hb2). reflexivity.
Qed.

End PorcelainFacts.

(* ================================================================== *)
(** * The command runner and the thin queries *)
(* ================================================================== *)

Module ExecFacts.
Import ProgFacts.

Local Open Scope prog_scope.

Lemma exitCode_resultOf (o : ExecaOutcome) :
  exitCode (ExecUtils.resultOf o) = ExecUtils.exitStatus o.
Proof. destruct o; reflexivity. Qed.

Lemma interp_run (host : Host) past command args cwd :
  interp host past (ExecUtils.run command args cwd)
  = (Ok (ExecUtils.resultOf (host _ past (Execa command args cwd))),
     [Ev (Execa command args cwd) (host _ past (Execa command args cwd))]).
Proof. reflexivity. Qed.

Lemma interp_runOrThrow (host : Host) past command args cwd :
  interp host past (ExecUtils.runOrThrow command args cwd)
  = (let result := ExecUtils.resultOf (host _ past (Execa command args cwd)) in
     if negb (Z.eqb (exitCode result) 0)
     then Err (ExecUtils.commandFailed command args result)
     else Ok (stdout result),
     [Ev (Execa command args cwd) (host _ past (Execa command args cwd))]).
Proof.
  unfold ExecUtils.runOrThrow. rewrite interp_bind, interp_run. cbn zeta.
  destruct (negb _); reflexivity.
Qed.

Lemma runOrThrow_fails (host : Host) past command args cwd :
  ExecUtils.exitStatus (host _ past (Execa command args cwd)) <> 0%Z ->
  interp host past (ExecUtils.runOrThrow command args cwd)
  = (Err (ExecUtils.commandFailed command args
            (ExecUtils.resultOf (host _ past (Execa command args cwd)))),
     [Ev (Execa command args cwd) (host _ past (Execa command args cwd))]).
Proof.
  intros H. rewrite interp_runOrThrow. cbn zeta.
  rewrite exitCode_resultOf. apply Z.eqb_neq in H. rewrite H. reflexivity.
Qed.

(** A query of the form [try { await runOrThrow(..); return true }
    catch { return false }]. *)
Lemma interp_probe (host : Host) past command args cwd :
  interp host past
    (tryCatch (_ <- ExecUtils.runOrThrow command args cwd ;; Ret true)
              (fun _ => Ret false))
  = (Ok (Z.eqb (ExecUtils.exitStatus (host _ past (Execa command args cwd))) 0),
     [Ev (Execa command args cwd) (host _ past (Execa command args cwd))]).
Proof.
  rewrite interp_tryCatch, interp_bind, interp_runOrThrow. cbn zeta.
  rewrite exitCode_resultOf.
  destruct (Z.eqb _ 0); reflexivity.
Qed.

(** [ExecUtils.exists] answers [true] whatever [which] reports. *)
Lemma interp_exists (host : Host) past command :
  interp host past (ExecUtils.exists_ command)
  = (Ok true, [Ev (Execa "which" [command] None)
                  (host _ past (Execa "which" [command] None))]).
Proof. reflexivity. Qed.

End ExecFacts.

(* ================================================================== *)
(** * Existence checks, availability, removal *)
(* ================================================================== *)

Import ProgFacts ExecFacts.

Lemma outcomeOf_probe (host : Host) past command args cwd :
  outcomeOf host past
    (tryCatch (_ <- ExecUtils.runOrThrow command args cwd ;; Ret true)%prog
              (fun _ => Ret false))
  = Ok (Z.eqb (ExecUtils.exitStatus (host _ past (Execa command args cwd))) 0).
Proof. unfold outcomeOf. rewrite interp_probe. reflexivity. Qed.

Lemma interp_listWorktrees (host : Host) past cwd :
  let listing := Execa "git" ["worktree"; "list"; "--porcelain"] (Some cwd) in
  interp host past (listWorktrees cwd)
  = (let result := ExecUtils.resultOf (host _ past listing) in
     if negb (Z.eqb (exitCode result) 0)
     then Err (wrapError GitError "Failed to list worktrees: "
                 (ExecUtils.commandFailed "git"
                    ["worktree"; "list"; "--porcelain"] result))
     else Ok (Porcelain.parse (stdout result)),
     [Ev listing (host _ past listing)]).
Proof.
  cbn zeta. unfold listWorktrees.
  rewrite interp_tryCatch, interp_bind, interp_runOrThrow. cbn zeta.
  destruct (negb _); reflexivity.
Qed.

Lemma interp_getRequest_fails (P : Platform) (host : Host) past cwd provider number :
  (forall past', ExecUtils.exitStatus
                   (host _ past' (Execa (cli provider)
                                    (viewArgs provider (Str.ofZ number)) (Some cwd)))
                 <> 0%Z) ->
  exists e evs, interp host past (getRequest P cwd provider number) = (Err e, evs)
                /\ errClass e = providerError provider.
Proof.
  intros Hfail. unfold getRequest, isAvailable.
  rewrite interp_bind, interp_exists. cbn [negb].
  rewrite interp_tryCatch, interp_bind, runOrThrow_fails by apply Hfail.
  cbn. eexists. eexists. split; reflexivity.
Qed.

(** The existence checks that have a handler never raise, whatever the
    host does. *)
Lemma existence_checks_total (P : Platform) (host : Host) past cwd :
  (forall branch, exists b, outcomeOf host past (branchExists cwd branch) = Ok b)
  /\ (forall branch remote,
         exists b, outcomeOf host past (remoteBranchExists cwd branch remote) = Ok b)
  /\ (forall provider number,
         exists b, outcomeOf host past (requestExists P cwd provider number) = Ok b).
Proof.
  repeat split.
  - intros. unfold branchExists. rewrite outcomeOf_probe. eexists; reflexivity.
  - intros. unfold remoteBranchExists. rewrite outcomeOf_probe. eexists; reflexivity.
  - intros. unfold requestExists, outcomeOf. rewrite interp_tryCatch, interp_bind.
    destruct (interp host past (getRequest P cwd provider number)) as [[a | e] evs].
    + eexists; reflexivity.
    + eexists; reflexivity.
Qed.

(** C5 (amended). When the external command they run exits non-zero,
    [branchExists], [remoteBranchExists] and the hosting check return
    [false]; [worktreeExists] has no handler of its own and raises the
    [GitError] of the listing, which wraps the failure of the command.
    The first three never raise, whatever the host does. *)
Theorem existence_checks_on_failure :
  forall (P : Platform) (host : Host) (past : list Event) (cwd : string),
    (forall branch,
        ExecUtils.exitStatus
          (host _ past (Execa "git" ["show-ref"; "--verify"; "--quiet";
                                     "refs/heads/" ++ branch] (Some cwd))) <> 0%Z ->
        outcomeOf host past (branchExists cwd branch) = Ok false)
    /\ (forall branch remote,
        ExecUtils.exitStatus
          (host _ past (Execa "git" ["show-ref"; "--verify"; "--quiet";
                                     "refs/remotes/" ++ remote ++ "/" ++ branch]
                          (Some cwd))) <> 0%Z ->
        outcomeOf host past (remoteBranchExists cwd branch remote) = Ok false)
    /\ (forall provider number,
        (forall past',
            ExecUtils.exitStatus
              (host _ past' (Execa (cli provider)
                               (viewArgs provider (Str.ofZ number)) (Some cwd)))
            <> 0%Z) ->
        outcomeOf host past (requestExists P cwd provider number) = Ok false)
    /\ (forall path,
        ExecUtils.exitStatus
          (host _ past (Execa "git" ["worktree"; "list"; "--porcelain"] (Some cwd)))
        <> 0%Z ->
        exists cause,
          errClass cause = KWTError "EXEC_ERROR"
          /\ outcomeOf host past (worktreeExists P cwd path)
             = Err (wrapError GitError "Failed to list worktrees: " cause))
    /\ (forall branch remote provider number,
           exists b1 b2 b3,
             outcomeOf host past (branchExists cwd branch) = Ok b1
             /\ outcomeOf host past (remoteBranchExists cwd branch remote) = Ok b2
             /\ outcomeOf host past (requestExists P cwd provider number) = Ok b3).
Proof.
  intros P host past cwd.
  split; [|split; [|split; [|split]]].
  - intros branch H. unfold branchExists. rewrite outcomeOf_probe.
    apply Z.eqb_neq in H. rewrite H. reflexivity.
  - intros branch remote H. unfold remoteBranchExists. rewrite outcomeOf_probe.
    apply Z.eqb_neq in H. rewrite H. reflexivity.
  - intros provider number H. unfold requestExists, outcomeOf.
    rewrite interp_tryCatch, interp_bind.
    destruct (interp_getRequest_fails P host past cwd provider number H)
      as (e & evs & E & _).
    rewrite E. reflexivity.
  - intros path H. eexists. split; [|].
    2:{ unfold worktreeExists, outcomeOf. rewrite interp_bind, interp_listWorktrees.
        cbn zeta. rewrite exitCode_resultOf.
        apply Z.eqb_neq in H. rewrite H. reflexivity. }
    reflexivity.
  - intros branch remote provider number.
    destruct (existence_checks_total P host past cwd) as (T1 & T2 & T3).
    destruct (T1 branch) as [b1 E1]. destruct (T2 branch remote) as [b2 E2].
    destruct (T3 provider number) as [b3 E3].
    exists b1, b2, b3. auto.
Qed.

(** C6, at the code: [isGlabAvailable] and [isGhAvailable] run [which]
    and answer [true] whatever it reports, so they do not tell whether
    the binary can be found: [ExecUtils.run] turns every rejection of the
    process into a result, nothing reaches the [catch] of
    [ExecUtils.exists], and the exit status is not looked at. *)
Theorem isAvailable_ignores_which :
  forall (host : Host) (past : list Event) (provider : Provider),
    outcomeOf host past (isAvailable provider) = Ok true
    /\ List.map performed (eventsOf host past (isAvailable provider))
       = [existT _ _ (Execa "which" [cli provider] None)]
    /\ (forall command args cwd,
           outcomeOf host past (ExecUtils.run command args cwd)
           = Ok (ExecUtils.resultOf (host _ past (Execa command args cwd))))
    /\ (forall command, outcomeOf host past (ExecUtils.exists_ command) = Ok true).
Proof.
  intros host past provider.
  split; [|split; [|split]].
  - unfold isAvailable, outcomeOf. rewrite interp_exists. reflexivity.
  - unfold isAvailable, eventsOf. rewrite interp_exists. reflexivity.
  - intros command args cwd. unfold outcomeOf. rewrite interp_run. reflexivity.
  - intros command. unfold outcomeOf. rewrite interp_exists. reflexivity.
Qed.


Lemma existence_checks_on_failure_witness :
  outcomeOf Sample.hostBroken [] (branchExists "/repo" "feature-x") = Ok false
  /\ outcomeOf Sample.hostBroken [] (remoteBranchExists "/repo" "feature-x" "origin")
     = Ok false
  /\ outcomeOf Sample.hostBroken [] (requestExists Sample.platform "/repo" gitlab 7)
     = Ok false.
Proof.
  destruct (existence_checks_on_failure Sample.platform Sample.hostBroken [] "/repo")
    as (H1 & H2 & H3 & _ & _).
  split; [apply H1; vm_compute; discriminate|].
  split; [apply H2; vm_compute; discriminate|].
  apply H3. intros past'. vm_compute. discriminate.
Defined.

(** C5 as stated fails for [worktreeExists]: the listing command exits
    with status 128 and the check raises the [GitError] of the listing. *)
Lemma worktreeExists_raises_listing_failure :
  ExecUtils.exitStatus
    (@Sample.hostBroken _ []
       (Execa "git" ["worktree"; "list"; "--porcelain"] (Some "/repo")))
  = 128%Z
  /\ outcomeOf Sample.hostBroken []
       (worktreeExists Sample.platform "/repo" "/worktrees/feature-x")
     = Err (wrapError GitError "Failed to list worktrees: "
              (ExecUtils.commandFailed "git" ["worktree"; "list"; "--porcelain"]
                 (mkExecResult "" "fatal: not a git repository" 128))).
Proof. split; reflexivity. Qed.

(** C6, at an environment without the binary: [which glab] exits with
    status 1 and [isGlabAvailable] answers [true]. *)
Lemma isAvailable_without_binary :
  ExecUtils.exitStatus (@Sample.hostBroken _ [] (Execa "which" ["glab"] None)) = 1%Z
  /\ outcomeOf Sample.hostBroken [] (isAvailable gitlab) = Ok true.
Proof. split; reflexivity. Qed.


(* ================================================================== *)
(** * The repository name, the worktree name, the listing *)
(* ================================================================== *)

Import UrlShape.

Lemma extractRepoName_ssh host group name dotGit :
  sshHost host -> groupOk group -> nameOk name dotGit ->
  extractRepoName (sshUrl "git" host group name dotGit) = Ok name.
Proof.
  intros Hh Hg Hn. unfold extractRepoName.
  change (sshUrl "git" host group name dotGit)
    with ("git@" ++ (host ++ String ":"
            (groupPart group ++ name ++ gitSuffix dotGit))) at 1.
  rewrite StrFacts.startsWith_app.
  rewrite (@UrlFacts.exec_ssh host group name dotGit Hh Hg Hn). reflexivity.
Qed.

Lemma extractRepoName_http secure host group name dotGit trailingSlash :
  httpHost host -> groupOk group -> nameOk name dotGit ->
  extractRepoName (httpUrl secure host group name dotGit trailingSlash) = Ok name.
Proof.
  intros Hh Hg Hn. unfold extractRepoName.
  assert (H1 : Str.startsWith "git@"
                 (httpUrl secure host group name dotGit trailingSlash) = false)
    by reflexivity.
  assert (H2 : Str.startsWith "http"
                 (httpUrl secure host group name dotGit trailingSlash) = true)
    by apply StrFacts.startsWith_app.
  rewrite H1, H2.
  rewrite (@UrlFacts.exec_http secure host group name dotGit trailingSlash Hh Hg Hn).
  reflexivity.
Qed.

(** Every failure of [extractRepoName] is a [GitError]. *)
Lemma extractRepoName_failure url e :
  extractRepoName url = Err e -> errClass e = GitError.
Proof.
  unfold extractRepoName.
  destruct (Str.startsWith "git@" url).
  - destruct (truthyGroup 2 _); [discriminate|]. intros [= <-]. reflexivity.
  - destruct (Str.startsWith "http" url).
    + destruct (truthyGroup 2 _); [discriminate|]. intros [= <-]. reflexivity.
    + intros [= <-]. reflexivity.
Qed.

(** C3 (amended). For a URL [git@host:[group/]name[.git]], whose user is
    literally [git], and for a URL [http(s)://host/[group/]name[.git][/]],
    [extractRepoName] returns the final path segment without the optional
    [.git]; a URL that starts neither with [git@] nor with [http] (another
    SSH user, [ftp://]) fails, and every failure is a [GitError]. *)
Theorem extractRepoName_shapes :
  forall (group : option string) (name : string) (dotGit : bool),
    groupOk group -> nameOk name dotGit ->
    (forall host,
        sshHost host ->
        extractRepoName (sshUrl "git" host group name dotGit) = Ok name)
    /\ (forall secure host trailingSlash,
           httpHost host ->
           extractRepoName (httpUrl secure host group name dotGit trailingSlash)
           = Ok name)
    /\ extractRepoName "git@github.com:user/repo.git" = Ok "repo"
    /\ extractRepoName "https://gitlab.com/user/awesome-project.git"
       = Ok "awesome-project"
    /\ extractRepoName "https://github.com/org/awesome-tool" = Ok "awesome-tool"
    /\ (forall url,
           Str.startsWith "git@" url = false -> Str.startsWith "http" url = false ->
           extractRepoName url
           = Err (MkError GitError ("Unsupported git URL format: " ++ url) None))
    /\ extractRepoName "ftp://example.com/repo"
       = Err (MkError GitError
                "Unsupported git URL format: ftp://example.com/repo" None)
    /\ (forall url e, extractRepoName url = Err e -> errClass e = GitError).
Proof.
  intros group name dotGit Hg Hn.
  split; [intros; apply extractRepoName_ssh; assumption|].
  split; [intros; apply extractRepoName_http; assumption|].
  split; [vm_compute; reflexivity|].
  split; [vm_compute; reflexivity|].
  split; [vm_compute; reflexivity|].
  split.
  - intros url H1 H2. unfold extractRepoName. rewrite H1, H2. reflexivity.
  - split; [vm_compute; reflexivity|]. apply extractRepoName_failure.
Qed.

Lemma extractRepoName_shapes_witness :
  extractRepoName (sshUrl "git" "gitlab.com" (Some "team") "my-project" false)
  = Ok "my-project"
  /\ extractRepoName (httpUrl false "example.org:8080" None "tool" true true)
     = Ok "tool".
Proof.
  assert (Hh1 : sshHost "gitlab.com") by (split; [discriminate | reflexivity]).
  assert (Hg1 : groupOk (Some "team")) by (split; [discriminate | reflexivity]).
  assert (Hn1 : nameOk "my-project" false).
  { split; [split; [discriminate | reflexivity]|].
    intros _ x Hx E. symmetry in E. RegexAux.string_inv E x. }
  assert (Hh2 : httpHost "example.org:8080") by (split; [discriminate | reflexivity]).
  assert (Hn2 : nameOk "tool" true).
  { split; [split; [discriminate | reflexivity]|]. intros H; discriminate H. }
  split.
  - exact (proj1 (@extractRepoName_shapes (Some "team") "my-project" false Hg1 Hn1)
             "gitlab.com" Hh1).
  - exact (proj1 (proj2 (@extractRepoName_shapes None "tool" true I Hn2))
             false "example.org:8080" true Hh2).
Defined.

(** C3 as stated fails for an SSH user other than [git]: the URL has the
    SSH shape and is rejected as unsupported. *)
Lemma extractRepoName_other_user :
  sshHost "example.com" /\ groupOk (Some "team") /\ nameOk "repo" true
  /\ sshUrl "deploy" "example.com" (Some "team") "repo" true
     = "deploy@example.com:team/repo.git"
  /\ extractRepoName (sshUrl "deploy" "example.com" (Some "team") "repo" true)
     = Err (MkError GitError
              "Unsupported git URL format: deploy@example.com:team/repo.git" None).
Proof.
  split; [split; [discriminate | reflexivity]|].
  split; [split; [discriminate | reflexivity]|].
  split; [split; [split; [discriminate | reflexivity] | intros H; discriminate H]|].
  split; reflexivity.
Qed.

Import ProgFacts ExecFacts.

(** C4. On the change request that the hosting CLI returns,
    [generateWorktreeName] yields the source branch with every character
    outside [[A-Za-z0-9_-]] replaced by a dash, the runs of dashes
    collapsed and the dashes at both ends removed, or [mr-<id>] ([pr-<id>]
    for the other provider) when fewer than two characters are left,
    [<id>] being the decimal numeral of the number of the request. The
    number is a safe integer, as the number of a request is: these are
    the numbers that the template literal prints in plain digits. *)
Theorem generateWorktreeName_derivation :
  forall (P : Platform) (host : Host) (past : list Event) (cwd : string)
         (provider : Provider) (number : Z) (request : json) (branch : string)
         (events : list Event),
    Num.isSafeInteger number = true ->
    interp host past (getRequest P cwd provider number) = (Ok request, events) ->
    getField (branchField provider) request = Some (JStr branch) ->
    (exists name,
        outcomeOf host past (generateWorktreeName P cwd provider number) = Ok name
        /\ NameSpec.isWorktreeName (fallbackPrefix provider) branch number name)
    /\ outcomeOf host past (generateWorktreeName P cwd provider number)
       = Ok (NameSpec.deriveWorktreeName (fallbackPrefix provider) branch number)
    /\ fallbackPrefix gitlab = "mr" /\ fallbackPrefix github = "pr"
    /\ NameSpec.isWorktreeName (fallbackPrefix provider) "feature/ABC-123_fix!!"
         number "feature-ABC-123_fix"
    /\ (forall name,
           NameSpec.isWorktreeName (fallbackPrefix provider) "!" number name ->
           exists numeral,
             Numeral.value numeral = Some number
             /\ name = fallbackPrefix provider ++ "-" ++ numeral).
Proof.
  intros P host past cwd provider number request branch events
         Hsafe Hget Hbranch.
  assert (Hrun : outcomeOf host past (generateWorktreeName P cwd provider number)
                 = Ok (NameSpec.deriveWorktreeName (fallbackPrefix provider)
                         branch number)).
  { unfold outcomeOf, generateWorktreeName.
    rewrite interp_bind, Hget, interp_bind.
    unfold branchOf, getProp.
    destruct request; try discriminate Hbranch;
      cbn [bind interp]; rewrite Hbranch; cbn [interp fst];
      rewrite NameFacts.worktreeNameOf_spec; reflexivity. }
  split; [|split; [exact Hrun|repeat split]].
  - eexists. split; [exact Hrun|].
    unfold NameSpec.isWorktreeName, NameSpec.deriveWorktreeName.
    destruct (Nat.ltb (String.length (NameSpec.sanitize branch)) 2);
      [|reflexivity].
    exists (Str.ofZ number). split; [apply NumeralFacts.value_ofZ|reflexivity].
  - intros name H. exact H.
Qed.

Lemma generateWorktreeName_derivation_witness :
  outcomeOf Sample.host [] (generateWorktreeName Sample.platform "/repo" gitlab 7)
  = Ok "feature-ABC-123_fix"
  /\ outcomeOf Fallback.host []
       (generateWorktreeName Fallback.platform "/repo" gitlab 42)
     = Ok "mr-42"
  /\ Numeral.value "42" = Some 42%Z.
Proof.
  split; [|split; [|reflexivity]].
  - exact (proj1 (proj2
             (@generateWorktreeName_derivation Sample.platform Sample.host []
                "/repo" gitlab 7%Z Sample.mr "feature/ABC-123_fix!!"
                (snd (interp Sample.host []
                        (getRequest Sample.platform "/repo" gitlab 7)))
                eq_refl eq_refl eq_refl))).
  - exact (proj1 (proj2
             (@generateWorktreeName_derivation Fallback.platform Fallback.host []
                "/repo" gitlab 42%Z Fallback.mr "!"
                (snd (interp Fallback.host []
                        (getRequest Fallback.platform "/repo" gitlab 42)))
                eq_refl eq_refl eq_refl))).
Defined.

Import Porcelain PorcelainSpec PorcelainAux.

(** C7. On a porcelain listing, the parser yields one record per line
    that starts with the path marker; the fields of a record come from
    the lines between its marker and the next one or the end of the
    input; a record is in the list only once the next marker or the end
    of the input has been read; two consecutive blocks give two records. *)
Theorem listWorktrees_parser_blocks :
  forall (output : string),
    wellFormed (linesOf output) ->
    Porcelain.parse output = List.map recordOf (blocks (linesOf output))
    /\ List.length (Porcelain.parse output) = count (linesOf output)
    /\ (forall pre post,
           linesOf output = (pre ++ post)%list ->
           loop (linesOf output) ([], empty) = loop post (loop pre ([], empty))
           /\ fst (loop pre ([], empty))
              = List.map recordOf (List.removelast (blocks pre)))
    /\ (forall m1 body1 m2 body2,
           isMarker m1 = true -> isMarker m2 = true ->
           List.forallb (fun l => negb (isMarker l)) body1 = true ->
           List.forallb (fun l => negb (isMarker l)) body2 = true ->
           linesOf output = (m1 :: body1 ++ m2 :: body2)%list ->
           Porcelain.parse output = [recordOf (m1, body1); recordOf (m2, body2)]).
Proof.
  intros output Hwf.
  assert (Hparse : Porcelain.parse output
                   = List.map recordOf (blocks (linesOf output)))
    by (apply PorcelainFacts.parseLines_blocks; exact Hwf).
  split; [exact Hparse|]. split; [|split].
  - rewrite Hparse, List.length_map. apply PorcelainFacts.length_blocks.
  - intros pre post E. split.
    + rewrite E. unfold loop. apply List.fold_left_app.
    + rewrite E in Hwf. apply PorcelainFacts.wellFormed_app_l in Hwf.
      rewrite (PorcelainFacts.fst_loop Hwf).
      destruct (blocks pre); reflexivity.
  - intros m1 body1 m2 body2 H1 H2 Hb1 Hb2 E.
    rewrite Hparse, E, (PorcelainFacts.blocks_two m1 m2 body1 body2 H1 H2 Hb1 Hb2).
    reflexivity.
Qed.

Lemma listWorktrees_parser_blocks_witness :
  Porcelain.parse Sample.listing
  = [ mkGitWorktree (Some "/repo") (Some "refs/heads/main") (Some "1111111")
        None None;
      mkGitWorktree (Some "/worktrees/review") None (Some "2222222")
        None (Some true) ].
Proof.
  assert (Hwf : wellFormed (linesOf Sample.listing)).
  { intros line Hin _ E. subst line. vm_compute in Hin.
    repeat (destruct Hin as [Hin | Hin]; [discriminate Hin|]). exact Hin. }
  rewrite (proj1 (listWorktrees_parser_blocks Sample.listing Hwf)).
  reflexivity.
Defined.

(* ================================================================== *)
(** * Loading and saving the configuration *)
(* ================================================================== *)

Module ConfigFacts.
Import ProgFacts ConfigAux.

Lemma interp_loadConfigFile (host : Host) past path :
  interp host past (loadConfigFile path)
  = (Ok (fst (readConfig host past path)), snd (readConfig host past path)).
Proof.
  unfold loadConfigFile, readConfig, fileConfig. cbn [fst snd].
  rewrite interp_tryCatch. cbn [perform bind interp].
  destruct (host bool past (ExistsSync path)) eqn:Hthere; cbn [negb interp app].
  - destruct (host LoadOutcome _ (CosmiconfigLoad path)) as [e | | [v|]] eqn:Hload;
      cbn [bind interp ofResult ConfigSchema_parse app]; try reflexivity.
    destruct (ConfigSchema v); reflexivity.
  - reflexivity.
Qed.

Lemma interp_loadConfig_fresh (P : Platform) (host : Host) past cwd :
  let g := readConfig host past (globalConfigPath P) in
  let l := readConfig host (past ++ snd g)%list
             (localConfigPath P (newConfigManager cwd)) in
  interp host past (loadConfig P (newConfigManager cwd))
  = (Ok (mergeConfigs (fst g) (fst l),
         mkConfigManager cwd (fst l) (fst g)
           (Some (mergeConfigs (fst g) (fst l)))),
     (snd g ++ snd l)%list).
Proof.
  cbn zeta. unfold loadConfig. cbn [mergedConfig newConfigManager].
  unfold loadGlobalConfig, loadLocalConfig.
  rewrite interp_bind, interp_loadConfigFile.
  rewrite interp_bind, interp_loadConfigFile.
  cbn [interp cm_cwd]. rewrite !app_nil_r. reflexivity.
Qed.

Lemma loadConfig_total (P : Platform) (host : Host) past m :
  exists r, outcomeOf host past (loadConfig P m) = Ok r.
Proof.
  unfold outcomeOf, loadConfig. destruct (mergedConfig m) as [c|].
  - eexists. reflexivity.
  - unfold loadGlobalConfig, loadLocalConfig.
    rewrite interp_bind, interp_loadConfigFile.
    rewrite interp_bind, interp_loadConfigFile.
    eexists. reflexivity.
Qed.

(** ** What [ConfigSchema] makes of a well-typed partial configuration *)

Lemma all_strings (l : list string) : Zod.all Zod.string_ (List.map JStr l) = Some l.
Proof. induction l as [|s l IH]; cbn; [|rewrite IH]; reflexivity. Qed.

Lemma schema_postCommand (pc : PostCommand) :
  PostCommandSchema (PostCommand_toJson pc) = Some pc.
Proof.
  destruct pc as [l cs]. unfold PostCommandSchema, PostCommand_toJson.
  cbn. rewrite all_strings. reflexivity.
Qed.

Lemma all_postCommands (l : list PostCommand) :
  Zod.all PostCommandSchema (List.map PostCommand_toJson l) = Some l.
Proof.
  induction l as [|pc l IH]; [reflexivity|].
  cbn [List.map Zod.all]. rewrite schema_postCommand, IH. reflexivity.
Qed.

Lemma schema_prefixType (p : PrefixType) :
  PrefixTypeSchema (JStr (PrefixType_toString p)) = Some p.
Proof. destruct p; reflexivity. Qed.

Lemma schema_partial (cfg : PartialConfig) :
  ConfigSchema (PartialConfig_toJson cfg) = Some (withDefaults cfg).
Proof.
  destruct cfg as [[p|] [mp|] [wd|] [pcs|]];
    unfold ConfigSchema, PartialConfig_toJson, withDefaults;
    cbn [p_prefixType p_manualPrefix p_worktreeDir p_postCommands optField app
         lookupField String.eqb Ascii.eqb Bool.eqb
         Zod.default Zod.optional Zod.string_ Zod.array nullish];
    rewrite ?schema_prefixType, ?all_postCommands; reflexivity.
Qed.

Lemma interp_saveLocalConfig (P : Platform) (host : Host) past m cfg :
  let path := localConfigPath P m in
  let content := JsonText (Config_toJson (withDefaults cfg)) in
  outcomeOf host past (saveLocalConfig P m (PartialConfig_toJson cfg))
  = match host _ past (WriteFileSync path content) with
    | None =>
        Ok (mkConfigManager (cm_cwd m) (Some (withDefaults cfg)) (globalConfig m)
              (Some (mergeConfigs (globalConfig m) (Some (withDefaults cfg)))))
    | Some e =>
        Err (MkError ConfigError
               ("Failed to save local config: " ++ messageOf e) None)
    end.
Proof.
  cbn zeta. unfold outcomeOf, saveLocalConfig, ConfigSchema_parse.
  rewrite schema_partial, interp_tryCatch.
  cbn [ofResult bind writeFile perform interp].
  destruct (host (option JsError) past _) as [e|]; reflexivity.
Qed.

End ConfigFacts.

Import ConfigAux.

(** C2 (amended). [loadConfig] never fails, and in particular never with
    [ConfigError]: a file that is missing, that cannot be loaded or whose
    content does not validate against the schema contributes nothing, so
    that the merged result holds defaults in its place. *)
Theorem loadConfig_never_fails :
  forall (P : Platform) (host : Host) (past : list Event) (cwd : string),
    (forall m, exists r, outcomeOf host past (loadConfig P m) = Ok r)
    /\ (let g := readConfig host past (globalConfigPath P) in
        let l := readConfig host (past ++ snd g)%list
                   (localConfigPath P (newConfigManager cwd)) in
        outcomeOf host past (loadConfig P (newConfigManager cwd))
        = Ok (mergeConfigs (fst g) (fst l),
              mkConfigManager cwd (fst l) (fst g)
                (Some (mergeConfigs (fst g) (fst l)))))
    /\ (forall loaded, fileConfig false loaded = None)
    /\ (forall v, ConfigSchema v = None -> fileConfig true (Loaded (Some v)) = None)
    /\ (forall e, fileConfig true (LoadThrows e) = None)
    /\ mergeConfigs None None = defaultConfig.
Proof.
  intros P host past cwd. split; [|split; [|repeat split]].
  - intros m. apply ConfigFacts.loadConfig_total.
  - cbn zeta. unfold outcomeOf. rewrite ConfigFacts.interp_loadConfig_fresh.
    reflexivity.
  - intros v Hv. unfold fileConfig. exact Hv.
Qed.

Lemma loadConfig_never_fails_witness :
  fileConfig true (Loaded (Some Sample.badConfig)) = None.
Proof.
  exact (proj1 (proj2 (proj2 (proj2
           (loadConfig_never_fails Sample.platform Sample.host [] "/repo"))))
           Sample.badConfig eq_refl).
Defined.

(** C2 as stated fails: a local file is there, its content does not
    validate, and [loadConfig] returns the defaults. *)
Lemma loadConfig_invalid_file_no_error :
  @Sample.hostBadLocal _ [] (ExistsSync "/repo/.kwt") = true
  /\ (exists e, ConfigSchema_parse (Some Sample.badConfig) = Err e)
  /\ outcomeOf Sample.hostBadLocal []
       (loadConfig Sample.platform (newConfigManager "/repo"))
     = Ok (defaultConfig,
           mkConfigManager "/repo" None None (Some defaultConfig)).
Proof.
  split; [reflexivity|]. split; [eexists; reflexivity|]. reflexivity.
Qed.

(** C8 (amended). After a successful [saveLocalConfig(cfg)], [loadConfig]
    on the same manager returns [cfg] with the defaults for the fields it
    omits, except that an omitted [manualPrefix] is the one of the global
    configuration the manager holds, when it holds one that defines it;
    on a manager that holds no global configuration the result is exactly
    [cfg] with the defaults. *)
Theorem saveLocal_then_loadConfig :
  forall (P : Platform) (host : Host) (past past' : list Event)
         (m m' : ConfigManager) (cfg : PartialConfig),
    outcomeOf host past (saveLocalConfig P m (PartialConfig_toJson cfg)) = Ok m' ->
    exists c,
      outcomeOf host past' (loadConfig P m') = Ok (c, m')
      /\ prefixType c = nullish (p_prefixType cfg) PrefixNone
      /\ worktreeDir c = nullish (p_worktreeDir cfg) default_worktreeDir
      /\ postCommands c = nullish (p_postCommands cfg) []
      /\ manualPrefix c
         = layeredOpt (bindOpt (globalConfig m) manualPrefix) (p_manualPrefix cfg)
      /\ (bindOpt (globalConfig m) manualPrefix = None \/ p_manualPrefix cfg <> None ->
          c = withDefaults cfg).
Proof.
  intros P host past past' m m' cfg Hsave.
  rewrite ConfigFacts.interp_saveLocalConfig in Hsave. cbn zeta in Hsave.
  destruct (host (option JsError) past _) as [e|]; [discriminate|].
  injection Hsave as <-.
  exists (mergeConfigs (globalConfig m) (Some (withDefaults cfg))).
  split; [reflexivity|].
  destruct cfg as [p mp wd pcs]. destruct (globalConfig m) as [[gp gmp gwd gpcs]|];
    cbn; repeat split; try (destruct mp; reflexivity).
  - destruct mp, gmp; reflexivity.
  - intros [H | H].
    + subst gmp. destruct mp; reflexivity.
    + destruct mp; [reflexivity | congruence].
Qed.

Lemma saveLocal_then_loadConfig_witness :
  exists c,
    outcomeOf Sample.host []
      (loadConfig Sample.platform
         (mkConfigManager "/repo"
            (Some (withDefaults (mkPartialConfig (Some PrefixManual) (Some "test-")
                                   (Some "./test-worktrees") (Some []))))
            None
            (Some (mergeConfigs None
                     (Some (withDefaults
                              (mkPartialConfig (Some PrefixManual) (Some "test-")
                                 (Some "./test-worktrees") (Some []))))))))
    = Ok (c, mkConfigManager "/repo"
               (Some (withDefaults (mkPartialConfig (Some PrefixManual) (Some "test-")
                                      (Some "./test-worktrees") (Some []))))
               None
               (Some (mergeConfigs None
                        (Some (withDefaults
                                 (mkPartialConfig (Some PrefixManual) (Some "test-")
                                    (Some "./test-worktrees") (Some [])))))))
    /\ c = mkConfig PrefixManual (Some "test-") "./test-worktrees" [].
Proof.
  destruct (@saveLocal_then_loadConfig Sample.platform Sample.host [] []
              (newConfigManager "/repo") _
              (mkPartialConfig (Some PrefixManual) (Some "test-")
                 (Some "./test-worktrees") (Some []))
              eq_refl) as (c & Hload & _ & _ & _ & _ & Heq).
  exists c. split; [exact Hload|].
  rewrite (Heq (or_introl eq_refl)). reflexivity.
Defined.

(** C8 as stated fails on a manager that has loaded a global
    configuration with a [manualPrefix]: saving a configuration that
    omits the field and loading again gives the global prefix, which is
    not a default. *)
Lemma saveLocal_roundtrip_inherits_global :
  outcomeOf Sample.hostGlobal []
    (loadConfig Sample.platform (newConfigManager "/repo"))
  = Ok (Sample.globalConfig, Sample.managerLoaded)
  /\ outcomeOf Sample.hostGlobal
       (eventsOf Sample.hostGlobal []
          (loadConfig Sample.platform (newConfigManager "/repo")))
       (saveLocalConfig Sample.platform Sample.managerLoaded
          (PartialConfig_toJson nothing))
     = Ok Sample.managerSaved
  /\ outcomeOf Sample.hostGlobal
       (eventsOf Sample.hostGlobal []
          (loadConfig Sample.platform (newConfigManager "/repo"))
        ++ eventsOf Sample.hostGlobal
             (eventsOf Sample.hostGlobal []
                (loadConfig Sample.platform (newConfigManager "/repo")))
             (saveLocalConfig Sample.platform Sample.managerLoaded
                (PartialConfig_toJson nothing)))%list
       (loadConfig Sample.platform Sample.managerSaved)
     = Ok (Sample.mergedAfterSave, Sample.managerSaved)
  /\ withDefaults nothing = defaultConfig
  /\ Sample.mergedAfterSave <> withDefaults nothing.
Proof.
  split; [reflexivity|]. split; [reflexivity|]. split; [reflexivity|].
  split; [reflexivity|]. discriminate.
Qed.

(* ================================================================== *)
(** * Dry runs *)
(* ================================================================== *)

Module DryRunFacts.
Import ProgFacts ExecFacts DryRun DryRunAux.

Local Open Scope prog_scope.

Ltac only_step :=
  match goal with
  | |- only _ (bind _ _) => apply only_bind
  | |- only _ (tryCatch _ _) => apply only_tryCatch
  | |- only _ (perform _) => apply only_perform; reflexivity
  | |- only _ (log _ _) => apply only_perform; reflexivity
  | |- only _ (Ret _) => constructor
  | |- only _ (Throw _) => constructor
  | |- only _ (ofResult _) => apply only_ofResult
  | |- only _ (forEach _ _) => apply only_forEach
  | |- only _ (if ?b then _ else _) => destruct b
  | |- only _ (match ?x with _ => _ end) => destruct x
  | |- forall _, _ => intros
  end.

Ltac only_auto := repeat only_step.

Lemma only_runOrThrow command args cwd :
  readOnly (Execa command args cwd) = true ->
  only readOnly (ExecUtils.runOrThrow command args cwd).
Proof.
  intros H. unfold ExecUtils.runOrThrow, ExecUtils.run.
  apply only_bind; [apply only_bind; [apply only_perform; exact H|]|]; only_auto.
Qed.

Lemma only_exists command : only readOnly (ExecUtils.exists_ command).
Proof. unfold ExecUtils.exists_, ExecUtils.run. only_auto. Qed.

Lemma only_isGitRepo cwd : only readOnly (isGitRepo cwd).
Proof.
  unfold isGitRepo. apply only_tryCatch; [apply only_bind|]; only_auto.
  apply only_runOrThrow. reflexivity.
Qed.

Lemma only_branchExists cwd branch : only readOnly (branchExists cwd branch).
Proof.
  unfold branchExists. apply only_tryCatch; [apply only_bind|]; only_auto.
  apply only_runOrThrow. reflexivity.
Qed.

Lemma only_listWorktrees cwd : only readOnly (listWorktrees cwd).
Proof.
  unfold listWorktrees. apply only_tryCatch; [apply only_bind|]; only_auto.
  apply only_runOrThrow. reflexivity.
Qed.

Lemma only_worktreeExists P cwd path : only readOnly (worktreeExists P cwd path).
Proof.
  unfold worktreeExists. apply only_bind; [apply only_listWorktrees|]. only_auto.
Qed.

Lemma only_findWorktreeByName cwd name : only readOnly (findWorktreeByName cwd name).
Proof.
  unfold findWorktreeByName. apply only_bind; [apply only_listWorktrees|]. only_auto.
Qed.

Lemma only_getRemotes cwd : only readOnly (getRemotes cwd).
Proof.
  unfold getRemotes. apply only_tryCatch; [apply only_bind|]; only_auto.
  apply only_runOrThrow. reflexivity.
Qed.

Lemma only_generatePrefix cwd : only readOnly (generatePrefix cwd).
Proof.
  unfold generatePrefix, getOriginUrl.
  apply only_bind; [apply only_bind; [apply only_getRemotes|]|]; only_auto.
Qed.

Lemma only_loadConfigFile path : only readOnly (loadConfigFile path).
Proof. unfold loadConfigFile. only_auto. Qed.

Lemma only_loadConfig P m : only readOnly (loadConfig P m).
Proof.
  unfold loadConfig, loadGlobalConfig, loadLocalConfig.
  destruct (mergedConfig m); [constructor|].
  apply only_bind; [apply only_loadConfigFile|]. intros.
  apply only_bind; [apply only_loadConfigFile|]. only_auto.
Qed.

Lemma only_initialize P cwd options : only readOnly (initialize P cwd options).
Proof.
  unfold initialize.
  apply only_bind; [only_auto|]. intros.
  apply only_bind; [apply only_loadConfig|]. intros.
  apply only_bind; [apply only_isGitRepo|]. only_auto.
Qed.

Lemma only_prefixedName cwd config baseName :
  only readOnly (prefixedName cwd config baseName).
Proof.
  unfold prefixedName, commandPrefix.
  apply only_bind; [|only_auto].
  destruct (prefixType config); [constructor | constructor | apply only_generatePrefix].
Qed.

Lemma only_listPostCommands config : only readOnly (listPostCommands config).
Proof. unfold listPostCommands. only_auto. Qed.

Lemma only_getRequest P cwd number : only readOnly (getRequest P cwd gitlab number).
Proof.
  unfold getRequest, isAvailable.
  apply only_bind; [apply only_exists|]. intros available.
  destruct (negb available); [constructor|].
  apply only_tryCatch; [apply only_bind|]; only_auto.
  apply only_runOrThrow. reflexivity.
Qed.

Lemma only_isProject cwd : only readOnly (isProject cwd gitlab).
Proof.
  unfold isProject, isAvailable.
  apply only_bind; [apply only_exists|]. intros available.
  destruct (negb available); [constructor|].
  apply only_tryCatch; [apply only_bind|]; only_auto.
  apply only_runOrThrow. reflexivity.
Qed.

Lemma only_getProp value key : only readOnly (getProp value key).
Proof. unfold getProp. only_auto. Qed.

Lemma only_showField mr key : only readOnly (showField mr key).
Proof. unfold showField. apply only_bind; [apply only_getProp|]. only_auto. Qed.

Lemma only_generateWorktreeName P cwd number :
  only readOnly (generateWorktreeName P cwd gitlab number).
Proof.
  unfold generateWorktreeName, branchOf.
  apply only_bind; [apply only_getRequest|]. intros.
  apply only_bind; [apply only_bind; [apply only_getProp|]|]; only_auto.
Qed.

(** ** The three commands up to the test of the flag *)

Lemma only_newResolve P cwd name options :
  only readOnly (newResolve P cwd name options).
Proof.
  unfold newResolve.
  apply only_bind; [apply only_initialize|]. intros config.
  apply only_bind; [apply only_prefixedName|]. intros worktreeName.
  apply only_bind; [apply only_worktreeExists|]. intros there.
  destruct there; [constructor|].
  apply only_bind; [apply only_branchExists|]. only_auto.
Qed.

Lemma only_newPlan t : only readOnly (newPlan t).
Proof.
  unfold newPlan. only_auto. apply only_listPostCommands.
Qed.

Lemma only_removeResolve P cwd name options :
  only readOnly (removeResolve P cwd name options).
Proof.
  unfold removeResolve.
  apply only_bind; [apply only_initialize|]. intros config.
  apply only_bind; [apply only_prefixedName|]. intros worktreeName.
  apply only_bind; [apply only_findWorktreeByName|]. intros found.
  apply only_bind.
  { destruct found; [constructor | apply only_findWorktreeByName]. }
  intros found'. destruct found'.
  - only_auto.
  - apply only_bind; [apply only_listWorktrees|]. only_auto.
Qed.

Lemma only_removePlan t : only readOnly (removePlan t).
Proof. unfold removePlan. only_auto. Qed.

Lemma only_mrResolve P cwd mrNumber options :
  only readOnly (mrResolve P cwd mrNumber options).
Proof.
  unfold mrResolve.
  apply only_bind; [apply only_initialize|]. intros config.
  destruct (parseInt10 mrNumber) as [iid|]; [|constructor].
  destruct (iid <=? 0)%Z; [constructor|].
  apply only_bind; [apply only_isProject|]. intros project.
  destruct (negb project); [constructor|].
  apply only_bind; [only_auto|]. intros _.
  apply only_bind.
  { apply only_tryCatch; [|only_auto].
    apply only_bind; [apply only_getRequest|]. intros mr.
    apply only_bind; [apply only_showField|]. only_auto. }
  intros mr.
  apply only_bind; [apply only_generateWorktreeName|]. intros baseName.
  apply only_bind; [apply only_prefixedName|]. intros worktreeName.
  apply only_bind; [apply only_worktreeExists|]. only_auto.
Qed.

Lemma only_mrPlan t : only readOnly (mrPlan t).
Proof.
  unfold mrPlan. only_auto; try apply only_showField. apply only_listPostCommands.
Qed.

(** ** Read-only operations change nothing *)

Lemma sameArgs_eq a b : sameArgs a b = true -> a = b.
Proof.
  revert b. induction a as [|x a IH]; intros [|y b] H; cbn in H;
    try discriminate; [reflexivity|].
  apply andb_true_iff in H. destruct H as [Hx Ha].
  apply String.eqb_eq in Hx. subst y. f_equal. apply IH, Ha.
Qed.

Lemma gitQuery_changes_nothing args :
  gitQuery args = true -> changesRepository args = false.
Proof.
  unfold gitQuery. intros H.
  repeat (apply orb_true_iff in H; destruct H as [H | H]).
  - apply sameArgs_eq in H. subst args. reflexivity.
  - apply sameArgs_eq in H. subst args. reflexivity.
  - apply sameArgs_eq in H. subst args. reflexivity.
  - destruct args as [|a [|b [|c [|d [|e args]]]]]; try discriminate H.
    apply sameArgs_eq in H. injection H as -> -> ->. reflexivity.
Qed.

Lemma readOnly_harmless ev : allowedEvent readOnly ev -> harmless ev.
Proof.
  intros H. split; [exact H|].
  destruct ev as [X op answer]. cbn in H. destruct op; cbn in *;
    try reflexivity; try discriminate H.
  destruct (String.eqb command "git") eqn:Hgit; [|reflexivity].
  apply String.eqb_eq in Hgit. subst command. cbn in H.
  rewrite orb_false_r in H. cbn [andb].
  apply gitQuery_changes_nothing. exact H.
Qed.

Lemma only_harmless {A} (p : Prog A) :
  only readOnly p -> forall host past, Forall harmless (eventsOf host past p).
Proof.
  intros Hp host past.
  eapply Forall_impl; [|apply (only_events Hp)].
  apply readOnly_harmless.
Qed.

(** ** What the plans print *)

Lemma prints_Ret : prints (Ret tt) [].
Proof. intros host past. exists []. split; reflexivity. Qed.

Lemma prints_log message : prints (log Info message) [info message].
Proof.
  intros host past. eexists. split.
  - unfold log, perform. cbn [interp].
    destruct (host unit past (Log Info message)). reflexivity.
  - reflexivity.
Qed.

Lemma prints_seq p q l1 l2 :
  prints p l1 -> prints q l2 -> prints (p ;;; q) (l1 ++ l2)%list.
Proof.
  intros Hp Hq host past.
  destruct (Hp host past) as (ev1 & E1 & L1).
  destruct (Hq host (past ++ ev1)%list) as (ev2 & E2 & L2).
  exists (ev1 ++ ev2)%list. split.
  - rewrite interp_bind, E1, E2. reflexivity.
  - rewrite List.map_app, L1, L2. reflexivity.
Qed.

Lemma prints_forEach {A} (xs : list A) (line : A -> string) :
  prints (forEach xs (fun x => log Info (line x)))
         (List.map (fun x => info (line x)) xs).
Proof.
  induction xs as [|x xs IH]; cbn [forEach List.map].
  - apply prints_Ret.
  - apply (prints_seq (prints_log (line x)) IH).
Qed.

Lemma prints_listPostCommands config :
  prints (listPostCommands config) (postCommandLines config).
Proof.
  unfold listPostCommands, postCommandLines.
  destruct (postCommands config) as [|cmd cmds] eqn:E.
  - apply prints_Ret.
  - apply (prints_seq (prints_log _) (prints_forEach (cmd :: cmds) _)).
Qed.

Lemma prints_newPlan t :
  prints (newPlan t)
         (newPlanLines (nt_worktreePath t) (nt_branchName t) (nt_config t)).
Proof.
  unfold newPlan, newPlanLines.
  apply (prints_seq (prints_log _)).
  apply (prints_seq (prints_log _)).
  apply (prints_seq (prints_log _)).
  apply prints_listPostCommands.
Qed.

Lemma prints_removePlan t :
  prints (removePlan t) (removePlanLines (rt_worktreePath t) (rt_branchName t)).
Proof.
  unfold removePlan, removePlanLines.
  apply (prints_seq (prints_log _)).
  apply (prints_seq (prints_log _)).
  apply prints_log.
Qed.

Lemma showField_value mr key :
  mr <> JNull -> showField mr key = Ret (showProp (getField key mr)).
Proof. intros H. destruct mr; try reflexivity. congruence. Qed.

Lemma prints_mrPlan t :
  mt_mr t <> JNull ->
  prints (mrPlan t) (mrPlanLines (mt_worktreePath t) (mt_mr t) (mt_config t)).
Proof.
  intros H. unfold mrPlan, mrPlanLines.
  rewrite !(showField_value _ H). cbn [bind].
  apply (prints_seq (prints_log _)).
  apply (prints_seq (prints_log _)).
  apply (prints_seq (prints_log _)).
  apply (prints_seq (prints_log _)).
  apply prints_listPostCommands.
Qed.

(** ** The change request of the target *)

Lemma ensures_True {A} (p : Prog A) : ensures (fun _ => True) p.
Proof. intros host past a evs _. exact I. Qed.

Lemma sound_mrResolve P cwd mrNumber options :
  ensures sound (mrResolve P cwd mrNumber options).
Proof.
  unfold mrResolve.
  eapply ensures_bind; [apply ensures_True|]. intros config _.
  destruct (parseInt10 mrNumber) as [iid|]; [|apply ensures_Throw].
  destruct (iid <=? 0)%Z; [apply ensures_Throw|].
  eapply ensures_bind; [apply ensures_True|]. intros project _.
  destruct (negb project); [apply ensures_Throw|].
  eapply ensures_bind; [apply ensures_True|]. intros _ _.
  apply ensures_bind with (Q1 := fun mr => mr <> JNull).
  { apply ensures_tryCatch.
    - eapply ensures_bind; [apply ensures_True|]. intros mr _.
      destruct mr; try (cbn [showField getProp bind]; apply ensures_Throw);
        (eapply ensures_bind; [apply ensures_True|]; intros title _;
         eapply ensures_bind; [apply ensures_True|]; intros _ _;
         apply ensures_Ret; discriminate).
    - intros e. eapply ensures_bind; [apply ensures_True|]. intros _ _.
      apply ensures_Throw. }
  intros mr Hmr.
  eapply ensures_bind; [apply ensures_True|]. intros baseName _.
  eapply ensures_bind; [apply ensures_True|]. intros worktreeName _.
  eapply ensures_bind; [apply ensures_True|]. intros there _.
  destruct there.
  - destruct (mr_checkout options); [|apply ensures_Throw].
    eapply ensures_bind; [apply ensures_True|]. intros _ _.
    eapply ensures_bind; [apply ensures_True|]. intros _ _.
    apply ensures_Ret. exact I.
  - apply ensures_Ret. exact Hmr.
Qed.

End DryRunFacts.

Import ProgFacts DryRun DryRunAux.

(** C10. With the dry-run flag, [new], [mr] and [rm] perform read-only
    operations only (the queries of git and of the hosting CLI, the
    reading of the configuration, printing), on every path and whatever
    the host answers: no worktree is created or removed, no branch is
    created, fetched, pushed or deleted, no post-creation command is
    announced or run, no prompt is shown; and once the test of the flag
    is reached, the command prints its plan and returns. *)
Theorem dry_run_changes_nothing :
  forall (P : Platform) (host : Host) (past : list Event) (cwd : string),
    (forall name options,
        opt_dryRun (new_cli options) = true ->
        Forall harmless (eventsOf host past (newExecute P cwd name options))
        /\ (forall t reached,
               interp host past (newResolve P cwd name options) = (Ok t, reached) ->
               exists printed,
                 interp host past (newExecute P cwd name options)
                 = (Ok tt, (reached ++ printed)%list)
                 /\ List.map performed printed
                    = newPlanLines (nt_worktreePath t) (nt_branchName t)
                        (nt_config t)))
    /\ (forall mrNumber options,
        opt_dryRun (mr_cli options) = true ->
        Forall harmless (eventsOf host past (mrExecute P cwd mrNumber options))
        /\ (forall t reached,
               interp host past (mrResolve P cwd mrNumber options)
               = (Ok (Some t), reached) ->
               exists printed,
                 interp host past (mrExecute P cwd mrNumber options)
                 = (Ok tt, (reached ++ printed)%list)
                 /\ List.map performed printed
                    = mrPlanLines (mt_worktreePath t) (mt_mr t) (mt_config t)))
    /\ (forall name options,
        opt_dryRun (rm_cli options) = true ->
        Forall harmless (eventsOf host past (removeExecute P cwd name options))
        /\ (forall t reached,
               interp host past (removeResolve P cwd name options) = (Ok t, reached) ->
               exists printed,
                 interp host past (removeExecute P cwd name options)
                 = (Ok tt, (reached ++ printed)%list)
                 /\ List.map performed printed
                    = removePlanLines (rt_worktreePath t) (rt_branchName t))).
Proof.
  intros P host past cwd. split; [|split].
  - intros name options Hdry. split.
    + apply DryRunFacts.only_harmless. unfold newExecute. rewrite Hdry.
      apply only_bind; [apply DryRunFacts.only_newResolve|].
      intros t. apply DryRunFacts.only_newPlan.
    + intros t reached Hres.
      destruct (DryRunFacts.prints_newPlan t host (past ++ reached)%list)
        as (printed & Hplan & Hlines).
      exists printed. split; [|exact Hlines].
      unfold newExecute. rewrite interp_bind, Hres, Hdry, Hplan. reflexivity.
  - intros mrNumber options Hdry. split.
    + apply DryRunFacts.only_harmless. unfold mrExecute. rewrite Hdry.
      apply only_bind; [apply DryRunFacts.only_mrResolve|].
      intros [t|]; [apply DryRunFacts.only_mrPlan | constructor].
    + intros t reached Hres.
      pose proof (DryRunFacts.sound_mrResolve P cwd mrNumber options
                    host past Hres) as Hmr.
      destruct (@DryRunFacts.prints_mrPlan t Hmr host (past ++ reached)%list)
        as (printed & Hplan & Hlines).
      exists printed. split; [|exact Hlines].
      unfold mrExecute. rewrite interp_bind, Hres, Hdry, Hplan. reflexivity.
  - intros name options Hdry. split.
    + apply DryRunFacts.only_harmless. unfold removeExecute. rewrite Hdry.
      apply only_bind; [apply DryRunFacts.only_removeResolve|].
      intros t. apply DryRunFacts.only_removePlan.
    + intros t reached Hres.
      destruct (DryRunFacts.prints_removePlan t host (past ++ reached)%list)
        as (printed & Hplan & Hlines).
      exists printed. split; [|exact Hlines].
      unfold removeExecute. rewrite interp_bind, Hres, Hdry, Hplan. reflexivity.
Qed.

Lemma dry_run_changes_nothing_witness :
  (Forall harmless
     (eventsOf Sample.host []
        (newExecute Sample.platform "/repo" "feature-x"
           (mkNewCommandOptions dryRun None false)))
   /\ exists printed,
       interp Sample.host []
         (newExecute Sample.platform "/repo" "feature-x"
            (mkNewCommandOptions dryRun None false))
       = (Ok tt,
          (eventsOf Sample.host []
             (newResolve Sample.platform "/repo" "feature-x"
                (mkNewCommandOptions dryRun None false)) ++ printed)%list)
       /\ List.map performed printed
          = newPlanLines "/worktrees/feature-x" "feature-x" defaultConfig)
  /\ (Forall harmless
        (eventsOf Sample.host []
           (mrExecute Sample.platform "/repo" "7" (mkMRCommandOptions dryRun false)))
      /\ exists printed,
          interp Sample.host []
            (mrExecute Sample.platform "/repo" "7" (mkMRCommandOptions dryRun false))
          = (Ok tt,
             (eventsOf Sample.host []
                (mrResolve Sample.platform "/repo" "7"
                   (mkMRCommandOptions dryRun false)) ++ printed)%list)
          /\ List.map performed printed
             = mrPlanLines "/worktrees/feature-ABC-123_fix" Sample.mr defaultConfig)
  /\ (Forall harmless
        (eventsOf Sample.host []
           (removeExecute Sample.platform "/repo" "review"
              (mkRemoveCommandOptions dryRun false)))
      /\ exists printed,
          interp Sample.host []
            (removeExecute Sample.platform "/repo" "review"
               (mkRemoveCommandOptions dryRun false))
          = (Ok tt,
             (eventsOf Sample.host []
                (removeResolve Sample.platform "/repo" "review"
                   (mkRemoveCommandOptions dryRun false)) ++ printed)%list)
          /\ List.map performed printed
             = removePlanLines (Some "/worktrees/review") None).
Proof.
  destruct (dry_run_changes_nothing Sample.platform Sample.host [] "/repo")
    as (Hnew & Hmr & Hrm).
  split; [|split].
  - destruct (Hnew "feature-x" (mkNewCommandOptions dryRun None false) eq_refl)
      as [Hquiet Hplan].
    split; [exact Hquiet|].
    exact (Hplan (mkNewTarget defaultConfig "feature-x" "/worktrees/feature-x"
                    "feature-x")
             (eventsOf Sample.host []
                (newResolve Sample.platform "/repo" "feature-x"
                   (mkNewCommandOptions dryRun None false)))
             eq_refl).
  - destruct (Hmr "7" (mkMRCommandOptions dryRun false) eq_refl) as [Hquiet Hplan].
    split; [exact Hquiet|].
    exact (Hplan (mkMRTarget defaultConfig 7 Sample.mr "feature-ABC-123_fix"
                    "/worktrees/feature-ABC-123_fix")
             (eventsOf Sample.host []
                (mrResolve Sample.platform "/repo" "7"
                   (mkMRCommandOptions dryRun false)))
             eq_refl).
  - destruct (Hrm "review" (mkRemoveCommandOptions dryRun false) eq_refl)
      as [Hquiet Hplan].
    split; [exact Hquiet|].
    exact (Hplan (mkRemoveTarget (Some "/worktrees/review") None)
             (eventsOf Sample.host []
                (removeResolve Sample.platform "/repo" "review"
                   (mkRemoveCommandOptions dryRun false)))
             eq_refl).
Defined.

(** Without the flag, on the same repository, [new] adds the worktree
    and pushes the branch. *)
Lemma new_without_flag_mutates :
  List.filter mutation
    (eventsOf Sample.host []
       (newExecute Sample.platform "/repo" "feature-x"
          (mkNewCommandOptions (mkCLIOptions None false false) None false)))
  = [Ev (Execa "git" ["worktree"; "add"; "-b"; "feature-x"; "/worktrees/feature-x"]
           (Some "/repo"))
        (Sample.ok "");
     Ev (Execa "git" ["push"; "-u"; "origin"; "feature-x"]
           (Some "/worktrees/feature-x"))
        (Sample.ok "")].
Proof. reflexivity. Qed.
(* ================================================================== *)
(** * The derived worktree name is a clean name *)
(* ================================================================== *)

Module NameShapeFacts.
Import Regex NameSpec NameShape.

Lemma nameChars_replaceOutside (s : string) :
  Str.forallb isNameChar (replaceOutside s) = true.
Proof.
  induction s as [|c s IH]; [reflexivity|].
  cbn [replaceOutside Str.map Str.forallb].
  fold (replaceOutside s). rewrite IH.
  destruct (isNameChar c) eqn:E; [rewrite E|]; reflexivity.
Qed.

Lemma nameChars_collapse (s : string) :
  Str.forallb isNameChar s = true ->
  Str.forallb isNameChar (collapseDashes s) = true.
Proof.
  induction s as [|c s IH]; [reflexivity|].
  cbn [Str.forallb collapseDashes]. intros H.
  apply andb_prop in H as [Hc Hs].
  destruct (isDash c && startsWithDash s); [exact (IH Hs)|].
  cbn [Str.forallb]. rewrite Hc. exact (IH Hs).
Qed.

Lemma startsWithDash_collapse (s : string) :
  startsWithDash (collapseDashes s) = startsWithDash s.
Proof.
  induction s as [|c s IH]; [reflexivity|].
  cbn [collapseDashes].
  destruct (isDash c) eqn:Hc; cbn [andb].
  - destruct (startsWithDash s) eqn:Hs.
    + rewrite IH. cbn [startsWithDash]. symmetry. exact Hc.
    + reflexivity.
  - reflexivity.
Qed.

Lemma noDoubleDash_collapse (s : string) :
  noDoubleDash (collapseDashes s) = true.
Proof.
  induction s as [|c s IH]; [reflexivity|].
  cbn [collapseDashes].
  destruct (isDash c && startsWithDash s) eqn:E; [exact IH|].
  cbn [noDoubleDash]. rewrite startsWithDash_collapse, E, IH. reflexivity.
Qed.

Lemma nameChars_stripLeading (s : string) :
  Str.forallb isNameChar s = true ->
  Str.forallb isNameChar (stripLeading s) = true.
Proof.
  induction s as [|c s IH]; [reflexivity|].
  intros H. cbn [stripLeading].
  destruct (isDash c); [|exact H].
  cbn [Str.forallb] in H. apply andb_prop in H as [_ Hs]. exact (IH Hs).
Qed.

Lemma noDoubleDash_stripLeading (s : string) :
  noDoubleDash s = true -> noDoubleDash (stripLeading s) = true.
Proof.
  induction s as [|c s IH]; [reflexivity|].
  intros H. cbn [stripLeading].
  destruct (isDash c); [|exact H].
  cbn [noDoubleDash] in H. apply andb_prop in H as [_ Hs]. exact (IH Hs).
Qed.

Lemma startsWithDash_stripLeading (s : string) :
  startsWithDash (stripLeading s) = false.
Proof.
  induction s as [|c s IH]; [reflexivity|].
  cbn [stripLeading].
  destruct (isDash c) eqn:Hc; [exact IH|].
  cbn [startsWithDash]. exact Hc.
Qed.

Lemma nameChars_stripTrailing (s : string) :
  Str.forallb isNameChar s = true ->
  Str.forallb isNameChar (stripTrailing s) = true.
Proof.
  induction s as [|c s IH]; [reflexivity|].
  cbn [Str.forallb stripTrailing]. intros H.
  apply andb_prop in H as [Hc Hs]. specialize (IH Hs).
  destruct (stripTrailing s) as [|d t].
  - destruct (isDash c); [reflexivity|].
    cbn [Str.forallb]. rewrite Hc. reflexivity.
  - cbn [Str.forallb] in *. rewrite Hc. exact IH.
Qed.

(** [stripTrailing] removes at the end only. *)
Lemma startsWithDash_stripTrailing (s : string) :
  startsWithDash (stripTrailing s) = true -> startsWithDash s = true.
Proof.
  destruct s as [|c s]; [intros H; exact H|].
  cbn [stripTrailing startsWithDash].
  destruct (stripTrailing s) as [|d t].
  - destruct (isDash c) eqn:Hc; [intros _; reflexivity|].
    cbn [startsWithDash]. rewrite Hc. intros H; exact H.
  - cbn [startsWithDash]. intros H; exact H.
Qed.

Lemma noDoubleDash_stripTrailing (s : string) :
  noDoubleDash s = true -> noDoubleDash (stripTrailing s) = true.
Proof.
  induction s as [|c s IH]; [reflexivity|].
  cbn [noDoubleDash]. intros H. apply andb_prop in H as [Hc Hs].
  specialize (IH Hs).
  cbn [stripTrailing].
  destruct (stripTrailing s) as [|d t] eqn:E.
  - destruct (isDash c) eqn:Hd; [reflexivity|].
    cbn [noDoubleDash startsWithDash]. rewrite Hd. reflexivity.
  - cbn [noDoubleDash]. cbn [noDoubleDash] in IH. rewrite IH.
    destruct (isDash c) eqn:Hdc; [|reflexivity].
    destruct (startsWithDash (String d t)) eqn:Hd; [|reflexivity].
    rewrite <- E in Hd. apply startsWithDash_stripTrailing in Hd.
    rewrite Hd in Hc. discriminate Hc.
Qed.

Lemma endsWithDash_stripTrailing (s : string) :
  endsWithDash (stripTrailing s) = false.
Proof.
  induction s as [|c s IH]; [reflexivity|].
  cbn [stripTrailing].
  destruct (stripTrailing s) as [|d t].
  - destruct (isDash c) eqn:Hc; [reflexivity|].
    cbn [endsWithDash]. exact Hc.
  - exact IH.
Qed.

(** Whatever the branch, what the three replacements leave is clean. *)
Lemma clean_sanitize (branch : string) : clean (sanitize branch) = true.
Proof.
  unfold clean, sanitize.
  rewrite nameChars_stripTrailing
    by (apply nameChars_stripLeading, nameChars_collapse, nameChars_replaceOutside).
  rewrite endsWithDash_stripTrailing.
  rewrite noDoubleDash_stripTrailing
    by (apply noDoubleDash_stripLeading, noDoubleDash_collapse).
  destruct (startsWithDash (stripTrailing (stripLeading (collapseDashes
                                                          (replaceOutside branch)))))
    eqn:E; [|reflexivity].
  apply startsWithDash_stripTrailing in E.
  rewrite startsWithDash_stripLeading in E. discriminate E.
Qed.

(** ** A clean name is a fixed point of each step *)

Lemma replaceOutside_fixed (s : string) :
  Str.forallb isNameChar s = true -> replaceOutside s = s.
Proof.
  induction s as [|c s IH]; [reflexivity|].
  cbn [Str.forallb]. intros H. apply andb_prop in H as [Hc Hs].
  unfold replaceOutside in *. cbn [Str.map]. rewrite Hc, (IH Hs). reflexivity.
Qed.

Lemma collapseDashes_fixed (s : string) :
  noDoubleDash s = true -> collapseDashes s = s.
Proof.
  induction s as [|c s IH]; [reflexivity|].
  cbn [noDoubleDash]. intros H. apply andb_prop in H as [Hc Hs].
  cbn [collapseDashes].
  destruct (isDash c && startsWithDash s); [discriminate Hc|].
  rewrite (IH Hs). reflexivity.
Qed.

Lemma stripLeading_fixed (s : string) :
  startsWithDash s = false -> stripLeading s = s.
Proof.
  destruct s as [|c s]; [reflexivity|].
  cbn [startsWithDash stripLeading]. intros H. rewrite H. reflexivity.
Qed.

Lemma stripTrailing_fixed (s : string) :
  endsWithDash s = false -> stripTrailing s = s.
Proof.
  induction s as [|c s IH]; [reflexivity|].
  destruct s as [|d s'].
  - cbn [endsWithDash stripTrailing]. intros H. rewrite H. reflexivity.
  - intros H. change (endsWithDash (String d s') = false) in H.
    specialize (IH H).
    change (stripTrailing (String c (String d s')))
      with (match stripTrailing (String d s') with
            | EmptyString => if isDash c then EmptyString else String c EmptyString
            | t => String c t
            end).
    rewrite IH. reflexivity.
Qed.

Lemma sanitize_fixed (s : string) : clean s = true -> sanitize s = s.
Proof.
  unfold clean. intros H.
  apply andb_prop in H as [H Hdd].
  apply andb_prop in H as [H Hend].
  apply andb_prop in H as [Hchars Hstart].
  apply negb_true_iff in Hend. apply negb_true_iff in Hstart.
  unfold sanitize.
  rewrite (replaceOutside_fixed _ Hchars), (collapseDashes_fixed _ Hdd),
    (stripLeading_fixed _ Hstart), (stripTrailing_fixed _ Hend).
  reflexivity.
Qed.

(** ** The decimal rendering of the number *)

Lemma digits_string_of_uint (d : Decimal.uint) :
  Str.forallb isDigit (NilEmpty.string_of_uint d) = true.
Proof. induction d; cbn [NilEmpty.string_of_uint Str.forallb]; auto. Qed.

Lemma digits_NilZero (d : Decimal.uint) :
  Str.forallb isDigit (NilZero.string_of_uint d) = true
  /\ NilZero.string_of_uint d <> "".
Proof.
  destruct d; cbn [NilZero.string_of_uint];
    (split; [first [reflexivity | apply (digits_string_of_uint (_ _))]
            | cbn [NilEmpty.string_of_uint]; discriminate]).
Qed.

Lemma digit_nameChar (c : ascii) : isDigit c = true -> isNameChar c = true.
Proof.
  intros H. unfold isNameChar. rewrite H.
  rewrite !orb_true_r. reflexivity.
Qed.

Lemma digit_noDash (c : ascii) : isDigit c = true -> isDash c = false.
Proof.
  intros H. unfold isDash. destruct (Ascii.eqb "-" c) eqn:E; [|reflexivity].
  apply Ascii.eqb_eq in E. subst c. discriminate H.
Qed.

Lemma ofZ_nameChars (n : Z) :
  Str.forallb isNameChar (Str.ofZ n) = true /\ Str.ofZ n <> "".
Proof.
  unfold Str.ofZ.
  destruct (Z.to_int n) as [d|d]; cbn [NilZero.string_of_int].
  - destruct (digits_NilZero d) as [Hd Hne]. split; [|exact Hne].
    apply UrlFacts.forallb_impl with (p := isDigit); [exact digit_nameChar|exact Hd].
  - destruct (digits_NilZero d) as [Hd _]. split; [|discriminate].
    cbn [Str.forallb].
    rewrite (UrlFacts.forallb_impl isDigit isNameChar _ digit_nameChar Hd).
    reflexivity.
Qed.

Lemma ofZ_digits (n : Z) :
  (0 <= n)%Z -> Str.forallb isDigit (Str.ofZ n) = true /\ Str.ofZ n <> "".
Proof.
  intros Hn. unfold Str.ofZ.
  destruct n as [|p|p]; [| |exfalso; lia]; cbn [Z.to_int NilZero.string_of_int].
  - split; [reflexivity|discriminate].
  - exact (digits_NilZero _).
Qed.

Lemma digits_shape (s : string) :
  Str.forallb isDigit s = true ->
  Str.forallb isNameChar s = true /\ startsWithDash s = false
  /\ endsWithDash s = false /\ noDoubleDash s = true.
Proof.
  induction s as [|c s IH]; [repeat split; reflexivity|].
  cbn [Str.forallb]. intros H. apply andb_prop in H as [Hc Hs].
  destruct (IH Hs) as (H1 & H2 & H3 & H4).
  pose proof (digit_noDash _ Hc) as Hnd.
  split; [|split; [|split]].
  - cbn [Str.forallb]. rewrite (digit_nameChar _ Hc). exact H1.
  - exact Hnd.
  - destruct s as [|d s']; [exact Hnd|exact H3].
  - cbn [noDoubleDash]. rewrite Hnd, H4. reflexivity.
Qed.

(** The numbered fallback of a two-letter prefix, for a number that is
    not negative, is itself clean. *)
Lemma clean_fallback (c1 c2 : ascii) (n : Z) :
  isNameChar c1 = true -> isNameChar c2 = true ->
  isDash c1 = false -> isDash c2 = false -> (0 <= n)%Z ->
  clean (String c1 (String c2 "") ++ "-" ++ Str.ofZ n) = true.
Proof.
  intros H1 H2 D1 D2 Hn.
  destruct (ofZ_digits Hn) as [Hd Hne].
  destruct (digits_shape _ Hd) as (Hchars & Hstart & Hend & Hdd).
  destruct (Str.ofZ n) as [|d ds]; [contradiction Hne; reflexivity|].
  unfold clean. cbn [String.append Str.forallb startsWithDash noDoubleDash].
  rewrite H1, H2, D1, D2. cbn [Str.forallb] in Hchars.
  change (isNameChar "-") with true.
  cbn [andb negb]. rewrite Hchars.
  change (startsWithDash (String d ds)) with (isDash d) in *.
  rewrite Hstart. cbn [andb negb].
  change (endsWithDash (String c1 (String c2 (String "-" (String d ds)))))
    with (endsWithDash (String d ds)).
  rewrite Hend. cbn [noDoubleDash] in Hdd.
  rewrite Hstart in Hdd. cbn [negb andb] in Hdd |- *.
  rewrite ?andb_false_r. cbn [negb andb]. exact Hdd.
Qed.

Lemma length_fallback (fallback : string) (n : Z) :
  2 <= String.length (fallback ++ "-" ++ Str.ofZ n).
Proof.
  rewrite StrFacts.length_app. cbn [String.append String.length].
  destruct (ofZ_nameChars n) as [_ Hne].
  destruct (Str.ofZ n); [contradiction Hne; reflexivity|].
  cbn [String.length]. lia.
Qed.

End NameShapeFacts.

Import NameSpec NameShape.

(** X1. The worktree name that [generateWorktreeName] derives from the
    branch of a merge request or of a pull request is always usable as
    a directory name: it holds characters of [[A-Za-z0-9_-]] only and
    has at least two characters, whatever the branch, for every number
    that is a safe integer (from 1e21 on the number is printed with an
    exponent and its sign); and unless it is the numbered fallback, the
    prefix, a dash and the decimal numeral of the number, it has no dash
    at either end and no two dashes in a row. *)
Theorem worktreeName_is_safe :
  forall (provider : Provider) (branch : string) (number : Z),
    Num.isSafeInteger number = true ->
    let name := worktreeNameOf (fallbackPrefix provider) branch number in
    (Str.forallb isNameChar (fallbackPrefix provider) = true ->
     Str.forallb isNameChar name = true)
    /\ 2 <= String.length name
    /\ ((exists numeral,
            Numeral.value numeral = Some number
            /\ name = fallbackPrefix provider ++ "-" ++ numeral)
        \/ clean name = true)
    /\ Str.forallb isNameChar (fallbackPrefix gitlab) = true
    /\ Str.forallb isNameChar (fallbackPrefix github) = true.
Proof.
  intros provider branch number Hsafe name. subst name.
  rewrite NameFacts.worktreeNameOf_spec. unfold deriveWorktreeName.
  pose proof (NameShapeFacts.clean_sanitize branch) as Hclean.
  destruct (Nat.ltb (String.length (sanitize branch)) 2) eqn:Hshort.
  - split; [|split; [|split; [|split]]].
    + intros Hfb. rewrite !StrFacts.forallb_app, Hfb.
      destruct (NameShapeFacts.ofZ_nameChars number) as [Hn _].
      rewrite Hn. reflexivity.
    + apply NameShapeFacts.length_fallback.
    + left. exists (Str.ofZ number).
      split; [apply NumeralFacts.value_ofZ|reflexivity].
    + reflexivity.
    + reflexivity.
  - apply Nat.ltb_ge in Hshort.
    split; [|split; [|split; [|split]]].
    + intros _. unfold clean in Hclean.
      apply andb_prop in Hclean as [H _].
      apply andb_prop in H as [H _].
      apply andb_prop in H as [H _]. exact H.
    + exact Hshort.
    + right. exact Hclean.
    + reflexivity.
    + reflexivity.
Qed.

Lemma worktreeName_is_safe_witness :
  Str.forallb isNameChar (worktreeNameOf "mr" "!" 42) = true
  /\ worktreeNameOf "mr" "!" 42 = "mr-42"
  /\ clean (worktreeNameOf "pr" "--a//b--" 42) = true.
Proof.
  split; [|split].
  - exact (proj1 (@worktreeName_is_safe gitlab "!" 42%Z eq_refl) eq_refl).
  - reflexivity.
  - destruct (proj1 (proj2 (proj2 (@worktreeName_is_safe github "--a//b--" 42%Z
                                     eq_refl))))
      as [(numeral & _ & H)|H]; [discriminate H|exact H].
Defined.

(** X2. A branch name that is already clean (characters of
    [[A-Za-z0-9_-]], no dash at either end, no two dashes in a row) and
    has at least two characters is the worktree name, unchanged; the
    derivation is therefore idempotent: deriving a name from a derived
    name gives the same name, for both providers and every number that
    is a safe integer and not negative. *)
Theorem clean_branch_is_its_own_name :
  forall (fallback branch : string) (number : Z),
    clean branch = true -> 2 <= String.length branch ->
    worktreeNameOf fallback branch number = branch
    /\ (forall anyBranch n,
           (0 <= n)%Z -> Num.isSafeInteger n = true ->
           worktreeNameOf "mr" (worktreeNameOf "mr" anyBranch n) n
           = worktreeNameOf "mr" anyBranch n
           /\ worktreeNameOf "pr" (worktreeNameOf "pr" anyBranch n) n
              = worktreeNameOf "pr" anyBranch n).
Proof.
  assert (Hfixed : forall fallback branch number,
             clean branch = true -> 2 <= String.length branch ->
             worktreeNameOf fallback branch number = branch).
  { intros fallback branch number Hclean Hlen.
    rewrite NameFacts.worktreeNameOf_spec. unfold deriveWorktreeName.
    rewrite (NameShapeFacts.sanitize_fixed _ Hclean).
    apply Nat.ltb_ge in Hlen. rewrite Hlen. reflexivity. }
  assert (Hidem : forall c1 c2 anyBranch n,
             isNameChar c1 = true -> isNameChar c2 = true ->
             isDash c1 = false -> isDash c2 = false -> (0 <= n)%Z ->
             worktreeNameOf (String c1 (String c2 ""))
               (worktreeNameOf (String c1 (String c2 "")) anyBranch n) n
             = worktreeNameOf (String c1 (String c2 "")) anyBranch n).
  { intros c1 c2 anyBranch n H1 H2 D1 D2 Hn.
    apply Hfixed.
    - rewrite NameFacts.worktreeNameOf_spec. unfold deriveWorktreeName.
      destruct (Nat.ltb (String.length (sanitize anyBranch)) 2).
      + apply NameShapeFacts.clean_fallback; assumption.
      + apply NameShapeFacts.clean_sanitize.
    - rewrite NameFacts.worktreeNameOf_spec. unfold deriveWorktreeName.
      destruct (Nat.ltb (String.length (sanitize anyBranch)) 2) eqn:E.
      + apply NameShapeFacts.length_fallback.
      + apply Nat.ltb_ge in E. exact E. }
  intros fallback branch number Hclean Hlen.
  split; [exact (Hfixed fallback branch number Hclean Hlen)|].
  intros anyBranch n Hn Hsafe.
  split; apply Hidem; solve [reflexivity | exact Hn].
Qed.

Lemma clean_branch_is_its_own_name_witness :
  worktreeNameOf "mr" "feature-ABC-123_fix" 7 = "feature-ABC-123_fix"
  /\ worktreeNameOf "mr" (worktreeNameOf "mr" "!" 42) 42 = "mr-42".
Proof.
  assert (Hclean : clean "feature-ABC-123_fix" = true) by reflexivity.
  assert (Hlen : 2 <= String.length "feature-ABC-123_fix")
    by (cbn [String.length]; lia).
  destruct (@clean_branch_is_its_own_name "mr" "feature-ABC-123_fix" 7
              Hclean Hlen) as [Hfixed Hidem].
  split; [exact Hfixed|].
  refine (eq_trans (proj1 (Hidem "!" 42%Z _ eq_refl)) eq_refl).
  lia.
Defined.
(* ================================================================== *)
(** * More on the listing of worktrees *)
(* ================================================================== *)

Module ListingFacts.
Import Porcelain PorcelainSpec PorcelainAux PorcelainFacts ListingShape.
Import ProgFacts ExecFacts.

Lemma hasPath_recordOf (b : block) : hasPath (recordOf b) = carriesPath b.
Proof. destruct b as [marker body]. reflexivity. Qed.

Lemma forallb_hasPath (lines : list string) :
  List.forallb hasPath (parseLines lines) = true.
Proof.
  rewrite parseLines_any. apply forallb_forall.
  intros wt Hin. apply in_map_iff in Hin as (b & <- & Hb).
  apply filter_In in Hb as [_ Hb]. rewrite hasPath_recordOf. exact Hb.
Qed.

Lemma hasPath_inv (wt : GitWorktree) :
  hasPath wt = true -> exists p, wt_path wt = Some p /\ p <> "".
Proof.
  unfold hasPath, truthy. destruct (wt_path wt) as [[|c p]|]; try discriminate.
  intros _. eexists. split; [reflexivity|discriminate].
Qed.

(** A line of no recognised kind leaves the state of the loop as it is. *)
Lemma step_unrecognised (st : state) (line : string) :
  recognised line = false -> step st line = st.
Proof.
  unfold recognised, isMarker. intros H.
  apply orb_false_elim in H as [H Hdetached].
  apply orb_false_elim in H as [H Hbare].
  apply orb_false_elim in H as [H Hbranch].
  apply orb_false_elim in H as [Hmarker Hhead].
  unfold step. destruct st as [worktrees current].
  rewrite Hmarker, Hhead, Hbranch, Hbare, Hdetached. reflexivity.
Qed.

Lemma lastWithPrefix_In (prefix : string) (body : list string) (v : string) :
  lastWithPrefix prefix body = Some v ->
  exists line, In line body /\ Str.startsWith prefix line = true
               /\ v = Str.drop (String.length prefix) line.
Proof.
  induction body as [|line rest IH]; [discriminate|].
  cbn [lastWithPrefix].
  destruct (lastWithPrefix prefix rest) as [w|].
  - intros H. injection H as <-.
    destruct (IH eq_refl) as (l & Hin & Hl). exists l. split; [right; exact Hin|exact Hl].
  - destruct (Str.startsWith prefix line) eqn:E; [|discriminate].
    intros H. injection H as <-. exists line.
    split; [left; reflexivity|]. split; [exact E|reflexivity].
Qed.

Lemma bodyOf_In (lines : list string) (l : string) :
  In l (bodyOf lines) -> In l lines.
Proof.
  induction lines as [|line rest IH]; [intros H; exact H|].
  cbn [bodyOf]. destruct (isMarker line); [intros []|].
  intros [H|H]; [left; exact H|right; exact (IH H)].
Qed.

Lemma blocks_In (lines : list string) (b : block) :
  In b (blocks lines) -> forall l, In l (snd b) -> In l lines.
Proof.
  induction lines as [|line rest IH]; [intros []|].
  cbn [blocks]. destruct (isMarker line).
  - intros [<-|H] l Hl.
    + right. apply bodyOf_In. exact Hl.
    + right. exact (IH H l Hl).
  - intros H l Hl. right. exact (IH H l Hl).
Qed.

Lemma ref_of_branch_line (line : string) :
  Str.startsWith "branch refs/" line = true ->
  Str.startsWith "refs/" (Str.drop 7 line) = true.
Proof.
  intros H. apply StrFacts.startsWith_inv in H. rewrite H.
  change (Str.drop 7 ("branch refs/" ++ Str.drop (String.length "branch refs/") line))
    with ("refs/" ++ Str.drop (String.length "branch refs/") line).
  apply StrFacts.startsWith_app.
Qed.

(** The branch of a record is what a branch line of the input says. *)
Lemma branch_of_record (lines : list string) (wt : GitWorktree) (b : string) :
  In wt (parseLines lines) -> wt_branch wt = Some b ->
  exists line, In line lines /\ Str.startsWith "branch " line = true
               /\ b = Str.drop 7 line.
Proof.
  rewrite parseLines_any. intros Hin Hb.
  apply in_map_iff in Hin as ([marker body] & <- & Hblock).
  apply filter_In in Hblock as [Hblock _].
  cbn [recordOf wt_branch] in Hb.
  apply lastWithPrefix_In in Hb as (line & Hline & Hprefix & Hv).
  exists line. split; [|split; [exact Hprefix|exact Hv]].
  exact (blocks_In _ _ Hblock line Hline).
Qed.

Lemma ref_is_not (b name : string) :
  Str.startsWith "refs/" b = true -> Str.startsWith "refs/" name = false ->
  String.eqb b name = false.
Proof.
  intros Hb Hname. destruct (String.eqb b name) eqn:E; [|reflexivity].
  apply String.eqb_eq in E. subst name. rewrite Hb in Hname. discriminate Hname.
Qed.

End ListingFacts.

Import Porcelain PorcelainSpec ListingShape.

(** X3. Every record that [listWorktrees] returns has a path that is
    not empty, whatever git printed, although the parser fills in a
    partial record and casts it; so the worktree that
    [findWorktreeByName] finds has a path, and that path ends with a
    separator followed by the name. *)
Theorem listed_worktrees_have_a_path :
  forall (output cwd name : string),
    List.forallb hasPath (Porcelain.parse output) = true
    /\ ProgAux.ensures (fun worktrees => List.forallb hasPath worktrees = true)
         (listWorktrees cwd)
    /\ ProgAux.ensures
         (fun found =>
            match found with
            | Some wt =>
                exists p, wt_path wt = Some p /\ p <> ""
                          /\ (Str.endsWith ("/" ++ name) p
                              || Str.endsWith ("\" ++ name) p) = true
            | None => True
            end)
         (findWorktreeByName cwd name).
Proof.
  intros output cwd name.
  assert (Hlist : ProgAux.ensures
                    (fun worktrees => List.forallb hasPath worktrees = true)
                    (listWorktrees cwd)).
  { intros host past worktrees evs H.
    rewrite interp_listWorktrees in H. cbv zeta in H.
    destruct (negb _); [discriminate H|].
    injection H as <- _. apply ListingFacts.forallb_hasPath. }
  split; [apply ListingFacts.forallb_hasPath|].
  split; [exact Hlist|].
  unfold findWorktreeByName.
  apply ProgFacts.ensures_bind
    with (Q1 := fun worktrees => List.forallb hasPath worktrees = true);
    [exact Hlist|].
  intros worktrees Hall. apply ProgFacts.ensures_Ret.
  destruct (List.find _ worktrees) as [wt|] eqn:Hfind; [|exact I].
  apply List.find_some in Hfind as [Hin Hends].
  pose proof (proj1 (forallb_forall _ _) Hall wt Hin) as Hpath.
  apply ListingFacts.hasPath_inv in Hpath as (p & Hp & Hne).
  exists p. rewrite Hp in Hends. split; [exact Hp|]. split; [exact Hne|exact Hends].
Qed.

(** X4. A line of the listing that is none of the five kinds the parser
    tests for (the path marker, [HEAD], [branch], [bare], [detached]) is
    ignored wherever it stands: the blank lines between the blocks and
    the [locked] and [prunable] lines of git change nothing in the
    result. *)
Theorem unrecognised_lines_are_ignored :
  forall (before after : list string) (line : string),
    recognised line = false ->
    Porcelain.parseLines (before ++ line :: after)
    = Porcelain.parseLines (before ++ after)
    /\ recognised "" = false
    /\ recognised "locked" = false
    /\ recognised "prunable gitdir file points to non-existent location" = false.
Proof.
  intros before after line Hline.
  split; [|repeat split; reflexivity].
  unfold parseLines, loop.
  rewrite !fold_left_app. cbn [fold_left].
  rewrite (ListingFacts.step_unrecognised _ _ Hline). reflexivity.
Qed.

Lemma unrecognised_lines_are_ignored_witness :
  Porcelain.parseLines
    ["worktree /repo"; "HEAD 1111111"; "locked"; "branch refs/heads/main"]
  = Porcelain.parseLines ["worktree /repo"; "HEAD 1111111"; "branch refs/heads/main"].
Proof.
  exact (proj1 (@unrecognised_lines_are_ignored
                  ["worktree /repo"; "HEAD 1111111"] ["branch refs/heads/main"]
                  "locked" eq_refl)).
Defined.

(** X5. The branch of a record is kept as git prints it, a full ref
    such as [refs/heads/main]. On a listing whose branch lines all carry
    a full ref, no record has the branch [main] or [master], and the
    filter that [rm] applies before it prints the available worktrees,
    [!wt.bare && wt.branch !== 'main' && wt.branch !== 'master'], keeps
    every worktree that is not bare, the one on [main] included. *)
Theorem listed_branches_are_full_refs :
  forall (lines : list string),
    List.forallb branchAsRef lines = true ->
    (forall wt b,
        In wt (Porcelain.parseLines lines) -> wt_branch wt = Some b ->
        Str.startsWith "refs/" b = true /\ b <> "main" /\ b <> "master")
    /\ List.filter isSideWorktree (Porcelain.parseLines lines)
       = List.filter notBare (Porcelain.parseLines lines).
Proof.
  intros lines Hrefs.
  assert (Hbranch : forall wt b,
             In wt (Porcelain.parseLines lines) -> wt_branch wt = Some b ->
             Str.startsWith "refs/" b = true).
  { intros wt b Hin Hb.
    destruct (ListingFacts.branch_of_record _ _ Hin Hb) as (line & Hline & Hprefix & ->).
    pose proof (proj1 (forallb_forall _ _) Hrefs line Hline) as Href.
    unfold branchAsRef in Href. rewrite Hprefix in Href.
    apply ListingFacts.ref_of_branch_line. exact Href. }
  split.
  - intros wt b Hin Hb. pose proof (Hbranch wt b Hin Hb) as Href.
    split; [exact Href|].
    split; intros ->; discriminate Href.
  - apply List.filter_ext_in. intros wt Hin.
    unfold isSideWorktree, notBare.
    destruct (wt_branch wt) as [b|] eqn:Hb.
    + pose proof (Hbranch wt b Hin Hb) as Href.
      rewrite (ListingFacts.ref_is_not b "main" Href eq_refl).
      rewrite (ListingFacts.ref_is_not b "master" Href eq_refl).
      rewrite !andb_true_r. reflexivity.
    + rewrite !andb_true_r. reflexivity.
Qed.

Lemma listed_branches_are_full_refs_witness :
  List.filter isSideWorktree (Porcelain.parse Sample.listing)
  = List.filter notBare (Porcelain.parse Sample.listing).
Proof.
  exact (proj2 (@listed_branches_are_full_refs
                  (Porcelain.linesOf Sample.listing) eq_refl)).
Defined.
(* ================================================================== *)
(** * The remotes *)
(* ================================================================== *)

Module RemoteFacts.
Import Regex RegexAux RegexFacts UrlFacts RemoteShape.
Import ProgFacts ExecFacts.

Lemma token_inv (p : ascii -> bool) (s : string) :
  token p s = true -> s <> "" /\ Str.forallb p s = true.
Proof.
  unfold token. intros H. apply andb_prop in H as [Hne Hall].
  split; [|exact Hall]. intros ->. discriminate Hne.
Qed.

Lemma stopsAt_token (p q : ascii -> bool) (h t : string) :
  (forall c, q c = true -> p c = false) ->
  h <> "" -> Str.forallb q h = true -> stopsAt p (h ++ t).
Proof.
  intros Hpq Hne Hall. destruct h as [|c h]; [contradiction Hne; reflexivity|].
  cbn [String.append stopsAt]. cbn [Str.forallb] in Hall.
  apply andb_prop in Hall as [Hc _]. exact (Hpq c Hc).
Qed.

Lemma rejects_plus (p q : ascii -> bool) (R : regex) (k : cont) :
  (forall c, p c = true -> q c = false) ->
  rejects p (fun j s cs => run (Seq (Plus q) R) j s cs k).
Proof.
  intros Hpq j c s cs Hc. cbn [run plusGreedy]. rewrite (Hpq c Hc). reflexivity.
Qed.

Lemma rejects_group_plus (p q : ascii -> bool) (n : nat) (R : regex) (k : cont) :
  (forall c, p c = true -> q c = false) ->
  rejects p (fun j s cs => run (Seq (Group n (Plus q)) R) j s cs k).
Proof.
  intros Hpq j c s cs Hc. cbn [run plusGreedy]. rewrite (Hpq c Hc). reflexivity.
Qed.

Lemma rejects_chr (p : ascii -> bool) (d : ascii) (R : regex) (k : cont) :
  p d = false -> rejects p (fun j s cs => run (Seq (Chr d) R) j s cs k).
Proof.
  intros Hd j c s cs Hc. cbn [run].
  destruct (Ascii.eqb d c) eqn:E; [|reflexivity].
  apply Ascii.eqb_eq in E. subst c. rewrite Hc in Hd. discriminate Hd.
Qed.

(** [cls+] in front of a pattern that cannot start in the class takes
    the whole run of the class. *)
Lemma run_plus_token (p : ascii -> bool) (h t : string) i cs (R : regex) (k : cont) :
  h <> "" -> Str.forallb p h = true -> stopsAt p t ->
  rejects p (fun j s cs => run R j s cs k) ->
  run (Seq (Plus p) R) i (h ++ t) cs k = run R (i + String.length h) t cs k.
Proof.
  intros Hne Hall Hstop Hrej. cbn [run].
  rewrite plusGreedy_exact by assumption. reflexivity.
Qed.

Lemma run_group_token (p : ascii -> bool) (n : nat) (h t : string) i cs
      (R : regex) (k : cont) :
  h <> "" -> Str.forallb p h = true -> stopsAt p t ->
  rejects p (fun j s cs => run R j s cs k) ->
  run (Seq (Group n (Plus p)) R) i (h ++ t) cs k
  = run R (i + String.length h) t ((n, h) :: cs) k.
Proof.
  intros Hne Hall Hstop Hrej. cbn [run].
  rewrite plusGreedy_exact; [| exact Hne | exact Hall | | exact Hstop].
  - rewrite StrFacts.take_app_offset. reflexivity.
  - intros j c s cs' Hc. apply Hrej. exact Hc.
Qed.

Lemma space_nonSpace (c : ascii) : space c = true -> nonSpace c = false.
Proof. unfold space, nonSpace. intros ->. reflexivity. Qed.

Lemma nonSpace_space (c : ascii) : nonSpace c = true -> space c = false.
Proof. unfold space, nonSpace. intros H. apply negb_true_iff in H. exact H. Qed.

(** The match of the pattern of [getRemotes] on a line of the shape
    [name url (type)]. *)
Lemma matchAt_remoteLine (name ws1 url ws2 type : string) :
  token nonSpace name = true -> token space ws1 = true ->
  token nonSpace url = true -> token space ws2 = true ->
  token word type = true ->
  exists j,
    matchAt remoteLineRegex 0 (name ++ ws1 ++ url ++ ws2 ++ "(" ++ type ++ ")")
    = Some (j, [(3, type); (2, url); (1, name)]).
Proof.
  intros Hname Hws1 Hurl Hws2 Htype.
  apply token_inv in Hname as [Hname1 Hname2].
  apply token_inv in Hws1 as [Hws11 Hws12].
  apply token_inv in Hurl as [Hurl1 Hurl2].
  apply token_inv in Hws2 as [Hws21 Hws22].
  apply token_inv in Htype as [Htype1 Htype2].
  eexists. unfold matchAt, remoteLineRegex.
  rewrite run_Seq.
  change (run Bos 0 ?s ?cs ?k) with (k 0 s cs). cbv beta.
  rewrite run_group_token;
    [| exact Hname1 | exact Hname2
     | exact (@stopsAt_token nonSpace space _ _ space_nonSpace Hws11 Hws12)
     | apply rejects_plus; exact nonSpace_space ].
  rewrite run_plus_token;
    [| exact Hws11 | exact Hws12
     | exact (@stopsAt_token space nonSpace _ _ nonSpace_space Hurl1 Hurl2)
     | apply rejects_group_plus; exact space_nonSpace ].
  rewrite run_group_token;
    [| exact Hurl1 | exact Hurl2
     | exact (@stopsAt_token nonSpace space _ _ space_nonSpace Hws21 Hws22)
     | apply rejects_plus; exact nonSpace_space ].
  rewrite run_plus_token;
    [| exact Hws21 | exact Hws22
     | reflexivity
     | apply rejects_chr; reflexivity ].
  change ("(" ++ type ++ ")") with (String "(" (type ++ ")")).
  rewrite run_Seq, run_Chr_cons.
  change (Ascii.eqb "(" "(") with true. cbv iota beta.
  rewrite run_group_token;
    [| exact Htype1 | exact Htype2
     | reflexivity
     | apply rejects_chr; reflexivity ].
  reflexivity.
Qed.

Lemma remoteOfLine_shape (name ws1 url ws2 type : string) :
  token nonSpace name = true -> token space ws1 = true ->
  token nonSpace url = true -> token space ws2 = true ->
  token word type = true ->
  remoteOfLine (name ++ ws1 ++ url ++ ws2 ++ "(" ++ type ++ ")")
  = [mkGitRemote name url type].
Proof.
  intros Hname Hws1 Hurl Hws2 Htype.
  destruct (@matchAt_remoteLine _ _ _ _ _ Hname Hws1 Hurl Hws2 Htype) as [j Hm].
  unfold remoteOfLine, exec. rewrite (@searchFrom_hit _ _ _ _ Hm).
  apply token_inv in Hname as [Hname _].
  apply token_inv in Hurl as [Hurl _].
  apply token_inv in Htype as [Htype _].
  set (cs := [(3, type); (2, url); (1, name)]).
  rewrite (@capture_truthy 1 name cs Hname eq_refl),
    (@capture_truthy 2 url cs Hurl eq_refl),
    (@capture_truthy 3 type cs Htype eq_refl).
  reflexivity.
Qed.

Lemma remoteOfLine_remoteLine (r : GitRemote) :
  wellFormed r = true -> remoteOfLine (remoteLine r) = [r].
Proof.
  unfold wellFormed. intros H.
  apply andb_prop in H as [H Htype]. apply andb_prop in H as [Hname Hurl].
  destruct r as [name url type]. cbn [remote_name remote_url remote_type] in *.
  exact (@remoteOfLine_shape name (String "009" "") url " " type
           Hname eq_refl Hurl eq_refl Htype).
Qed.

(** ** Trimming and splitting *)

Lemma trimStart_nonSpace (c : ascii) (s : string) :
  Str.isSpace c = false -> Str.trimStart (String c s) = String c s.
Proof. intros H. cbn [Str.trimStart]. rewrite H. reflexivity. Qed.

Lemma trimEnd_spaces (w : string) :
  Str.forallb Str.isSpace w = true -> Str.trimEnd w = "".
Proof.
  induction w as [|c w IH]; [reflexivity|].
  cbn [Str.forallb Str.trimEnd]. intros H. apply andb_prop in H as [Hc Hw].
  rewrite (IH Hw), Hc. reflexivity.
Qed.

Lemma trimEnd_app (u : string) (c : ascii) (w : string) :
  Str.isSpace c = false -> Str.forallb Str.isSpace w = true ->
  Str.trimEnd (u ++ String c w) = u ++ String c "".
Proof.
  intros Hc Hw. induction u as [|a u IH].
  - cbn [String.append Str.trimEnd]. rewrite (@trimEnd_spaces _ Hw), Hc. reflexivity.
  - cbn [String.append Str.trimEnd]. rewrite IH.
    destruct u; reflexivity.
Qed.

(** A text that starts and ends outside the white space is what
    [trim] leaves of it, whatever white space follows. *)
Lemma trim_core (a : ascii) (u : string) (c : ascii) (w : string) :
  Str.isSpace a = false -> Str.isSpace c = false ->
  Str.forallb Str.isSpace w = true ->
  Str.trim (String a (u ++ String c w)) = String a (u ++ String c "").
Proof.
  intros Ha Hc Hw. unfold Str.trim. rewrite (@trimStart_nonSpace a _ Ha).
  exact (@trimEnd_app (String a u) c w Hc Hw).
Qed.

Lemma split_line (x rest : string) :
  Str.forallb noNewline x = true ->
  Str.split "010" (x ++ String "010" rest) = x :: Str.split "010" rest.
Proof.
  induction x as [|c x IH]; [reflexivity|].
  cbn [Str.forallb]. intros H. apply andb_prop in H as [Hc Hx].
  cbn [String.append Str.split]. rewrite (IH Hx).
  unfold noNewline in Hc. apply negb_true_iff in Hc. rewrite Hc. reflexivity.
Qed.

Lemma split_last (x : string) :
  Str.forallb noNewline x = true -> Str.split "010" x = [x].
Proof.
  induction x as [|c x IH]; [reflexivity|].
  cbn [Str.forallb]. intros H. apply andb_prop in H as [Hc Hx].
  cbn [Str.split]. rewrite (IH Hx).
  unfold noNewline in Hc. apply negb_true_iff in Hc. rewrite Hc. reflexivity.
Qed.

Lemma split_join (lines : list string) :
  lines <> [] -> List.forallb (Str.forallb noNewline) lines = true ->
  Str.split "010" (Str.join nl lines) = lines.
Proof.
  induction lines as [|x rest IH]; [intros H; contradiction H; reflexivity|].
  intros _ H. cbn [List.forallb] in H. apply andb_prop in H as [Hx Hrest].
  destruct rest as [|y rest].
  - cbn [Str.join String.concat]. exact (@split_last _ Hx).
  - change (Str.join nl (x :: y :: rest))
      with (x ++ String "010" (Str.join nl (y :: rest))).
    rewrite (@split_line _ _ Hx), IH; [reflexivity|discriminate|exact Hrest].
Qed.

(** ** The lines git prints *)

Lemma nonSpace_noNewline (c : ascii) : nonSpace c = true -> noNewline c = true.
Proof.
  unfold nonSpace, noNewline. intros H.
  destruct (Ascii.eqb c "010") eqn:E; [|reflexivity].
  apply Ascii.eqb_eq in E. subst c. discriminate H.
Qed.

Lemma word_noNewline (c : ascii) : word c = true -> noNewline c = true.
Proof.
  unfold noNewline. intros H.
  destruct (Ascii.eqb c "010") eqn:E; [|reflexivity].
  apply Ascii.eqb_eq in E. subst c. discriminate H.
Qed.

Lemma word_nonSpace (c : ascii) : word c = true -> Str.isSpace c = false.
Proof.
  intros H. destruct (Str.isSpace c) eqn:E; [|reflexivity].
  unfold Str.isSpace in E. unfold word, isLower, isUpper, isDigit, inRange in H.
  rewrite !orb_true_iff in E. rewrite !Nat.eqb_eq in E.
  destruct E as [[[[[[E|E]|E]|E]|E]|E]|E];
    rewrite E in H; cbn in H;
    (destruct (Ascii.eqb c "_") eqn:Eu; [|discriminate H]);
    apply Ascii.eqb_eq in Eu; subst c; discriminate E.
Qed.

Section Line.
Variable r : GitRemote.
Hypothesis Hr : wellFormed r = true.

Lemma remoteLine_noNewline : Str.forallb noNewline (remoteLine r) = true.
Proof.
  unfold wellFormed in Hr.
  apply andb_prop in Hr as [H Htype]. apply andb_prop in H as [Hname Hurl].
  apply token_inv in Hname as [_ Hname].
  apply token_inv in Hurl as [_ Hurl].
  apply token_inv in Htype as [_ Htype].
  unfold remoteLine.
  rewrite StrFacts.forallb_app. cbn [Str.forallb].
  rewrite !StrFacts.forallb_app. cbn [Str.forallb].
  rewrite (@forallb_impl nonSpace noNewline _ nonSpace_noNewline Hname).
  rewrite (@forallb_impl nonSpace noNewline _ nonSpace_noNewline Hurl).
  rewrite (@forallb_impl word noNewline _ word_noNewline Htype).
  reflexivity.
Qed.

(** A line starts with a character of the name and ends with the
    closing parenthesis. *)
Lemma remoteLine_ends :
  exists a u, remoteLine r = String a (u ++ ")") /\ Str.isSpace a = false.
Proof.
  unfold wellFormed in Hr.
  apply andb_prop in Hr as [H _]. apply andb_prop in H as [Hname _].
  apply token_inv in Hname as [Hne Hname].
  unfold remoteLine.
  destruct (remote_name r) as [|a name]; [contradiction Hne; reflexivity|].
  cbn [Str.forallb] in Hname. apply andb_prop in Hname as [Ha _].
  exists a, (name ++ String "009" (remote_url r ++ " (" ++ remote_type r)).
  split.
  - cbn [String.append]. f_equal.
    rewrite StrFacts.app_assoc. cbn [String.append]. f_equal. f_equal.
    rewrite !StrFacts.app_assoc. reflexivity.
  - unfold nonSpace in Ha. apply negb_true_iff in Ha. exact Ha.
Qed.

End Line.

Lemma listing_cons (r : GitRemote) (rest : list GitRemote) :
  listing (r :: rest)
  = match rest with
    | [] => remoteLine r
    | _ => remoteLine r ++ String "010" (listing rest)
    end.
Proof. destruct rest; reflexivity. Qed.

(** What git prints for a list of remotes that is not empty starts and
    ends outside the white space. *)
Lemma listing_ends (remotes : list GitRemote) :
  remotes <> [] -> List.forallb wellFormed remotes = true ->
  exists a u, listing remotes = String a (u ++ ")") /\ Str.isSpace a = false.
Proof.
  induction remotes as [|r rest IH]; [intros H; contradiction H; reflexivity|].
  intros _ H. cbn [List.forallb] in H. apply andb_prop in H as [Hr Hrest].
  rewrite listing_cons.
  destruct (@remoteLine_ends r Hr) as (a & u & Hline & Ha).
  destruct rest as [|r' rest].
  - exists a, u. split; [exact Hline|exact Ha].
  - destruct (IH ltac:(discriminate) Hrest) as (a' & u' & Hl & _).
    rewrite Hline, Hl. exists a, (u ++ ")" ++ String "010" (String a' u')).
    split; [|exact Ha].
    cbn [String.append]. f_equal. rewrite !StrFacts.app_assoc. reflexivity.
Qed.

Lemma lines_of_listing (remotes : list GitRemote) (w : string) :
  remotes <> [] -> List.forallb wellFormed remotes = true ->
  Str.forallb Str.isSpace w = true ->
  Str.split "010" (Str.trim (listing remotes ++ w))
  = List.map remoteLine remotes.
Proof.
  intros Hne Hall Hw.
  destruct (listing_ends Hne Hall) as (a & u & Hl & Ha).
  assert (Htrim : Str.trim (listing remotes ++ w) = listing remotes).
  { rewrite Hl. cbn [String.append]. rewrite StrFacts.app_assoc.
    cbn [String.append]. apply trim_core; solve [assumption | reflexivity]. }
  rewrite Htrim. unfold listing. apply split_join.
  - destruct remotes; [contradiction Hne; reflexivity|discriminate].
  - rewrite forallb_forall in Hall |- *.
    intros line Hin. apply in_map_iff in Hin as (r & <- & Hin).
    exact (@remoteLine_noNewline r (Hall r Hin)).
Qed.

Lemma remoteLine_kept (r : GitRemote) :
  wellFormed r = true -> truthy (Some (Str.trim (remoteLine r))) = true.
Proof.
  intros Hr. destruct (@remoteLine_ends r Hr) as (a & u & Hl & Ha).
  rewrite Hl. rewrite trim_core; solve [assumption | reflexivity].
Qed.

(** The body of [getRemotes] after the command has run, on what git
    prints for the remotes. *)
Lemma remotes_of_listing (remotes : list GitRemote) (w : string) :
  List.forallb wellFormed remotes = true ->
  Str.forallb Str.isSpace w = true ->
  List.flat_map remoteOfLine
    (List.filter (fun line => truthy (Some (Str.trim line)))
       (Str.split "010" (Str.trim (listing remotes ++ w))))
  = remotes.
Proof.
  intros Hall Hw.
  destruct remotes as [|r0 rest].
  - change (listing [] ++ w) with w.
    assert (Hempty : Str.trim w = "").
    { unfold Str.trim.
      assert (Hstart : Str.trimStart w = "").
      { clear -Hw. induction w as [|c w IH]; [reflexivity|].
        cbn [Str.forallb] in Hw. apply andb_prop in Hw as [Hc Hw].
        cbn [Str.trimStart]. rewrite Hc. exact (IH Hw). }
      rewrite Hstart. reflexivity. }
    rewrite Hempty. reflexivity.
  - rewrite lines_of_listing by (solve [discriminate | assumption]).
    set (remotes := r0 :: rest) in *. clearbody remotes.
    induction remotes as [|r remotes IH]; [reflexivity|].
    cbn [List.forallb] in Hall. apply andb_prop in Hall as [Hr Hrest].
    cbn [List.map List.filter]. rewrite (@remoteLine_kept r Hr).
    cbn [List.flat_map]. rewrite (@remoteOfLine_remoteLine r Hr), (IH Hrest).
    reflexivity.
Qed.

Lemma interp_getRemotes (host : Host) past cwd :
  let query := Execa "git" ["remote"; "-v"] (Some cwd) in
  interp host past (getRemotes cwd)
  = (let result := ExecUtils.resultOf (host _ past query) in
     if negb (Z.eqb (exitCode result) 0)
     then Err (wrapError GitError "Failed to get git remotes: "
                 (ExecUtils.commandFailed "git" ["remote"; "-v"] result))
     else Ok (List.flat_map remoteOfLine
                (List.filter (fun line => truthy (Some (Str.trim line)))
                   (Str.split "010" (Str.trim (stdout result))))),
     [Ev query (host _ past query)]).
Proof.
  cbv zeta. unfold getRemotes.
  rewrite interp_tryCatch, interp_bind, interp_runOrThrow. cbv zeta.
  destruct (negb _); reflexivity.
Qed.

End RemoteFacts.

Import RemoteShape.

(** X6. [getRemotes] reads back what git prints: when [git remote -v]
    exits with status 0 and prints one line [name<TAB>url (type)] per
    remote, with or without white space after the last line, the result
    is the list of these remotes, in the order of the lines; this holds
    for every list of remotes whose names and URLs hold no white space
    and whose types are words, the empty list included. *)
Theorem getRemotes_reads_back :
  forall (host : Host) (past : list Event) (cwd : string)
         (remotes : list GitRemote) (err : option string) (w : string),
    List.forallb wellFormed remotes = true ->
    Str.forallb Str.isSpace w = true ->
    host _ past (Execa "git" ["remote"; "-v"] (Some cwd))
    = Resolved (Some (listing remotes ++ w)) err (Some 0%Z) ->
    outcomeOf host past (getRemotes cwd) = Ok remotes
    /\ (forall name ws1 url ws2 type,
           token Regex.nonSpace name = true -> token Regex.space ws1 = true ->
           token Regex.nonSpace url = true -> token Regex.space ws2 = true ->
           token Regex.word type = true ->
           remoteOfLine (name ++ ws1 ++ url ++ ws2 ++ "(" ++ type ++ ")")
           = [mkGitRemote name url type]).
Proof.
  intros host past cwd remotes err w Hall Hw Hanswer.
  split; [|exact RemoteFacts.remoteOfLine_shape].
  unfold outcomeOf. rewrite RemoteFacts.interp_getRemotes. cbv zeta.
  rewrite Hanswer. cbn [ExecUtils.resultOf stringOr nullish exitCode stdout
                        Z.eqb negb fst].
  rewrite (@RemoteFacts.remotes_of_listing _ _ Hall Hw). reflexivity.
Qed.

Lemma getRemotes_reads_back_witness :
  outcomeOf Sample.host [] (getRemotes "/repo")
  = Ok [mkGitRemote "origin" "git@github.com:user/repo.git" "fetch";
        mkGitRemote "origin" "git@github.com:user/repo.git" "push"].
Proof.
  exact (proj1 (@getRemotes_reads_back Sample.host [] "/repo"
                  [mkGitRemote "origin" "git@github.com:user/repo.git" "fetch";
                   mkGitRemote "origin" "git@github.com:user/repo.git" "push"]
                  (Some "") "" eq_refl eq_refl eq_refl)).
Defined.

Module PrefixFacts.
Import ProgFacts ExecFacts.

Lemma interp_generatePrefix (host : Host) past cwd :
  interp host past (generatePrefix cwd)
  = match interp host past (getRemotes cwd) with
    | (Ok remotes, evs) =>
        (match List.find isOriginFetch remotes with
         | None => Err (MkError GitError "No origin remote found" None)
         | Some origin =>
             match extractRepoName (remote_url origin) with
             | Ok repoName => Ok (repoName ++ "-")
             | Err e => Err e
             end
         end, evs)
    | (Err e, evs) => (Err e, evs)
    end.
Proof.
  unfold generatePrefix, getOriginUrl. rewrite !interp_bind.
  destruct (interp host past (getRemotes cwd)) as [[remotes|e] evs]; [|reflexivity].
  change (fun remote : GitRemote =>
            String.eqb (remote_name remote) "origin"
            && String.eqb (remote_type remote) "fetch") with isOriginFetch.
  destruct (List.find isOriginFetch remotes) as [origin|]; cbn [interp].
  - rewrite interp_bind.
    destruct (extractRepoName (remote_url origin)) as [repoName|e];
      cbn [ofResult interp]; rewrite ?app_nil_r; reflexivity.
  - rewrite app_nil_r. reflexivity.
Qed.

End PrefixFacts.

Import UrlShape.

(** X7. The prefix that [prefixType: 'detect'] asks for is the name of
    the repository of the first fetch line of the remote [origin],
    followed by a dash: for an origin of either supported shape it is
    the final path segment without [.git]. Every failure on the way (git
    fails, no origin, a URL of another shape) is a [GitError], and no
    other command than [git remote -v] is run. *)
Theorem generatePrefix_from_origin :
  forall (host : Host) (past : list Event) (cwd : string),
    (forall e evs,
        interp host past (generatePrefix cwd) = (Err e, evs) ->
        errClass e = GitError)
    /\ List.map performed (eventsOf host past (generatePrefix cwd))
       = [existT _ _ (Execa "git" ["remote"; "-v"] (Some cwd))]
    /\ (forall remotes evs,
           interp host past (getRemotes cwd) = (Ok remotes, evs) ->
           List.find isOriginFetch remotes = None ->
           outcomeOf host past (generatePrefix cwd)
           = Err (MkError GitError "No origin remote found" None))
    /\ (forall remotes evs origin h group name dotGit,
           interp host past (getRemotes cwd) = (Ok remotes, evs) ->
           List.find isOriginFetch remotes = Some origin ->
           sshHost h -> groupOk group -> nameOk name dotGit ->
           remote_url origin = sshUrl "git" h group name dotGit ->
           outcomeOf host past (generatePrefix cwd) = Ok (name ++ "-"))
    /\ (forall remotes evs origin secure h group name dotGit trailingSlash,
           interp host past (getRemotes cwd) = (Ok remotes, evs) ->
           List.find isOriginFetch remotes = Some origin ->
           httpHost h -> groupOk group -> nameOk name dotGit ->
           remote_url origin = httpUrl secure h group name dotGit trailingSlash ->
           outcomeOf host past (generatePrefix cwd) = Ok (name ++ "-")).
Proof.
  intros host past cwd.
  pose proof (PrefixFacts.interp_generatePrefix host past cwd) as Hrun.
  pose proof (RemoteFacts.interp_getRemotes host past cwd) as Hremotes.
  cbv zeta in Hremotes.
  split; [|split; [|split; [|split]]].
  - intros e evs H. rewrite Hrun, Hremotes in H.
    destruct (negb _).
    + injection H as <- _. reflexivity.
    + destruct (List.find isOriginFetch _) as [origin|].
      * destruct (extractRepoName (remote_url origin)) as [repoName|e'] eqn:E;
          [discriminate H|].
        injection H as <- _. exact (extractRepoName_failure _ E).
      * injection H as <- _. reflexivity.
  - unfold eventsOf. rewrite Hrun, Hremotes.
    destruct (negb _); reflexivity.
  - intros remotes evs Hget Hfind. unfold outcomeOf.
    rewrite Hrun, Hget, Hfind. reflexivity.
  - intros remotes evs origin h group name dotGit Hget Hfind Hh Hgroup Hname Hurl.
    unfold outcomeOf. rewrite Hrun, Hget, Hfind, Hurl.
    rewrite (@extractRepoName_ssh h group name dotGit Hh Hgroup Hname). reflexivity.
  - intros remotes evs origin secure h group name dotGit trailingSlash
           Hget Hfind Hh Hgroup Hname Hurl.
    unfold outcomeOf. rewrite Hrun, Hget, Hfind, Hurl.
    rewrite (@extractRepoName_http secure h group name dotGit trailingSlash
               Hh Hgroup Hname).
    reflexivity.
Qed.

Lemma generatePrefix_from_origin_witness :
  outcomeOf Sample.host [] (generatePrefix "/repo") = Ok "repo-".
Proof.
  assert (Hh : sshHost "github.com") by (split; [discriminate | reflexivity]).
  assert (Hg : groupOk (Some "user")) by (split; [discriminate | reflexivity]).
  assert (Hn : nameOk "repo" true).
  { split; [split; [discriminate | reflexivity]|]. intros H; discriminate H. }
  refine (proj1 (proj2 (proj2 (proj2
            (@generatePrefix_from_origin Sample.host [] "/repo"))))
            [mkGitRemote "origin" "git@github.com:user/repo.git" "fetch";
             mkGitRemote "origin" "git@github.com:user/repo.git" "push"]
            (eventsOf Sample.host [] (getRemotes "/repo"))
            (mkGitRemote "origin" "git@github.com:user/repo.git" "fetch")
            "github.com" (Some "user") "repo" true _ eq_refl Hh Hg Hn eq_refl).
  vm_compute. reflexivity.
Defined.
(* ================================================================== *)
(** * The hosting CLIs *)
(* ================================================================== *)

Module HostingFacts.
Import ProgFacts ExecFacts HostingAux.

Local Open Scope prog_scope.

Section Request.
Variable P : Platform.
Variable host : Host.
Variable past : list Event.
Variable cwd : string.
Variable provider : Provider.
Variable number : Z.

Lemma interp_getRequest :
  interp host past (getRequest P cwd provider number)
  = (requestOf P provider number (viewed host past cwd provider number),
     (lookedUp host past provider
      ++ [Ev (view cwd provider number) (viewed host past cwd provider number)])%list).
Proof.
  unfold getRequest, isAvailable.
  rewrite interp_bind, interp_exists. cbn [negb].
  rewrite interp_tryCatch, interp_bind, interp_runOrThrow. cbv zeta.
  unfold requestOf, viewed, lookedUp, view, lookup, requestFailure.
  destruct (negb _).
  - reflexivity.
  - cbn [app]. destruct (JSON_parse P _); reflexivity.
Qed.

End Request.

End HostingFacts.

Import ProgFacts ExecFacts HostingAux HostingFacts.

(** X8. [getMergeRequest] and [getPullRequest] always run the look-up
    of the binary and then the view command, whatever the look-up
    reports: the branch that raises [... CLI is not available. Please
    install it first.] is never taken. Every failure is the error of the
    provider with the message [Failed to get <merge|pull> request <n>: ]
    followed by the message of its cause, the failed command or the
    output that is not JSON. *)
Theorem getRequest_never_reports_missing_cli :
  forall (P : Platform) (host : Host) (past : list Event) (cwd : string)
         (provider : Provider) (number : Z),
    List.map performed (eventsOf host past (getRequest P cwd provider number))
    = [existT _ _ (Execa "which" [cli provider] None);
       existT _ _ (Execa (cli provider) (viewArgs provider (Str.ofZ number))
                     (Some cwd))]
    /\ outcomeOf host past (getRequest P cwd provider number)
       <> Err (MkError (providerError provider)
                 (cli provider ++ " CLI is not available. Please install it first.")
                 None)
    /\ (forall e,
           outcomeOf host past (getRequest P cwd provider number) = Err e ->
           exists cause,
             e = MkError (providerError provider)
                   ("Failed to get " ++ requestNoun provider ++ " "
                    ++ Str.ofZ number ++ ": " ++ errMessage cause)
                   (Some cause)
             /\ (errClass cause = KWTError "EXEC_ERROR"
                 \/ errClass cause = TypeError)).
Proof.
  intros P host past cwd provider number.
  unfold eventsOf, outcomeOf. rewrite interp_getRequest. cbn [fst snd].
  split; [reflexivity|].
  assert (Hfail : forall e,
             requestOf P provider number
               (viewed host past cwd provider number) = Err e ->
             exists cause,
               e = MkError (providerError provider)
                     ("Failed to get " ++ requestNoun provider ++ " "
                      ++ Str.ofZ number ++ ": " ++ errMessage cause)
                     (Some cause)
               /\ (errClass cause = KWTError "EXEC_ERROR"
                   \/ errClass cause = TypeError)).
  { intros e. unfold requestOf. cbv zeta.
    destruct (negb _).
    - intros H. injection H as <-. eexists. split.
      + unfold requestFailure, wrapError, messageOf.
        rewrite !StrFacts.app_assoc. reflexivity.
      + left. reflexivity.
    - destruct (JSON_parse P _); [discriminate|].
      intros H. injection H as <-. eexists. split.
      + unfold requestFailure, wrapError, messageOf.
        rewrite !StrFacts.app_assoc. reflexivity.
      + right. reflexivity. }
  split; [|exact Hfail].
  intros H. apply Hfail in H as (cause & H & _). discriminate H.
Qed.

(** X9. [isGitLabProject] and [isGitHubProject] answer exactly whether
    the command [<cli> repo view] exits with status 0, and
    [mergeRequestExists] and [pullRequestExists] exactly whether the
    view command exits with status 0 and prints JSON; both run after the
    look-up of the binary, which changes neither answer, and neither
    ever raises. *)
Theorem hosting_checks_follow_the_command :
  forall (P : Platform) (host : Host) (past : list Event) (cwd : string)
         (provider : Provider) (number : Z),
    let lookedUp := [Ev (Execa "which" [cli provider] None)
                        (host _ past (Execa "which" [cli provider] None))] in
    let repoView := Execa (cli provider) ["repo"; "view"] (Some cwd) in
    let view := Execa (cli provider) (viewArgs provider (Str.ofZ number))
                  (Some cwd) in
    interp host past (isProject cwd provider)
    = (Ok (Z.eqb (ExecUtils.exitStatus (host _ (past ++ lookedUp)%list repoView)) 0),
       (lookedUp ++ [Ev repoView (host _ (past ++ lookedUp)%list repoView)])%list)
    /\ interp host past (requestExists P cwd provider number)
       = (Ok (Z.eqb (ExecUtils.exitStatus (host _ (past ++ lookedUp)%list view)) 0
              && match JSON_parse P
                         (stdout (ExecUtils.resultOf
                                    (host _ (past ++ lookedUp)%list view))) with
                 | Some _ => true
                 | None => false
                 end),
          (lookedUp ++ [Ev view (host _ (past ++ lookedUp)%list view)])%list).
Proof.
  intros P host past cwd provider number lookedUp repoView view.
  split.
  - unfold isProject, isAvailable.
    rewrite interp_bind, interp_exists. cbn [negb].
    fold lookedUp. rewrite interp_probe. reflexivity.
  - unfold requestExists.
    rewrite interp_tryCatch, interp_bind, interp_getRequest.
    unfold requestOf, viewed, HostingAux.lookedUp, HostingAux.view, lookup.
    cbv zeta. fold lookedUp. fold view.
    rewrite exitCode_resultOf.
    destruct (Z.eqb (ExecUtils.exitStatus (host _ (past ++ lookedUp)%list view)) 0);
      cbn [negb andb].
    + destruct (JSON_parse P _); cbn [interp app]; rewrite ?app_nil_r; reflexivity.
    + cbn [interp app]. rewrite ?app_nil_r. reflexivity.
Qed.

(** X10. [fetchMergeRequestBranch] and [fetchPullRequestBranch] try
    [git fetch <remote> <branch>:<branch>] first and, only when that
    exits non-zero, [git fetch <remote> <branch>]. The call succeeds as
    soon as one of the two does; when both fail it raises the error of
    the provider, whose cause is the failure of the second command, the
    failure of the first being dropped. *)
Theorem fetchRequestBranch_falls_back :
  forall (P : Platform) (host : Host) (past : list Event) (cwd : string)
         (provider : Provider) (number : Z) (remote : string)
         (request : json) (evs : list Event),
    interp host past (getRequest P cwd provider number) = (Ok request, evs) ->
    request <> JNull ->
    let branchName := showProp (getField (branchField provider) request) in
    let first := Execa "git" ["fetch"; remote; branchName ++ ":" ++ branchName]
                   (Some cwd) in
    let second := Execa "git" ["fetch"; remote; branchName] (Some cwd) in
    let past1 := (past ++ evs)%list in
    let answer1 := host _ past1 first in
    let past2 := (past1 ++ [Ev first answer1])%list in
    let answer2 := host _ past2 second in
    interp host past (fetchRequestBranch P cwd provider number remote)
    = if Z.eqb (ExecUtils.exitStatus answer1) 0 then
        (Ok tt, (evs ++ [Ev first answer1])%list)
      else if Z.eqb (ExecUtils.exitStatus answer2) 0 then
        (Ok tt, (evs ++ [Ev first answer1; Ev second answer2])%list)
      else
        (Err (wrapError (providerError provider)
                ("Failed to fetch branch " ++ branchName ++ ": ")
                (ExecUtils.commandFailed "git" ["fetch"; remote; branchName]
                   (ExecUtils.resultOf answer2))),
         (evs ++ [Ev first answer1; Ev second answer2])%list).
Proof.
  intros P host past cwd provider number remote request evs Hget Hnull
         branchName first second past1 answer1 past2 answer2.
  unfold fetchRequestBranch, getRequestBranch.
  rewrite !interp_bind, Hget.
  assert (Hprop : getProp request (branchField provider)
                  = Ret (getField (branchField provider) request)).
  { destruct request; try reflexivity. contradiction Hnull. reflexivity. }
  rewrite Hprop. cbn [interp]. rewrite app_nil_r.
  fold branchName. fold past1.
  rewrite interp_tryCatch, interp_bind, interp_runOrThrow. cbv zeta.
  fold first. fold answer1. rewrite exitCode_resultOf.
  destruct (Z.eqb (ExecUtils.exitStatus answer1) 0); cbn [negb].
  - cbn [interp app]. reflexivity.
  - cbn [interp app].
    rewrite interp_tryCatch, interp_bind, interp_runOrThrow. cbv zeta.
    fold past2. fold second. fold answer2. rewrite exitCode_resultOf.
    destruct (Z.eqb (ExecUtils.exitStatus answer2) 0); cbn [negb].
    + cbn [interp app]. reflexivity.
    + cbn [interp app]. reflexivity.
Qed.

Lemma fetchRequestBranch_falls_back_witness :
  interp Sample.host [] (fetchRequestBranch Sample.platform "/repo" gitlab 7 "origin")
  = (Ok tt,
     (eventsOf Sample.host [] (getRequest Sample.platform "/repo" gitlab 7)
      ++ [Ev (Execa "git" ["fetch"; "origin";
                           "feature/ABC-123_fix!!:feature/ABC-123_fix!!"]
                (Some "/repo"))
             (Sample.ok "")])%list).
Proof.
  assert (Hnull : Sample.mr <> JNull) by discriminate.
  exact (@fetchRequestBranch_falls_back Sample.platform Sample.host [] "/repo"
           gitlab 7 "origin" Sample.mr
           (eventsOf Sample.host [] (getRequest Sample.platform "/repo" gitlab 7))
           eq_refl Hnull).
Defined.
(* ================================================================== *)
(** * More on the configuration store *)
(* ================================================================== *)

Module DiskFacts.
Import ProgFacts ConfigAux ConfigFacts Disk.

Local Open Scope prog_scope.

Lemma lastWritten_app (path : string) (a b : list Event) :
  lastWritten path (a ++ b)
  = match lastWritten path b with
    | Some content => Some content
    | None => lastWritten path a
    end.
Proof.
  induction a as [|ev a IH]; cbn [app lastWritten].
  - destruct (lastWritten path b); reflexivity.
  - rewrite IH. destruct (lastWritten path b); reflexivity.
Qed.

Lemma faithful_diskHost (execa : string -> list string -> ExecaOutcome)
      (path : string) :
  faithful (diskHost execa) path.
Proof.
  intros past v H. unfold diskHost. rewrite H. split; reflexivity.
Qed.

(** A validated configuration validates to itself. *)
Lemma schema_config (c : Config) : ConfigSchema (Config_toJson c) = Some c.
Proof.
  destruct c as [pt mp wd pcs].
  exact (schema_partial (mkPartialConfig (Some pt) mp (Some wd) (Some pcs))).
Qed.

Lemma interp_saveLocalConfig_any (P : Platform) (host : Host) past m v :
  interp host past (saveLocalConfig P m v)
  = match ConfigSchema v with
    | None =>
        (Err (MkError ConfigError
                ("Failed to save local config: " ++ "Invalid configuration") None),
         [])
    | Some c =>
        let write := WriteFileSync (localConfigPath P m) (JsonText (Config_toJson c)) in
        (match host _ past write with
         | None =>
             Ok (mkConfigManager (cm_cwd m) (Some c) (globalConfig m)
                   (Some (mergeConfigs (globalConfig m) (Some c))))
         | Some e =>
             Err (MkError ConfigError
                    ("Failed to save local config: " ++ messageOf e) None)
         end,
         [Ev write (host _ past write)])
    end.
Proof.
  unfold saveLocalConfig, ConfigSchema_parse, writeFile.
  rewrite interp_tryCatch, interp_bind.
  destruct (ConfigSchema v) as [c|]; cbn [ofResult interp]; [|reflexivity].
  rewrite app_nil_r. rewrite !interp_bind. cbn [perform interp app].
  destruct (host (option JsError) past _) as [e|]; reflexivity.
Qed.

(** The operations of [saveGlobalConfig] before the file is written:
    the test of the directory and, when it is missing, its creation. *)
Lemma saveGlobalConfig_invalid (P : Platform) (host : Host) past m v :
  ConfigSchema v = None ->
  exists msg evs,
    interp host past (saveGlobalConfig P m v)
    = (Err (MkError ConfigError ("Failed to save global config: " ++ msg) None), evs)
    /\ List.forallb (fun ev => negb (isWrite ev)) evs = true.
Proof.
  intros Hbad. unfold saveGlobalConfig, ConfigSchema_parse. rewrite Hbad.
  rewrite interp_tryCatch, interp_bind. cbn [perform interp].
  destruct (host bool past _); cbn [negb].
  - cbn [bind interp app]. eexists. eexists. split; reflexivity.
  - rewrite !interp_bind. cbn [perform interp app].
    destruct (host (option JsError) _ _) as [e|];
      cbn [interp bind ofResult app]; eexists; eexists; split; reflexivity.
Qed.

Lemma interp_saveGlobalConfig_ok (P : Platform) (host : Host) past m v m' :
  outcomeOf host past (saveGlobalConfig P m v) = Ok m' ->
  exists g,
    ConfigSchema v = Some g
    /\ m' = mkConfigManager (cm_cwd m) (localConfig m) (Some g)
              (Some (mergeConfigs (Some g) (localConfig m))).
Proof.
  unfold outcomeOf, saveGlobalConfig, ConfigSchema_parse, writeFile.
  rewrite interp_tryCatch, interp_bind. cbn [perform interp].
  destruct (ConfigSchema v) as [g|].
  - intros H. exists g. split; [reflexivity|].
    destruct (host bool past _); cbn [negb] in H.
    + cbn [bind interp ofResult app] in H.
      rewrite !interp_bind in H. cbn [perform interp app] in H.
      destruct (host (option JsError) _ _) as [e|]; cbn [interp fst] in H.
      * discriminate H.
      * injection H as <-. reflexivity.
    + rewrite !interp_bind in H. cbn [perform interp app] in H.
      destruct (host (option JsError) _ (MkdirSync _)) as [e|];
        cbn [interp bind ofResult app fst] in H; [discriminate H|].
      rewrite !interp_bind in H. cbn [perform interp app] in H.
      destruct (host (option JsError) _ (WriteFileSync _ _)) as [e|];
        cbn [interp fst] in H.
      * discriminate H.
      * injection H as <-. reflexivity.
  - intros H. exfalso.
    destruct (host bool past _); cbn [negb] in H.
    + cbn [bind interp ofResult app fst] in H. discriminate H.
    + rewrite !interp_bind in H. cbn [perform interp app] in H.
      destruct (host (option JsError) _ _) as [e|];
        cbn [interp bind ofResult app fst] in H; discriminate H.
Qed.

End DiskFacts.

Import ProgFacts ConfigAux ConfigFacts Disk.

(** X11. What [saveLocalConfig] writes can be read back by another
    manager: on a file system that keeps what is written, once
    [saveLocalConfig] has succeeded, a manager created afterwards for
    the same directory loads from the file exactly the validated
    configuration that the first manager holds as its local one; and a
    validated configuration validates to itself. *)
Theorem local_config_survives_restart :
  forall (P : Platform) (host : Host) (past : list Event) (m m' : ConfigManager)
         (v : json) (evs : list Event),
    faithful host (localConfigPath P m) ->
    interp host past (saveLocalConfig P m v) = (Ok m', evs) ->
    (exists c, ConfigSchema v = Some c /\ localConfig m' = Some c)
    /\ outcomeOf host (past ++ evs)%list
         (loadLocalConfig P (newConfigManager (cm_cwd m)))
       = Ok (localConfig m')
    /\ (forall c, ConfigSchema (Config_toJson c) = Some c).
Proof.
  intros P host past m m' v evs Hdisk Hsave.
  rewrite DiskFacts.interp_saveLocalConfig_any in Hsave.
  destruct (ConfigSchema v) as [c|] eqn:Hv; [|discriminate Hsave].
  cbv zeta in Hsave.
  destruct (host (option JsError) past _) as [e|] eqn:Hwrite; [discriminate Hsave|].
  injection Hsave as <- <-.
  split; [exists c; split; reflexivity|].
  split; [|exact DiskFacts.schema_config].
  unfold outcomeOf, loadLocalConfig.
  rewrite interp_loadConfigFile. cbn [fst]. unfold readConfig. cbn [fst].
  change (localConfigPath P (newConfigManager (cm_cwd m)))
    with (localConfigPath P m).
  set (path := localConfigPath P m) in *.
  set (content := JsonText (Config_toJson c)) in *.
  set (past1 := (past ++ [Ev (WriteFileSync path content) None])%list).
  assert (Hlast : lastWritten path past1 = Some content).
  { unfold past1. rewrite DiskFacts.lastWritten_app.
    cbn [lastWritten written]. rewrite String.eqb_refl. reflexivity. }
  destruct (Hdisk past1 (Config_toJson c) Hlast) as [Hthere _].
  rewrite Hthere.
  assert (Hlast2 : lastWritten path (past1 ++ [Ev (ExistsSync path) true])%list
                   = Some content).
  { rewrite DiskFacts.lastWritten_app. cbn [lastWritten written]. exact Hlast. }
  destruct (Hdisk _ (Config_toJson c) Hlast2) as [_ Hload].
  rewrite Hload. cbn [fileConfig localConfig].
  rewrite DiskFacts.schema_config. reflexivity.
Qed.

Lemma local_config_survives_restart_witness :
  outcomeOf (diskHost Sample.execa)
    ([] ++ [Ev (WriteFileSync "/repo/.kwt"
                  (JsonText (Config_toJson
                               (mkConfig PrefixManual (Some "x-") "../wt" []))))
               None])%list
    (loadLocalConfig Sample.platform (newConfigManager "/repo"))
  = Ok (Some (mkConfig PrefixManual (Some "x-") "../wt" [])).
Proof.
  exact (proj1 (proj2
    (@local_config_survives_restart Sample.platform (diskHost Sample.execa) []
       (newConfigManager "/repo")
       (mkConfigManager "/repo"
          (Some (mkConfig PrefixManual (Some "x-") "../wt" [])) None
          (Some (mkConfig PrefixManual (Some "x-") "../wt" [])))
       (JObj [("prefixType", JStr "manual"); ("manualPrefix", JStr "x-");
              ("worktreeDir", JStr "../wt")])
       _
       (DiskFacts.faithful_diskHost Sample.execa "/repo/.kwt")
       eq_refl))).
Defined.



(** X13. After a successful [saveGlobalConfig], the manager holds the
    validated configuration as its global one and keeps its local one;
    when it holds a local configuration, the merged configuration is
    still the local one in every field but [manualPrefix], which falls
    back on the new global value only where the local one gives none:
    saving a global configuration cannot change [prefixType],
    [worktreeDir] or [postCommands] under a local configuration. *)
Theorem saveGlobalConfig_keeps_local :
  forall (P : Platform) (host : Host) (past : list Event) (m m' : ConfigManager)
         (v : json),
    outcomeOf host past (saveGlobalConfig P m v) = Ok m' ->
    exists g,
      ConfigSchema v = Some g
      /\ globalConfig m' = Some g
      /\ localConfig m' = localConfig m
      /\ mergedConfig m' = Some (mergeConfigs (Some g) (localConfig m))
      /\ (localConfig m = None -> mergedConfig m' = Some g)
      /\ (forall l,
             localConfig m = Some l ->
             mergedConfig m'
             = Some (mkConfig (prefixType l)
                       (layeredOpt (manualPrefix g) (manualPrefix l))
                       (worktreeDir l) (postCommands l))).
Proof.
  intros P host past m m' v Hsave.
  destruct (@DiskFacts.interp_saveGlobalConfig_ok P host past m v m' Hsave)
    as (g & Hg & ->).
  exists g. cbn [globalConfig localConfig mergedConfig].
  split; [exact Hg|]. split; [reflexivity|]. split; [reflexivity|].
  split; [reflexivity|]. split.
  - intros ->. rewrite mergeConfigs_no_local. reflexivity.
  - intros l ->. unfold mergeConfigs, spreadConfig, set_postCommands, layeredOpt.
    cbn [prefixType manualPrefix worktreeDir postCommands defaultConfig].
    destruct (manualPrefix l); [reflexivity|].
    destruct (manualPrefix g); reflexivity.
Qed.

Lemma saveGlobalConfig_keeps_local_witness :
  exists g,
    ConfigSchema Sample.globalConfigJson = Some g
    /\ mergedConfig
         (mkConfigManager "/repo" (Some defaultConfig) (Some g)
            (Some (mergeConfigs (Some g) (Some defaultConfig))))
       = Some (mkConfig PrefixNone (Some "g-") default_worktreeDir []).
Proof.
  destruct (@saveGlobalConfig_keeps_local Sample.platform Sample.host []
              (mkConfigManager "/repo" (Some defaultConfig) None (Some defaultConfig))
              (mkConfigManager "/repo" (Some defaultConfig) (Some Sample.globalConfig)
                 (Some (mergeConfigs (Some Sample.globalConfig) (Some defaultConfig))))
              Sample.globalConfigJson eq_refl)
    as (g & Hg & _ & _ & _ & _ & Hlocal).
  exists g. split; [exact Hg|].
  injection Hg as <-. reflexivity.
Defined.

(** X14. A manager reads the files at most once: once [loadConfig] has
    returned, every later call on the manager it leaves returns the
    same configuration without any operation, whatever the files have
    become, and [getConfig] returns that configuration; before the
    first load, [getConfig] raises a [ConfigError]. *)
Theorem loadConfig_reads_once :
  forall (P : Platform) (host : Host) (past : list Event) (m m' : ConfigManager)
         (c : Config),
    outcomeOf host past (loadConfig P m) = Ok (c, m') ->
    (forall (host' : Host) (past' : list Event),
        interp host' past' (loadConfig P m') = (Ok (c, m'), []))
    /\ getConfig m' = Ok c
    /\ (forall cwd,
           getConfig (newConfigManager cwd)
           = Err (MkError ConfigError
                    "Configuration not loaded. Call loadConfig() first." None)).
Proof.
  intros P host past m m' c Hload.
  assert (Hmerged : mergedConfig m' = Some c).
  { unfold outcomeOf, loadConfig in Hload.
    destruct (mergedConfig m) as [merged|] eqn:Hm.
    - cbn [interp fst] in Hload. injection Hload as <- <-. exact Hm.
    - rewrite !interp_bind in Hload.
      unfold loadGlobalConfig, loadLocalConfig in Hload.
      rewrite interp_loadConfigFile in Hload.
      rewrite interp_bind, interp_loadConfigFile in Hload.
      cbn [interp fst] in Hload. injection Hload as <- <-. reflexivity. }
  split; [|split].
  - intros host' past'. unfold loadConfig. rewrite Hmerged. reflexivity.
  - unfold getConfig. rewrite Hmerged. reflexivity.
  - intros cwd. reflexivity.
Qed.

Lemma loadConfig_reads_once_witness :
  interp Sample.hostBroken []
    (loadConfig Sample.platform
       (mkConfigManager "/repo" None (Some Sample.globalConfig)
          (Some Sample.globalConfig)))
  = (Ok (Sample.globalConfig,
         mkConfigManager "/repo" None (Some Sample.globalConfig)
           (Some Sample.globalConfig)), []).
Proof.
  exact (proj1 (@loadConfig_reads_once Sample.platform Sample.hostGlobal []
                  (newConfigManager "/repo") Sample.managerLoaded
                  Sample.globalConfig eq_refl)
           Sample.hostBroken []).
Defined.
(* ================================================================== *)
(** * The commands beyond the dry run *)
(* ================================================================== *)

Module CommandFacts.
Import ProgFacts ExecFacts ConfigAux ConfigFacts CommandAux.

Local Open Scope prog_scope.

(** The run of [initialize]: the verbosity, the two configuration
    files, the test of the repository. *)
Lemma interp_initialize (P : Platform) (host : Host) past cwd options :
  let ev0 := if opt_verbose options
             then [Ev (SetVerbose true) (host _ past (SetVerbose true))]
             else [] in
  let past0 := (past ++ ev0)%list in
  let g := readConfig host past0 (globalConfigPath P) in
  let l := readConfig host (past0 ++ snd g)%list
             (localConfigPath P (newConfigManager cwd)) in
  let past1 := (past0 ++ snd g ++ snd l)%list in
  let answer := host _ past1 (revParse cwd) in
  interp host past (initialize P cwd options)
  = (if Z.eqb (ExecUtils.exitStatus answer) 0
     then Ok (mergeConfigs (fst g) (fst l))
     else Err notRepo,
     (ev0 ++ (snd g ++ snd l) ++ [Ev (revParse cwd) answer])%list).
Proof.
  cbv zeta. unfold initialize. rewrite interp_bind.
  destruct (opt_verbose options); cbn [perform interp app];
    rewrite interp_bind, interp_loadConfig_fresh; cbv zeta;
    rewrite interp_bind; unfold isGitRepo; rewrite interp_probe;
    fold (revParse cwd);
    rewrite ?app_nil_r; repeat rewrite <- app_assoc; cbn [app];
    match goal with
    | |- context [Z.eqb ?x 0] => destruct (Z.eqb x 0)
    end;
    cbn [negb interp fst snd app]; rewrite ?app_nil_r;
    repeat rewrite <- app_assoc; reflexivity.
Qed.

Lemma commands_of_readConfig (host : Host) past path :
  List.filter isCommand (snd (readConfig host past path)) = [].
Proof.
  unfold readConfig. cbn [snd List.filter isCommand].
  destruct (host bool past (ExistsSync path)); reflexivity.
Qed.

Lemma commands_of_initialize (P : Platform) (host : Host) past cwd options :
  List.map performed
    (List.filter isCommand (eventsOf host past (initialize P cwd options)))
  = [existT _ _ (revParse cwd)].
Proof.
  unfold eventsOf. rewrite interp_initialize. cbv zeta. cbn [snd].
  rewrite !List.filter_app, !commands_of_readConfig.
  destruct (opt_verbose options); reflexivity.
Qed.

Lemma initialize_outside (P : Platform) (host : Host) past cwd options :
  (forall past', ExecUtils.exitStatus (host _ past' (revParse cwd)) <> 0%Z) ->
  interp host past (initialize P cwd options)
  = (Err notRepo, eventsOf host past (initialize P cwd options)).
Proof.
  intros Hout. unfold eventsOf. rewrite interp_initialize. cbv zeta. cbn [snd].
  match goal with
  | |- context [Z.eqb (ExecUtils.exitStatus (host _ ?p (revParse cwd))) 0] =>
      pose proof (Hout p) as Hne;
      destruct (Z.eqb (ExecUtils.exitStatus (host _ p (revParse cwd))) 0) eqn:E
  end.
  - apply Z.eqb_eq in E. contradiction.
  - reflexivity.
Qed.

(** A program that starts with a step that fails, fails the same way. *)
Lemma interp_bind_fails {A B} (m : Prog A) (f : A -> Prog B) (host : Host) past e evs :
  interp host past m = (Err e, evs) ->
  interp host past (bind m f) = (Err e, evs).
Proof. intros H. rewrite interp_bind, H. reflexivity. Qed.

End CommandFacts.

Import ProgFacts ExecFacts CommandAux DryRun DryRunAux.

(** X15. Outside a git repository, that is when [git rev-parse
    --git-dir] exits non-zero, [new], [mr] and [rm] all fail with the
    error [Not in a git repository], after the configuration has been
    read and before anything else: [initialize] runs no other external
    command than that query, whatever the host. *)
Theorem commands_need_a_repository :
  forall (P : Platform) (host : Host) (past : list Event) (cwd : string),
    (forall past', ExecUtils.exitStatus (host _ past' (revParse cwd)) <> 0%Z) ->
    (forall options,
        outcomeOf host past (initialize P cwd options) = Err notRepo
        /\ List.map performed
             (List.filter isCommand (eventsOf host past (initialize P cwd options)))
           = [existT _ _ (revParse cwd)])
    /\ (forall name options,
           interp host past (newExecute P cwd name options)
           = (Err notRepo, eventsOf host past (initialize P cwd (new_cli options))))
    /\ (forall mrNumber options,
           interp host past (mrExecute P cwd mrNumber options)
           = (Err notRepo, eventsOf host past (initialize P cwd (mr_cli options))))
    /\ (forall name options,
           interp host past (removeExecute P cwd name options)
           = (Err notRepo, eventsOf host past (initialize P cwd (rm_cli options)))).
Proof.
  intros P host past cwd Hout.
  pose proof (fun options =>
                @CommandFacts.initialize_outside P host past cwd options Hout)
    as Hinit.
  split; [|split; [|split]].
  - intros options. split.
    + unfold outcomeOf. rewrite Hinit. reflexivity.
    + apply CommandFacts.commands_of_initialize.
  - intros name options. unfold newExecute, newResolve.
    apply CommandFacts.interp_bind_fails, CommandFacts.interp_bind_fails.
    apply Hinit.
  - intros mrNumber options. unfold mrExecute, mrResolve.
    apply CommandFacts.interp_bind_fails, CommandFacts.interp_bind_fails.
    apply Hinit.
  - intros name options. unfold removeExecute, removeResolve.
    apply CommandFacts.interp_bind_fails, CommandFacts.interp_bind_fails.
    apply Hinit.
Qed.

Lemma commands_need_a_repository_witness :
  interp Sample.hostBroken []
    (newExecute Sample.platform "/repo" "feature-x"
       (mkNewCommandOptions (mkCLIOptions None false false) None false))
  = (Err notRepo,
     eventsOf Sample.hostBroken []
       (initialize Sample.platform "/repo" (mkCLIOptions None false false))).
Proof.
  refine (proj1 (proj2 (@commands_need_a_repository Sample.platform
                          Sample.hostBroken [] "/repo" _))
            "feature-x"
            (mkNewCommandOptions (mkCLIOptions None false false) None false)).
  intros past'. vm_compute. discriminate.
Defined.

(** X16. [mr] rejects a number that [parseInt] does not read or that is
    not positive with the error [Invalid merge request number: <text>],
    once [initialize] has succeeded and before the hosting CLI is looked
    up or called: the run shows the operations of [initialize] only. *)
Theorem mr_rejects_bad_numbers :
  forall (P : Platform) (host : Host) (past : list Event) (cwd mrNumber : string)
         (options : MRCommandOptions) (config : Config) (evs : list Event),
    interp host past (initialize P cwd (mr_cli options)) = (Ok config, evs) ->
    match parseInt10 mrNumber with
    | None => True
    | Some iid => (iid <= 0)%Z
    end ->
    interp host past (mrExecute P cwd mrNumber options)
    = (Err (MkError PlainError ("Invalid merge request number: " ++ mrNumber) None),
       evs).
Proof.
  intros P host past cwd mrNumber options config evs Hinit Hbad.
  unfold mrExecute, mrResolve. rewrite !interp_bind, Hinit.
  destruct (parseInt10 mrNumber) as [iid|].
  - apply Z.leb_le in Hbad. rewrite Hbad. cbn [interp]. rewrite app_nil_r.
    reflexivity.
  - cbn [interp]. rewrite app_nil_r. reflexivity.
Qed.

Lemma mr_rejects_bad_numbers_witness :
  interp Sample.host []
    (mrExecute Sample.platform "/repo" "-3" (mkMRCommandOptions dryRun false))
  = (Err (MkError PlainError "Invalid merge request number: -3" None),
     eventsOf Sample.host [] (initialize Sample.platform "/repo" dryRun))
  /\ interp Sample.host []
       (mrExecute Sample.platform "/repo" "seven" (mkMRCommandOptions dryRun false))
     = (Err (MkError PlainError "Invalid merge request number: seven" None),
        eventsOf Sample.host [] (initialize Sample.platform "/repo" dryRun)).
Proof.
  split.
  - refine (@mr_rejects_bad_numbers Sample.platform Sample.host [] "/repo" "-3"
              (mkMRCommandOptions dryRun false) defaultConfig _ eq_refl _).
    vm_compute. discriminate.
  - exact (@mr_rejects_bad_numbers Sample.platform Sample.host [] "/repo" "seven"
             (mkMRCommandOptions dryRun false) defaultConfig _ eq_refl I).
Defined.

(** X17. Without the dry-run flag too, [new], [mr] and [rm] change
    nothing before they have resolved their target: every operation up
    to that point is a read-only query, so a command that fails there (a
    worktree or a branch that already exists, a merge request that is
    not found, a worktree that is not found) fails with that error and
    leaves the repository and the file system as they were; and [mr]
    with [--checkout] on a worktree that exists returns at once. *)
Theorem commands_fail_before_they_change_anything :
  forall (P : Platform) (host : Host) (past : list Event) (cwd : string),
    (forall name options,
        Forall harmless (eventsOf host past (newResolve P cwd name options))
        /\ (forall e evs,
               interp host past (newResolve P cwd name options) = (Err e, evs) ->
               interp host past (newExecute P cwd name options) = (Err e, evs)))
    /\ (forall mrNumber options,
           Forall harmless (eventsOf host past (mrResolve P cwd mrNumber options))
           /\ (forall e evs,
                  interp host past (mrResolve P cwd mrNumber options) = (Err e, evs) ->
                  interp host past (mrExecute P cwd mrNumber options) = (Err e, evs))
           /\ (forall evs,
                  interp host past (mrResolve P cwd mrNumber options) = (Ok None, evs) ->
                  interp host past (mrExecute P cwd mrNumber options) = (Ok tt, evs)))
    /\ (forall name options,
           Forall harmless (eventsOf host past (removeResolve P cwd name options))
           /\ (forall e evs,
                  interp host past (removeResolve P cwd name options) = (Err e, evs) ->
                  interp host past (removeExecute P cwd name options) = (Err e, evs))).
Proof.
  intros P host past cwd.
  split; [|split].
  - intros name options. split.
    + apply DryRunFacts.only_harmless, DryRunFacts.only_newResolve.
    + intros e evs H. unfold newExecute.
      apply CommandFacts.interp_bind_fails. exact H.
  - intros mrNumber options. split; [|split].
    + apply DryRunFacts.only_harmless, DryRunFacts.only_mrResolve.
    + intros e evs H. unfold mrExecute.
      apply CommandFacts.interp_bind_fails. exact H.
    + intros evs H. unfold mrExecute. rewrite interp_bind, H.
      cbn [interp]. rewrite app_nil_r. reflexivity.
  - intros name options. split.
    + apply DryRunFacts.only_harmless, DryRunFacts.only_removeResolve.
    + intros e evs H. unfold removeExecute.
      apply CommandFacts.interp_bind_fails. exact H.
Qed.

Lemma commands_fail_before_they_change_anything_witness :
  outcomeOf Sample.host []
    (newExecute Sample.platform "/repo" "review"
       (mkNewCommandOptions (mkCLIOptions None false false) None false))
  = Err (MkError PlainError "Worktree already exists at: /worktrees/review" None)
  /\ outcomeOf Sample.host []
       (removeExecute Sample.platform "/repo" "missing"
          (mkRemoveCommandOptions (mkCLIOptions None false false) true))
     = Err (MkError PlainError "Worktree 'missing' not found" None).
Proof.
  pose proof (@commands_fail_before_they_change_anything Sample.platform
                Sample.host [] "/repo") as (Hnew & _ & Hrm).
  split.
  - unfold outcomeOf.
    rewrite (proj2 (Hnew "review"
                      (mkNewCommandOptions (mkCLIOptions None false false)
                         None false))
               (MkError PlainError "Worktree already exists at: /worktrees/review" None)
               (eventsOf Sample.host []
                  (newResolve Sample.platform "/repo" "review"
                     (mkNewCommandOptions (mkCLIOptions None false false)
                        None false)))
               ltac:(vm_compute; reflexivity)).
    reflexivity.
  - unfold outcomeOf.
    rewrite (proj2 (Hrm "missing"
                      (mkRemoveCommandOptions (mkCLIOptions None false false) true))
               (MkError PlainError "Worktree 'missing' not found" None)
               (eventsOf Sample.host []
                  (removeResolve Sample.platform "/repo" "missing"
                     (mkRemoveCommandOptions (mkCLIOptions None false false)
                        true)))
               ltac:(vm_compute; reflexivity)).
    reflexivity.
Defined.
(* ================================================================== *)
(** * The post-creation commands *)
(* ================================================================== *)

Module PostCommandFacts.
Import ProgFacts ExecFacts CommandAux.

Local Open Scope prog_scope.

(** The answer to a call of the logger is the one value of its type. *)
Ltac unit_answers host :=
  repeat match goal with
         | |- context [host unit ?p ?op] => destruct (host unit p op)
         end.

Lemma trimStart_blank (s : string) : blank s = true -> Str.trimStart s = "".
Proof.
  unfold blank. induction s as [|c s IH]; [reflexivity|].
  cbn [Str.forallb Str.trimStart]. intros H. apply andb_prop in H as [Hc Hs].
  rewrite Hc. exact (IH Hs).
Qed.

Lemma trim_blank (s : string) : blank s = true -> Str.trim s = "".
Proof. intros H. unfold Str.trim. rewrite (trimStart_blank _ H). reflexivity. Qed.

Lemma trimStart_nonblank (s : string) :
  blank s = false ->
  exists a t, Str.trimStart s = String a t /\ Str.isSpace a = false.
Proof.
  unfold blank. induction s as [|c s IH]; [discriminate|].
  cbn [Str.forallb Str.trimStart].
  destruct (Str.isSpace c) eqn:Hc; cbn [andb].
  - exact IH.
  - intros _. exists c, s. split; [reflexivity|exact Hc].
Qed.

Lemma trim_nonblank (s : string) :
  blank s = false ->
  exists a t, Str.trim s = String a t /\ Str.isSpace a = false.
Proof.
  intros H. destruct (trimStart_nonblank _ H) as (a & t & Hstart & Ha).
  unfold Str.trim. rewrite Hstart. cbn [Str.trimEnd].
  destruct (Str.trimEnd t) as [|d u].
  - rewrite Ha. exists a, "". split; [reflexivity|exact Ha].
  - exists a, (String d u). split; [reflexivity|exact Ha].
Qed.

(** No piece of [split(/\s+/)] holds white space. *)
Lemma pieces_nonSpace (s : string) :
  List.forallb (Str.forallb Regex.nonSpace) (splitSpaces s) = true.
Proof.
  induction s as [|c s IH]; [reflexivity|].
  cbn [splitSpaces].
  destruct (Str.isSpace c) eqn:Hc.
  - destruct s as [|d s'].
    + reflexivity.
    + destruct (Str.isSpace d); [exact IH|].
      cbn [List.forallb Str.forallb andb]. exact IH.
  - destruct (splitSpaces s) as [|piece rest].
    + cbn [List.forallb Str.forallb]. unfold Regex.nonSpace. rewrite Hc. reflexivity.
    + cbn [List.forallb Str.forallb] in *. unfold Regex.nonSpace at 1. rewrite Hc.
      exact IH.
Qed.

Lemma splitSpaces_program (a : ascii) (t : string) :
  Str.isSpace a = false ->
  exists piece args, splitSpaces (String a t) = String a piece :: args.
Proof.
  intros Ha. cbn [splitSpaces]. rewrite Ha.
  destruct (splitSpaces t) as [|piece rest]; eexists; eexists; reflexivity.
Qed.

(** ** Every operation is a command in the worktree or a log line *)

Lemma only_command (worktreePath : string) (postCommand : PostCommand)
      (command : string) :
  only (inWorktree worktreePath)
    (tryCatch
       (match splitSpaces (Str.trim command) with
        | [] | EmptyString :: _ =>
            log Warn ("Empty command in " ++ label postCommand ++ ", skipping")
        | program :: args =>
            _ <- ExecUtils.runOrThrow program args (Some worktreePath) ;;
            Ret tt
        end)
       (fun error =>
          log Error ("Command failed: " ++ command) ;;;
          log Error ("Error: " ++ messageOf error) ;;;
          Throw error)).
Proof.
  apply only_tryCatch.
  - destruct (splitSpaces (Str.trim command)) as [|[|c program] args].
    + apply only_perform. reflexivity.
    + apply only_perform. reflexivity.
    + apply only_bind; [|intros; constructor].
      unfold ExecUtils.runOrThrow, ExecUtils.run.
      apply only_bind.
      * apply only_bind; [|intros; constructor].
        apply only_perform. cbn [inWorktree]. apply String.eqb_refl.
      * intros result. destruct (negb _); constructor.
  - intros error. apply only_bind; [apply only_perform; reflexivity|].
    intros _. apply only_bind; [apply only_perform; reflexivity|].
    intros _. constructor.
Qed.

Lemma only_executePostCommand (worktreePath : string) (postCommand : PostCommand) :
  only (inWorktree worktreePath) (executePostCommand postCommand worktreePath).
Proof.
  unfold executePostCommand.
  apply only_bind; [apply only_perform; reflexivity|]. intros _.
  apply only_bind; [|intros _; apply only_perform; reflexivity].
  apply only_forEach. intros command. apply only_command.
Qed.

Lemma only_executePostCommands (worktreePath : string) (config : Config) :
  only (inWorktree worktreePath) (executePostCommands config worktreePath).
Proof.
  unfold executePostCommands.
  destruct (postCommands config) as [|pc rest] eqn:E; [constructor|].
  apply only_bind; [apply only_perform; reflexivity|]. intros _.
  apply only_forEach. intros postCommand. apply only_executePostCommand.
Qed.

(** ** A group of blank commands *)

Lemma interp_blank_commands (host : Host) (label worktreePath : string)
      (commands : list string) :
  List.forallb blank commands = true ->
  forall past,
    exists evs,
      interp host past
        (forEach commands
           (fun command =>
              tryCatch
                (match splitSpaces (Str.trim command) with
                 | [] | EmptyString :: _ =>
                     log Warn ("Empty command in " ++ label ++ ", skipping")
                 | program :: args =>
                     _ <- ExecUtils.runOrThrow program args (Some worktreePath) ;;
                     Ret tt
                 end)
                (fun error =>
                   log Error ("Command failed: " ++ command) ;;;
                   log Error ("Error: " ++ messageOf error) ;;;
                   Throw error)))
      = (Ok tt, evs)
      /\ List.map performed evs
         = List.map (fun _ => logged Warn ("Empty command in " ++ label ++ ", skipping"))
             commands.
Proof.
  induction commands as [|command rest IH]; intros Hall past.
  - exists []. split; reflexivity.
  - cbn [List.forallb] in Hall. apply andb_prop in Hall as [Hblank Hrest].
    cbn [forEach]. rewrite interp_bind, interp_tryCatch.
    rewrite (trim_blank _ Hblank). cbn [splitSpaces log perform interp].
    destruct (IH Hrest (past ++ [Ev (Log Warn ("Empty command in " ++ label
                                               ++ ", skipping"))
                                   (host unit past
                                      (Log Warn ("Empty command in " ++ label
                                                 ++ ", skipping")))])%list)
      as (evs & Hrun & Hops).
    rewrite Hrun. eexists. split; [reflexivity|].
    cbn [List.map app performed]. f_equal. exact Hops.
Qed.

(** ** The commands of a group, one after the other *)

Lemma executePostCommand_loop (postCommand : PostCommand) (worktreePath : string) :
  executePostCommand postCommand worktreePath
  = (log Info ("Running: " ++ label postCommand) ;;;
     forEach (commands postCommand) (runCommand (label postCommand) worktreePath) ;;;
     log Success ("Completed: " ++ label postCommand)).
Proof. reflexivity. Qed.

(** A command that does not fail leaves what a user sees of it. *)
Lemma interp_runCommand (host : Host) (past : list Event)
      (label worktreePath command : string) :
  succeeded (seen host past worktreePath label command) = true ->
  interp host past (runCommand label worktreePath command)
  = (Ok tt, [seen host past worktreePath label command]).
Proof.
  unfold seen, wordsOf, runCommand. rewrite interp_tryCatch.
  destruct (blank command) eqn:Hblank.
  - intros _. rewrite (trim_blank _ Hblank). cbn [splitSpaces log perform interp].
    unit_answers host. reflexivity.
  - destruct (trim_nonblank _ Hblank) as (a & t & Htrim & Ha).
    rewrite Htrim.
    destruct (@splitSpaces_program a t Ha) as (piece & args & Hsplit).
    rewrite Hsplit. cbn [List.hd List.tl succeeded]. intros Hok.
    cbv zeta. rewrite interp_bind, interp_runOrThrow. cbv zeta.
    rewrite exitCode_resultOf, Hok. reflexivity.
Qed.

Lemma interp_handled (host : Host) (label worktreePath : string)
      (more : list string) :
  forall (before : list string) (past : list Event),
    List.forallb succeeded (handled host past worktreePath label before) = true ->
    interp host past (forEach (before ++ more) (runCommand label worktreePath))
    = (fst (interp host (past ++ handled host past worktreePath label before)%list
              (forEach more (runCommand label worktreePath))),
       (handled host past worktreePath label before
        ++ snd (interp host
                  (past ++ handled host past worktreePath label before)%list
                  (forEach more (runCommand label worktreePath))))%list).
Proof.
  induction before as [|command rest IH]; intros past Hall.
  - cbn [handled app]. rewrite app_nil_r.
    destruct (interp host past (forEach more (runCommand label worktreePath)));
      reflexivity.
  - cbn [handled List.forallb] in Hall |- *.
    apply andb_prop in Hall as [Hok Hrest].
    cbn [app forEach]. rewrite interp_bind, (interp_runCommand _ _ _ _ _ Hok).
    rewrite (IH _ Hrest). rewrite <- app_assoc. reflexivity.
Qed.

Lemma performed_handled (host : Host) (label worktreePath : string) :
  forall (before : list string) (past : list Event),
    List.map performed (handled host past worktreePath label before)
    = List.map (invoked worktreePath label) before.
Proof.
  induction before as [|command rest IH]; intros past; [reflexivity|].
  cbn [handled List.map]. rewrite IH. f_equal.
  unfold seen, invoked. destruct (blank command); reflexivity.
Qed.

(** The command that fails. *)
Lemma interp_runCommand_fails (host : Host) (past : list Event)
      (label worktreePath command program : string) (args : list string) :
  splitSpaces (Str.trim command) = program :: args ->
  program <> "" ->
  ExecUtils.exitStatus (host _ past (Execa program args (Some worktreePath)))
  <> 0%Z ->
  interp host past (runCommand label worktreePath command)
  = (Err (ExecUtils.commandFailed program args
            (ExecUtils.resultOf
               (host _ past (Execa program args (Some worktreePath))))),
     [Ev (Execa program args (Some worktreePath))
         (host _ past (Execa program args (Some worktreePath)));
      Ev (Log Error ("Command failed: " ++ command)) tt;
      Ev (Log Error
            ("Error: "
             ++ errMessage
                  (ExecUtils.commandFailed program args
                     (ExecUtils.resultOf
                        (host _ past (Execa program args (Some worktreePath)))))))
         tt]).
Proof.
  intros Hsplit Hprogram Hfail.
  unfold runCommand. rewrite interp_tryCatch, Hsplit.
  destruct program as [|c program]; [contradiction Hprogram; reflexivity|].
  rewrite interp_bind, runOrThrow_fails by exact Hfail.
  cbn [app].
  repeat first [ progress cbn [log perform bind interp app messageOf]
               | progress unit_answers host ].
  reflexivity.
Qed.

End PostCommandFacts.
Import ProgFacts ExecFacts CommandAux.

(** X18. A group of post-creation commands stops at the first command
    that exits non-zero, wherever it stands in the group: the commands
    before it have been dealt with in order, each one run in the
    worktree or, when blank, skipped with a warning; the failure is
    raised as it is, after two error lines, and neither the commands
    that follow nor the completion line are reached. Whatever happens,
    a group runs its commands in the directory of the new worktree and
    does nothing else than that and logging. *)
Theorem post_commands_stop_at_first_failure :
  forall (host : Host) (past : list Event) (postCommand : PostCommand)
         (worktreePath failing program : string)
         (before rest args : list string),
    commands postCommand = (before ++ failing :: rest)%list ->
    splitSpaces (Str.trim failing) = program :: args ->
    program <> "" ->
    let running := Log Info ("Running: " ++ label postCommand) in
    let done := handled host (past ++ [Ev running tt])%list worktreePath
                  (label postCommand) before in
    List.forallb succeeded done = true ->
    let answer := host _ (past ++ Ev running tt :: done)%list
                    (Execa program args (Some worktreePath)) in
    let failure := ExecUtils.commandFailed program args (ExecUtils.resultOf answer) in
    ExecUtils.exitStatus answer <> 0%Z ->
    interp host past (executePostCommand postCommand worktreePath)
    = (Err failure,
       (Ev running tt
        :: done
        ++ [Ev (Execa program args (Some worktreePath)) answer;
            Ev (Log Error ("Command failed: " ++ failing)) tt;
            Ev (Log Error ("Error: " ++ errMessage failure)) tt])%list)
    /\ List.map performed
         (eventsOf host past (executePostCommand postCommand worktreePath))
       = (logged Info ("Running: " ++ label postCommand)
          :: List.map (invoked worktreePath (label postCommand)) before
          ++ [ran program args worktreePath;
              logged Error ("Command failed: " ++ failing);
              logged Error ("Error: " ++ errMessage failure)])%list
    /\ (forall (anyHost : Host) anyPast anyGroup config,
           Forall (allowedEvent (inWorktree worktreePath))
             (eventsOf anyHost anyPast (executePostCommand anyGroup worktreePath))
           /\ Forall (allowedEvent (inWorktree worktreePath))
                (eventsOf anyHost anyPast (executePostCommands config worktreePath))).
Proof.
  intros host past postCommand worktreePath failing program before rest args
         Hcommands Hsplit Hprogram running done Hdone answer failure Hfail.
  assert (Hrun : interp host past (executePostCommand postCommand worktreePath)
                 = (Err failure,
                    (Ev running tt
                     :: done
                     ++ [Ev (Execa program args (Some worktreePath)) answer;
                         Ev (Log Error ("Command failed: " ++ failing)) tt;
                         Ev (Log Error ("Error: " ++ errMessage failure)) tt])%list)).
  { rewrite PostCommandFacts.executePostCommand_loop, Hcommands.
    rewrite interp_bind. cbn [log perform interp]. fold running.
    destruct (host unit past running).
    rewrite interp_bind.
    rewrite (@PostCommandFacts.interp_handled host (label postCommand)
               worktreePath (failing :: rest) before
               (past ++ [Ev running tt])%list Hdone).
    fold done. cbn [forEach]. rewrite interp_bind.
    replace ((past ++ [Ev running tt]) ++ done)%list
      with (past ++ Ev running tt :: done)%list
      by (rewrite <- app_assoc; reflexivity).
    rewrite (@PostCommandFacts.interp_runCommand_fails host
               (past ++ Ev running tt :: done)%list (label postCommand)
               worktreePath failing program args Hsplit Hprogram Hfail).
    fold answer. fold failure. cbn [fst snd app]. reflexivity. }
  split; [exact Hrun|].
  split.
  - unfold eventsOf. rewrite Hrun. cbn [snd List.map performed].
    rewrite List.map_app. unfold done.
    rewrite PostCommandFacts.performed_handled. reflexivity.
  - intros anyHost anyPast anyGroup config. split.
    + apply only_events, PostCommandFacts.only_executePostCommand.
    + apply only_events, PostCommandFacts.only_executePostCommands.
Qed.

Lemma post_commands_stop_at_first_failure_witness :
  List.map performed
    (eventsOf Offline.host []
       (executePostCommand
          (mkPostCommand "Publish" ["git status"; "   "; "git  push"; "git log"])
          "/worktrees/feature-x"))
  = [logged Info "Running: Publish";
     ran "git" ["status"] "/worktrees/feature-x";
     logged Warn "Empty command in Publish, skipping";
     ran "git" ["push"] "/worktrees/feature-x";
     logged Error "Command failed: git  push";
     logged Error ("Error: Command failed: git push"
                   ++ String "010" "fatal: unable to access the remote")].
Proof.
  refine (proj1 (proj2 (@post_commands_stop_at_first_failure Offline.host []
                          (mkPostCommand "Publish"
                             ["git status"; "   "; "git  push"; "git log"])
                          "/worktrees/feature-x" "git  push" "git"
                          ["git status"; "   "] ["git log"] ["push"]
                          eq_refl eq_refl _ eq_refl _))).
  - discriminate.
  - vm_compute. discriminate.
Defined.

(** X19. The words of a post-creation command are the pieces between
    its runs of white space, so that no word holds white space; a
    command that holds something else than white space always has a
    program name that is not empty, and the warning [Empty command in
    <label>, skipping] is printed exactly for the blank commands: a
    group whose commands are all blank prints one warning per command
    and completes without running anything. *)
Theorem blank_post_commands_are_skipped :
  forall (command : string),
    List.forallb (Str.forallb Regex.nonSpace) (splitSpaces (Str.trim command)) = true
    /\ (if blank command
        then splitSpaces (Str.trim command) = [""]
        else exists c program args,
            splitSpaces (Str.trim command) = String c program :: args)
    /\ (forall (host : Host) past label worktreePath commands,
           List.forallb blank commands = true ->
           outcomeOf host past
             (executePostCommand (mkPostCommand label commands) worktreePath)
           = Ok tt
           /\ List.map performed
                (eventsOf host past
                   (executePostCommand (mkPostCommand label commands) worktreePath))
              = (logged Info ("Running: " ++ label)
                 :: List.map
                      (fun _ => logged Warn ("Empty command in " ++ label
                                             ++ ", skipping"))
                      commands
                 ++ [logged Success ("Completed: " ++ label)])%list).
Proof.
  intros command.
  split; [apply PostCommandFacts.pieces_nonSpace|].
  split.
  - destruct (blank command) eqn:Hblank.
    + rewrite (@PostCommandFacts.trim_blank command Hblank). reflexivity.
    + destruct (@PostCommandFacts.trim_nonblank command Hblank)
        as (a & t & Htrim & Ha).
      rewrite Htrim.
      destruct (@PostCommandFacts.splitSpaces_program a t Ha) as (piece & args & H).
      exists a, piece, args. exact H.
  - intros host past label0 worktreePath commands0 Hall.
    unfold outcomeOf, eventsOf, executePostCommand.
    cbn [label commands].
    rewrite interp_bind. cbn [log perform interp].
    rewrite interp_bind.
    destruct (@PostCommandFacts.interp_blank_commands host label0 worktreePath
                commands0 Hall
                (past ++ [Ev (Log Info ("Running: " ++ label0))
                            (host unit past (Log Info ("Running: " ++ label0)))])%list)
      as (evs & Hrun & Hops).
    rewrite Hrun.
    cbn [log perform interp fst snd List.map performed app].
    match goal with
    | |- context [Ok (host unit ?p ?op)] => destruct (host unit p op)
    end.
    split; [reflexivity|].
    rewrite List.map_app, Hops. reflexivity.
Qed.
(* ================================================================== *)
(** * Creating and removing *)
(* ================================================================== *)

Module CreateFacts.
Import ProgFacts ExecFacts CommandAux.

Local Open Scope prog_scope.

Lemma interp_createWorktree (host : Host) past cwd path branchName options :
  let args := createArgs path branchName options in
  let answer := host _ past (Execa "git" args (Some cwd)) in
  interp host past (createWorktree cwd path branchName options)
  = (if Z.eqb (ExecUtils.exitStatus answer) 0 then Ok tt
     else Err (wrapError GitError "Failed to create worktree: "
                 (ExecUtils.commandFailed "git" args (ExecUtils.resultOf answer))),
     [Ev (Execa "git" args (Some cwd)) answer]).
Proof.
  cbv zeta. unfold createWorktree.
  rewrite interp_tryCatch, interp_bind, interp_runOrThrow. cbv zeta.
  rewrite exitCode_resultOf.
  destruct (Z.eqb _ 0); reflexivity.
Qed.

(** Evaluation of a straight-line program: the binds and handlers are
    computed, the answers of the logger are the unit value, the exit
    codes are read as exit statuses. *)
Ltac run_prog host :=
  repeat first
    [ progress cbn [tryCatch bind interp perform log ofResult app fst snd negb
                    messageOf List.map performed]
    | progress PostCommandFacts.unit_answers host
    | rewrite exitCode_resultOf
    | rewrite <- app_assoc ].

Lemma eqb_status (answer : ExecaOutcome) :
  ExecUtils.exitStatus answer <> 0%Z ->
  Z.eqb (ExecUtils.exitStatus answer) 0 = false.
Proof. intros H. apply Z.eqb_neq. exact H. Qed.

End CreateFacts.

Import ProgFacts ExecFacts CommandAux.

(** X20. [createWorktree] runs one git command and wraps its failure in
    a [GitError]. The arguments are [worktree add], then [--force] when
    [force] is true, then: [-b <branch> <path>] when [createBranch] is
    true or not given, whatever [checkout] is; [--detach <path>] when
    [createBranch] and [checkout] are both false; [<path> <branch>] when
    [createBranch] is false and [checkout] is true or not given. *)
Theorem createWorktree_runs_one_command :
  forall (host : Host) (past : list Event) (cwd path branchName : string)
         (options : CreateOptions),
    let args := createArgs path branchName options in
    let answer := host _ past (Execa "git" args (Some cwd)) in
    interp host past (createWorktree cwd path branchName options)
    = (if Z.eqb (ExecUtils.exitStatus answer) 0 then Ok tt
       else Err (MkError GitError
                   ("Failed to create worktree: "
                    ++ errMessage (ExecUtils.commandFailed "git" args
                                     (ExecUtils.resultOf answer)))
                   (Some (ExecUtils.commandFailed "git" args
                            (ExecUtils.resultOf answer)))),
       [Ev (Execa "git" args (Some cwd)) answer])
    /\ (forall createBranch force checkout,
           createArgs path branchName (mkCreateOptions createBranch force checkout)
           = (["worktree"; "add"]
              ++ match force with
                 | Some true => ["--force"]
                 | _ => []
                 end
              ++ match createBranch, checkout with
                 | Some false, Some false => ["--detach"; path]
                 | Some false, _ => [path; branchName]
                 | _, _ => ["-b"; branchName; path]
                 end)%list)
    /\ createArgs path branchName (mkCreateOptions None None None)
       = ["worktree"; "add"; "-b"; branchName; path]
    /\ createArgs path branchName (mkCreateOptions (Some true) (Some true) (Some false))
       = ["worktree"; "add"; "--force"; "-b"; branchName; path]
    /\ createArgs path branchName (mkCreateOptions (Some false) (Some true) (Some false))
       = ["worktree"; "add"; "--force"; "--detach"; path]
    /\ createArgs path branchName (mkCreateOptions (Some false) None None)
       = ["worktree"; "add"; path; branchName].
Proof.
  intros host past cwd path branchName options args answer.
  split; [exact (CreateFacts.interp_createWorktree host past cwd path branchName
                   options)|].
  split; [|repeat split].
  intros createBranch force checkout. unfold createArgs.
  destruct createBranch as [[|]|], force as [[|]|], checkout as [[|]|];
    reflexivity.
Qed.

Lemma createWorktree_runs_one_command_witness :
  interp Sample.host []
    (createWorktree "/repo" "/worktrees/x" "x"
       (mkCreateOptions (Some true) (Some true) (Some false)))
  = (Ok tt,
     [Ev (Execa "git" ["worktree"; "add"; "--force"; "-b"; "x"; "/worktrees/x"]
            (Some "/repo"))
         (Sample.ok "")])
  /\ interp Sample.host []
       (createWorktree "/repo" "/worktrees/x" "x"
          (mkCreateOptions (Some false) None (Some false)))
     = (Ok tt,
        [Ev (Execa "git" ["worktree"; "add"; "--detach"; "/worktrees/x"]
               (Some "/repo"))
            (Sample.ok "")]).
Proof.
  split.
  - exact (proj1 (@createWorktree_runs_one_command Sample.host [] "/repo"
                    "/worktrees/x" "x"
                    (mkCreateOptions (Some true) (Some true) (Some false)))).
  - exact (proj1 (@createWorktree_runs_one_command Sample.host [] "/repo"
                    "/worktrees/x" "x"
                    (mkCreateOptions (Some false) None (Some false)))).
Defined.

(** X21. Once the worktree is created, [NewCommand.execute] succeeds
    whether or not the push does: it reads [options.noPush], and when
    that field is true no push is attempted; when it is false or missing
    [git push -u origin <branch>] runs in the new worktree and its
    failure is reported by the spinner and a warning, not raised. When
    the creation itself fails, [execute] stops the spinner and raises the
    [GitError] of the creation without attempting the push. (For a
    configuration without post-creation commands. The property is about
    the field that [execute] reads, not about the flag [--no-push] of
    the command line.) *)
Theorem new_survives_a_failed_push :
  forall (host : Host) (past : list Event) (cwd : string)
         (options : NewCommandOptions) (t : NewTarget),
    postCommands (nt_config t) = [] ->
    let name := nt_worktreeName t in
    let path := nt_worktreePath t in
    let branch := nt_branchName t in
    let creating := Log StartSpinner ("Creating worktree '" ++ name ++ "'...") in
    let created := Log SucceedSpinner
                     ("Worktree '" ++ name ++ "' created successfully") in
    let pushing := Log StartSpinner
                     ("Pushing branch '" ++ branch ++ "' to origin...") in
    let add := Execa "git" ["worktree"; "add"; "-b"; branch; path] (Some cwd) in
    let push := Execa "git" ["push"; "-u"; "origin"; branch] (Some path) in
    let added := host _ (past ++ [Ev creating tt])%list add in
    let pushed := host _ (past ++ [Ev creating tt; Ev add added; Ev created tt;
                                   Ev pushing tt])%list push in
    let ready := logged Success
                   ("Worktree '" ++ name ++ "' is ready at: " ++ path) in
    (ExecUtils.exitStatus added <> 0%Z ->
     outcomeOf host past (newCreate cwd options t)
     = Err (wrapError GitError "Failed to create worktree: "
              (ExecUtils.commandFailed "git"
                 ["worktree"; "add"; "-b"; branch; path]
                 (ExecUtils.resultOf added)))
     /\ List.map performed (eventsOf host past (newCreate cwd options t))
        = [existT _ _ creating; existT _ _ add; logged FailSpinner ""])
    /\ (ExecUtils.exitStatus added = 0%Z ->
        outcomeOf host past (newCreate cwd options t) = Ok tt
        /\ List.map performed (eventsOf host past (newCreate cwd options t))
           = ([existT _ _ creating; existT _ _ add; existT _ _ created]
              ++ (if new_noPush options then []
                  else [existT _ _ pushing; existT _ _ push]
                       ++ (if Z.eqb (ExecUtils.exitStatus pushed) 0
                           then [logged SucceedSpinner
                                   ("Branch '" ++ branch ++ "' pushed to origin")]
                           else [logged FailSpinner
                                   ("Failed to push branch: "
                                    ++ errMessage
                                         (ExecUtils.commandFailed "git"
                                            ["push"; "-u"; "origin"; branch]
                                            (ExecUtils.resultOf pushed)));
                                 logged Warn
                                   "You may need to push the branch manually later"]))
              ++ [ready])%list).
Proof.
  intros host past cwd options t Hnone. cbv zeta.
  unfold outcomeOf, eventsOf, newCreate, logged.
  rewrite Hnone.
  unfold createWorktree, createArgs, ExecUtils.runOrThrow, ExecUtils.run.
  cbn [nullish createBranch force checkout negb andb app].
  split.
  - intros Hfail. apply CreateFacts.eqb_status in Hfail.
    CreateFacts.run_prog host. rewrite Hfail.
    CreateFacts.run_prog host. split; reflexivity.
  - intros Hok. apply Z.eqb_eq in Hok.
    CreateFacts.run_prog host. rewrite Hok.
    CreateFacts.run_prog host.
    destruct (new_noPush options).
    + CreateFacts.run_prog host. split; reflexivity.
    + CreateFacts.run_prog host.
      match goal with
      | |- context [Z.eqb (ExecUtils.exitStatus ?answer) 0] =>
          destruct (Z.eqb (ExecUtils.exitStatus answer) 0)
      end;
        CreateFacts.run_prog host; split; reflexivity.
Qed.

Lemma new_survives_a_failed_push_witness :
  outcomeOf Offline.host []
    (newCreate "/repo" (mkNewCommandOptions (mkCLIOptions None false false) None false)
       Offline.newTarget)
  = Ok tt
  /\ List.filter isCommand
       (eventsOf Offline.host []
          (newCreate "/repo"
             (mkNewCommandOptions (mkCLIOptions None false false) None false)
             Offline.newTarget))
     = [Ev (Execa "git" ["worktree"; "add"; "-b"; "feature-x"; "/worktrees/feature-x"]
              (Some "/repo")) (Sample.ok "");
        Ev (Execa "git" ["push"; "-u"; "origin"; "feature-x"]
              (Some "/worktrees/feature-x"))
           (Sample.exited 128 "fatal: unable to access the remote")].
Proof.
  split; [|reflexivity].
  exact (proj1 (proj2 (@new_survives_a_failed_push Offline.host [] "/repo"
                         (mkNewCommandOptions (mkCLIOptions None false false)
                            None false)
                         Offline.newTarget eq_refl)
                  eq_refl)).
Defined.
(* ================================================================== *)
(** * Removing, and creating from a merge request *)
(* ================================================================== *)

Module RemoveFacts.
Import ProgFacts ExecFacts CommandAux.

Local Open Scope prog_scope.

Section Allowed.
Variable allowed : forall X, Op X -> bool.

Lemma only_run_any command args cwd :
  allowed (Execa command args cwd) = true ->
  only allowed (ExecUtils.run command args cwd).
Proof.
  intros H. unfold ExecUtils.run.
  apply only_bind; [apply only_perform; exact H|]. intros; constructor.
Qed.

Lemma only_runOrThrow_any command args cwd :
  allowed (Execa command args cwd) = true ->
  only allowed (ExecUtils.runOrThrow command args cwd).
Proof.
  intros H. unfold ExecUtils.runOrThrow.
  apply only_bind; [apply only_run_any; exact H|].
  intros result. destruct (negb _); constructor.
Qed.

Lemma only_log level message :
  allowed (Log level message) = true -> only allowed (log level message).
Proof. intros H. apply only_perform. exact H. Qed.

End Allowed.

Lemma only_removeWorktree cwd path force :
  only unprompted (removeWorktree cwd path force).
Proof.
  unfold removeWorktree. apply only_tryCatch.
  - apply only_bind; [|intros; constructor].
    apply only_runOrThrow_any. destruct force; reflexivity.
  - intros error. apply only_bind; [|intros; constructor].
    destruct force; [|constructor].
    apply only_bind; [apply only_perform; reflexivity|].
    intros there. destruct there; [|constructor].
    unfold manualCleanup. apply only_tryCatch.
    + apply only_bind; [apply only_perform; reflexivity|].
      intros failure. destruct failure as [e|]; [constructor|].
      apply only_bind; [|intros; constructor].
      apply only_run_any. reflexivity.
    + intros cleanupError. apply only_perform. reflexivity.
Qed.

Lemma only_removeApply_force cwd name options t :
  rm_force options = true -> only unprompted (removeApply cwd name options t).
Proof.
  intros Hforce. unfold removeApply. rewrite Hforce. cbn [negb andb bind].
  apply only_tryCatch.
  - apply only_bind; [apply only_perform; reflexivity|]. intros _.
    apply only_bind; [apply only_removeWorktree|]. intros _.
    apply only_bind; [apply only_perform; reflexivity|]. intros _.
    apply only_perform. reflexivity.
  - intros error. apply only_bind; [apply only_perform; reflexivity|].
    intros _. constructor.
Qed.

Lemma only_getRequest_notAdding P cwd number :
  only notAdding (getRequest P cwd gitlab number).
Proof.
  unfold getRequest, isAvailable, ExecUtils.exists_.
  apply only_bind.
  - apply only_tryCatch; [|intros; constructor].
    apply only_bind; [|intros; constructor].
    apply only_run_any. reflexivity.
  - intros available. destruct (negb available); [constructor|].
    apply only_tryCatch; [|intros; constructor].
    apply only_bind; [apply only_runOrThrow_any; reflexivity|].
    intros output. destruct (JSON_parse P output); constructor.
Qed.

Lemma only_fetchRequestBranch_notAdding P cwd number remote :
  only notAdding (fetchRequestBranch P cwd gitlab number remote).
Proof.
  unfold fetchRequestBranch, getRequestBranch.
  apply only_bind.
  - apply only_bind; [apply only_getRequest_notAdding|].
    intros request. unfold getProp. destruct request; constructor.
  - intros branchName. apply only_tryCatch.
    + apply only_bind; [apply only_runOrThrow_any; reflexivity|].
      intros; constructor.
    + intros _. apply only_tryCatch; [|intros; constructor].
      apply only_bind; [apply only_runOrThrow_any; reflexivity|].
      intros; constructor.
Qed.

End RemoveFacts.

Import ProgFacts ExecFacts CommandAux.

(** X22. Without [--force], [rm] removes nothing unless the user
    confirms: when the prompt is declined the command prints [Operation
    cancelled] and returns, and no command has run. With [--force] no
    prompt is ever shown and no branch is deleted, locally or remotely:
    the run holds neither a prompt nor a [git branch] or [git push]
    command, whatever the host answers. *)
Theorem rm_asks_before_it_removes :
  forall (host : Host) (past : list Event) (cwd name : string)
         (options : RemoveCommandOptions) (t : RemoveTarget),
    let question :=
      Confirm ("Are you sure you want to remove worktree '" ++ name
               ++ "' and branch '" ++ showOpt (rt_branchName t) ++ "'?") in
    (rm_force options = false ->
     host bool past question = false ->
     interp host past (removeApply cwd name options t)
     = (Ok tt, [Ev question false; Ev (Log Info "Operation cancelled") tt]))
    /\ (rm_force options = true ->
        Forall (allowedEvent unprompted)
          (eventsOf host past (removeApply cwd name options t))).
Proof.
  intros host past cwd name options t question. split.
  - intros Hforce Hdeclined. unfold removeApply. rewrite Hforce.
    cbn [negb]. rewrite interp_bind. fold question.
    cbn [perform interp]. rewrite Hdeclined.
    cbn [negb log perform interp app].
    PostCommandFacts.unit_answers host. reflexivity.
  - intros Hforce. apply only_events.
    apply RemoveFacts.only_removeApply_force. exact Hforce.
Qed.

Lemma rm_asks_before_it_removes_witness :
  interp Sample.host []
    (removeApply "/repo" "review"
       (mkRemoveCommandOptions (mkCLIOptions None false false) false)
       (mkRemoveTarget (Some "/worktrees/review") (Some "feature")))
  = (Ok tt,
     [Ev (Confirm "Are you sure you want to remove worktree 'review' and branch 'feature'?")
         false;
      Ev (Log Info "Operation cancelled") tt]).
Proof.
  exact (proj1 (@rm_asks_before_it_removes Sample.host [] "/repo" "review"
                  (mkRemoveCommandOptions (mkCLIOptions None false false) false)
                  (mkRemoveTarget (Some "/worktrees/review") (Some "feature")))
           eq_refl eq_refl).
Defined.

(** X23. The deletion of the branch that [rm] offers never fails the
    command: [git branch -D] runs first; when it exits non-zero the
    spinner reports it and the remote is not touched; when it succeeds,
    [git push origin --delete] runs and its failure only changes the
    message and adds a warning. *)
Theorem deleteBranch_never_fails :
  forall (host : Host) (past : list Event) (cwd branchName : string),
    let starting := Log StartSpinner ("Deleting branch '" ++ branchName ++ "'...") in
    let local := Execa "git" ["branch"; "-D"; branchName] (Some cwd) in
    let remote := Execa "git" ["push"; "origin"; "--delete"; branchName]
                    (Some cwd) in
    let deleted := host _ (past ++ [Ev starting tt])%list local in
    let pushed := host _ (past ++ [Ev starting tt; Ev local deleted])%list remote in
    outcomeOf host past (deleteBranch cwd branchName) = Ok tt
    /\ List.map performed (eventsOf host past (deleteBranch cwd branchName))
       = existT _ _ starting
         :: existT _ _ local
         :: (if Z.eqb (ExecUtils.exitStatus deleted) 0 then
               existT _ _ remote
               :: (if Z.eqb (ExecUtils.exitStatus pushed) 0 then
                     [logged SucceedSpinner
                        ("Branch '" ++ branchName
                         ++ "' deleted locally and remotely")]
                   else
                     [logged SucceedSpinner
                        ("Branch '" ++ branchName
                         ++ "' deleted locally (remote deletion failed)");
                      logged Warn
                        "You may need to delete the remote branch manually"])
             else
               [logged FailSpinner
                  ("Failed to delete branch: "
                   ++ errMessage
                        (ExecUtils.commandFailed "git"
                           ["branch"; "-D"; branchName]
                           (ExecUtils.resultOf deleted)))]).
Proof.
  intros host past cwd branchName. cbv zeta.
  unfold outcomeOf, eventsOf, deleteBranch, logged,
    ExecUtils.runOrThrow, ExecUtils.run.
  CreateFacts.run_prog host.
  match goal with
  | |- context [Z.eqb (ExecUtils.exitStatus ?answer) 0] =>
      destruct (Z.eqb (ExecUtils.exitStatus answer) 0)
  end; CreateFacts.run_prog host; [|split; reflexivity].
  match goal with
  | |- context [Z.eqb (ExecUtils.exitStatus ?answer) 0] =>
      destruct (Z.eqb (ExecUtils.exitStatus answer) 0)
  end; CreateFacts.run_prog host; split; reflexivity.
Qed.

(** X24. [mr] creates the worktree only once the branch has been
    fetched: when [fetchMergeRequestBranch] raises, [mr] stops the
    spinner and raises the same error; the run ends there, so that
    [git worktree add] has not run and no post-creation command
    either. *)
Theorem mr_needs_the_branch :
  forall (P : Platform) (host : Host) (past : list Event) (cwd : string)
         (t : MRTarget) (e : JsError) (evs : list Event),
    mt_mr t <> JNull ->
    let fetching :=
      Log StartSpinner ("Fetching branch '"
                        ++ showProp (getField "source_branch" (mt_mr t))
                        ++ "'...") in
    interp host (past ++ [Ev fetching tt])%list
      (fetchRequestBranch P cwd gitlab (mt_iid t) "origin") = (Err e, evs) ->
    interp host past (mrCreate P cwd t)
    = (Err e, (Ev fetching tt :: evs ++ [Ev (Log FailSpinner "") tt])%list)
    /\ Forall (allowedEvent notAdding) (eventsOf host past (mrCreate P cwd t)).
Proof.
  intros P host past cwd t e evs Hnull fetching Hfetch.
  assert (Hrun : interp host past (mrCreate P cwd t)
                 = (Err e,
                    (Ev fetching tt :: evs ++ [Ev (Log FailSpinner "") tt])%list)).
  { unfold mrCreate. rewrite interp_tryCatch.
    rewrite (DryRunFacts.showField_value "source_branch" Hnull).
    cbn [bind]. rewrite interp_bind. cbn [log perform interp]. fold fetching.
    destruct (host unit past fetching).
    rewrite interp_bind, Hfetch. cbn [app].
    cbn [bind log perform interp app].
    PostCommandFacts.unit_answers host. reflexivity. }
  split; [exact Hrun|].
  unfold eventsOf. rewrite Hrun. cbn [snd].
  constructor; [reflexivity|].
  apply Forall_app. split.
  - pose proof (only_events (@RemoveFacts.only_fetchRequestBranch_notAdding
                               P cwd (mt_iid t) "origin")
                  host (past ++ [Ev fetching tt])%list) as H.
    unfold eventsOf in H. rewrite Hfetch in H. exact H.
  - constructor; [reflexivity|constructor].
Qed.

Lemma mr_needs_the_branch_witness :
  exists e,
    errClass e = GitLabError
    /\ outcomeOf Offline.host [] (mrCreate Sample.platform "/repo" Offline.mrTarget)
       = Err e
    /\ List.filter addsWorktree
         (eventsOf Offline.host [] (mrCreate Sample.platform "/repo" Offline.mrTarget))
       = [].
Proof.
  assert (Hnull : mt_mr Offline.mrTarget <> JNull) by discriminate.
  destruct (@mr_needs_the_branch Sample.platform Offline.host [] "/repo"
              Offline.mrTarget _ _ Hnull eq_refl) as [Hrun _].
  eexists. split; [|split].
  - shelve.
  - unfold outcomeOf. rewrite Hrun. reflexivity.
  - reflexivity.
  Unshelve. reflexivity.
Defined.
(* ================================================================== *)
(** * The command line *)
(* ================================================================== *)

Module CliFacts.
Import ProgFacts ExecFacts ConfigAux ConfigFacts CommandAux CliAux.

Local Open Scope prog_scope.

(** ** Splitting at a character and joining again *)

Lemma split_nonempty (sep : ascii) (s : string) : Str.split sep s <> [].
Proof.
  destruct s as [|c s]; cbn [Str.split]; [discriminate|].
  destruct (Ascii.eqb c sep); [discriminate|].
  destruct (Str.split sep s); discriminate.
Qed.

Lemma join_cons (sep x : string) (l : list string) :
  l <> [] -> Str.join sep (x :: l) = x ++ sep ++ Str.join sep l.
Proof. destruct l; [intros H; contradiction H; reflexivity|reflexivity]. Qed.

Lemma join_split (sep : ascii) (s : string) :
  Str.join (String sep "") (Str.split sep s) = s.
Proof.
  induction s as [|c s IH]; [reflexivity|].
  cbn [Str.split].
  destruct (Ascii.eqb c sep) eqn:E.
  - apply Ascii.eqb_eq in E. subst c.
    rewrite join_cons by apply split_nonempty. rewrite IH. reflexivity.
  - destruct (Str.split sep s) as [|piece rest] eqn:Hs.
    + contradiction (split_nonempty sep s Hs).
    + destruct rest as [|piece' rest].
      * cbn [Str.join String.concat] in *. rewrite IH. reflexivity.
      * rewrite join_cons in IH by discriminate.
        rewrite join_cons by discriminate.
        cbn [String.append] in IH |- *. f_equal. exact IH.
Qed.

Lemma split_plain (sep : ascii) (x rest : string) :
  Str.forallb (fun c => negb (Ascii.eqb c sep)) x = true ->
  Str.split sep (x ++ String sep rest) = x :: Str.split sep rest.
Proof.
  induction x as [|c x IH]; intros H.
  - cbn [String.append Str.split]. rewrite Ascii.eqb_refl. reflexivity.
  - cbn [Str.forallb] in H. apply andb_prop in H as [Hc Hx].
    apply negb_true_iff in Hc.
    cbn [String.append Str.split]. rewrite Hc, (IH Hx). reflexivity.
Qed.

Lemma split_whole (sep : ascii) (x : string) :
  Str.forallb (fun c => negb (Ascii.eqb c sep)) x = true ->
  Str.split sep x = [x].
Proof.
  induction x as [|c x IH]; intros H; [reflexivity|].
  cbn [Str.forallb] in H. apply andb_prop in H as [Hc Hx].
  apply negb_true_iff in Hc.
  cbn [Str.split]. rewrite Hc, (IH Hx). reflexivity.
Qed.

Lemma split_app (sep : ascii) (a b : string) :
  Str.split sep (a ++ String sep b) = (Str.split sep a ++ Str.split sep b)%list.
Proof.
  induction a as [|c a IH].
  - cbn [String.append Str.split app]. rewrite Ascii.eqb_refl. reflexivity.
  - cbn [String.append Str.split].
    destruct (Ascii.eqb c sep); [rewrite IH; reflexivity|].
    rewrite IH.
    destruct (Str.split sep a) as [|piece rest] eqn:Hs;
      [contradiction (split_nonempty sep a Hs)|].
    reflexivity.
Qed.

(** The last segment of a path that ends with a separator and a name. *)
Lemma lastSegment_name (dir name : string) branch commit bare detached :
  name <> "" ->
  Str.forallb (fun c => negb (Ascii.eqb c "/")) name = true ->
  lastSegment (mkGitWorktree (Some (dir ++ "/" ++ name)) branch commit bare detached)
  = name.
Proof.
  intros Hname Hplain. unfold lastSegment. cbn [wt_path showOpt].
  change (dir ++ "/" ++ name) with (dir ++ String "/" name).
  rewrite split_app, (split_whole "/" name Hplain), List.rev_app_distr.
  cbn [List.rev app].
  destruct name; [contradiction Hname; reflexivity|reflexivity].
Qed.

Lemma plainKey_inv (key : string) :
  plainKey key = true ->
  key <> "" /\ Str.forallb (fun c => negb (Ascii.eqb c "=")) key = true.
Proof.
  unfold plainKey. intros H. apply andb_prop in H as [Hne Hall].
  split; [|exact Hall]. intros ->. discriminate Hne.
Qed.

(** The key is the text before the first equals sign, the value all
    the text after it. *)
Lemma assigned (key value : string) :
  plainKey key = true ->
  assignedKey (key ++ "=" ++ value) = key
  /\ assignedValue (key ++ "=" ++ value) = value.
Proof.
  intros H. apply plainKey_inv in H as [_ Hall].
  unfold assignedKey, assignedValue.
  change (key ++ "=" ++ value) with (key ++ String "=" value).
  rewrite (split_plain "=" key value Hall). cbn [List.hd List.tl].
  split; [reflexivity|]. apply (join_split "=").
Qed.

Lemma eqb_nonempty (s : string) : s <> "" -> String.eqb s "" = false.
Proof. intros H. apply String.eqb_neq. exact H. Qed.

(** ** What the schema makes of an object with one key *)

Lemma lookup_single (k key : string) (v : json) :
  lookupField k [(key, v)] = if String.eqb key k then Some v else None.
Proof. cbn [lookupField]. rewrite String.eqb_sym. reflexivity. Qed.

Lemma schema_unknown_key (key : string) (v : json) :
  knownKey key = false -> ConfigSchema (JObj [(key, v)]) = Some defaultConfig.
Proof.
  unfold knownKey. intros H.
  apply orb_false_elim in H as [H H4].
  apply orb_false_elim in H as [H H3].
  apply orb_false_elim in H as [H1 H2].
  unfold ConfigSchema. rewrite !lookup_single, H1, H2, H3, H4. reflexivity.
Qed.

Lemma schema_worktreeDir (v : json) :
  ConfigSchema (JObj [("worktreeDir", v)])
  = match v with
    | JStr s => Some (mkConfig PrefixNone None s [])
    | _ => None
    end.
Proof. destruct v; reflexivity. Qed.

Lemma schema_manualPrefix (v : json) :
  ConfigSchema (JObj [("manualPrefix", v)])
  = match v with
    | JStr s => Some (mkConfig PrefixNone (Some s) default_worktreeDir [])
    | _ => None
    end.
Proof. destruct v; reflexivity. Qed.

End CliFacts.

Import ProgFacts ExecFacts ConfigAux ConfigFacts CommandAux CliAux Disk.

(** X25. An action of [new], [mr] or [rm] never raises: when the
    command returns, the action returns after the same operations; when
    the command raises, the action prints the message of the error as an
    error line, after the operations of the command, and ends the
    process with status 1. *)
Theorem cli_reports_every_failure :
  forall (P : Platform) (host : Host) (past : list Event),
    (forall execute,
        interp host past (action P execute)
        = match interp host past (execute (process_cwd P)) with
          | (Ok _, evs) => (Ok Returned, evs)
          | (Err e, evs) =>
              (Ok (Exited 1), (evs ++ [Ev (Log Error (errMessage e)) tt])%list)
          end)
    /\ ((forall past',
            ExecUtils.exitStatus (host _ past' (revParse (process_cwd P))) <> 0%Z) ->
        let outside options :=
          (Ok (Exited 1),
           (eventsOf host past (initialize P (process_cwd P) options)
            ++ [Ev (Log Error "Not in a git repository") tt])%list) in
        (forall name options,
            interp host past (newAction P name options) = outside (new_cli options))
        /\ (forall number options,
               interp host past (mrAction P number options)
               = outside (mr_cli options))
        /\ (forall name options,
               interp host past (rmAction P name options)
               = outside (rm_cli options))).
Proof.
  intros P host past.
  assert (Haction : forall execute,
             interp host past (action P execute)
             = match interp host past (execute (process_cwd P)) with
               | (Ok _, evs) => (Ok Returned, evs)
               | (Err e, evs) =>
                   (Ok (Exited 1),
                    (evs ++ [Ev (Log Error (errMessage e)) tt])%list)
               end).
  { intros execute.
    unfold action, reportFailure. rewrite interp_tryCatch, interp_bind.
    destruct (interp host past (execute (process_cwd P))) as [[[]|e] evs].
    - cbn [interp]. rewrite app_nil_r. reflexivity.
    - cbn [log perform bind interp messageOf].
      PostCommandFacts.unit_answers host. reflexivity. }
  split; [exact Haction|].
  intros Hout outside.
  pose proof (fun options =>
                @CommandFacts.initialize_outside P host past (process_cwd P)
                  options Hout) as Hinit.
  split; [|split].
  - intros name options. unfold newAction. rewrite Haction.
    assert (Hrun : interp host past (newExecute P (process_cwd P) name options)
                   = (Err notRepo,
                      eventsOf host past
                        (initialize P (process_cwd P) (new_cli options)))).
    { unfold newExecute, newResolve.
      apply CommandFacts.interp_bind_fails, CommandFacts.interp_bind_fails.
      apply Hinit. }
    rewrite Hrun. reflexivity.
  - intros number options. unfold mrAction. rewrite Haction.
    assert (Hrun : interp host past (mrExecute P (process_cwd P) number options)
                   = (Err notRepo,
                      eventsOf host past
                        (initialize P (process_cwd P) (mr_cli options)))).
    { unfold mrExecute, mrResolve.
      apply CommandFacts.interp_bind_fails, CommandFacts.interp_bind_fails.
      apply Hinit. }
    rewrite Hrun. reflexivity.
  - intros name options. unfold rmAction. rewrite Haction.
    assert (Hrun : interp host past (removeExecute P (process_cwd P) name options)
                   = (Err notRepo,
                      eventsOf host past
                        (initialize P (process_cwd P) (rm_cli options)))).
    { unfold removeExecute, removeResolve.
      apply CommandFacts.interp_bind_fails, CommandFacts.interp_bind_fails.
      apply Hinit. }
    rewrite Hrun. reflexivity.
Qed.

Lemma cli_reports_every_failure_witness :
  interp Sample.hostBroken []
    (newAction Sample.platform "feature-x"
       (mkNewCommandOptions (mkCLIOptions None false false) None false))
  = (Ok (Exited 1),
     (eventsOf Sample.hostBroken []
        (initialize Sample.platform "/repo" (mkCLIOptions None false false))
      ++ [Ev (Log Error "Not in a git repository") tt])%list).
Proof.
  refine (proj1 (proj2 (@cli_reports_every_failure Sample.platform
                          Sample.hostBroken []) _)
            "feature-x"
            (mkNewCommandOptions (mkCLIOptions None false false) None false)).
  intros past'. vm_compute. discriminate.
Defined.
Import ProgFacts ExecFacts ConfigAux ConfigFacts CommandAux CliAux Disk.

(** X26. [kwt list] never raises. When the listing command exits with
    status 0 it prints [No worktrees found] for an empty listing and
    otherwise the heading and one line per record, in the order of the
    listing, each with the last segment of the path, the branch as git
    printed it (or the commit when there is none) and the [(bare)] or
    [(detached)] mark; when the command fails it prints the message of
    the [GitError] and ends the process with status 1. *)
Theorem list_prints_one_line_per_worktree :
  forall (P : Platform) (host : Host) (past : list Event) (verbose : option bool),
    let setting := SetVerbose (nullish verbose false) in
    let args := ["worktree"; "list"; "--porcelain"] in
    let query := Execa "git" args (Some (process_cwd P)) in
    let answer := host _ (past ++ [Ev setting tt])%list query in
    let result := ExecUtils.resultOf answer in
    let worktrees := Porcelain.parse (stdout result) in
    outcomeOf host past (listAction P verbose)
    = Ok (if Z.eqb (ExecUtils.exitStatus answer) 0 then Returned else Exited 1)
    /\ List.map performed (eventsOf host past (listAction P verbose))
       = existT _ _ setting
         :: existT _ _ query
         :: (if Z.eqb (ExecUtils.exitStatus answer) 0 then
               match worktrees with
               | [] => [logged Info "No worktrees found"]
               | _ => logged Info "Worktrees:"
                      :: List.map (fun wt => logged Info (worktreeLine wt)) worktrees
               end
             else
               [logged Error
                  ("Failed to list worktrees: "
                   ++ errMessage (ExecUtils.commandFailed "git" args result))])
    /\ (forall dir name branch commit bare detached,
           name <> "" ->
           Str.forallb (fun c => negb (Ascii.eqb c "/")) name = true ->
           worktreeLine
             (mkGitWorktree (Some (dir ++ "/" ++ name)) branch commit bare detached)
           = "  " ++ name ++ " -> "
             ++ match branch, commit with
                | Some (String c b), _ => String c b
                | _, Some hash => hash
                | _, None => "undefined"
                end
             ++ " "
             ++ match bare, detached with
                | Some true, _ => "(bare)"
                | _, Some true => "(detached)"
                | _, _ => ""
                end).
Proof.
  intros P host past verbose. cbv zeta.
  apply (proj1 (and_assoc _ _ _)). split.
  2: { intros dir name branch commit bare detached Hname Hplain.
       unfold worktreeLine.
       rewrite (@CliFacts.lastSegment_name dir name branch commit bare detached
                  Hname Hplain).
       unfold branchOrCommit, worktreeStatus.
       cbn [wt_branch wt_commit wt_bare wt_detached].
       destruct branch as [[|c b]|], commit as [hash|],
                bare as [[|]|], detached as [[|]|]; reflexivity. }
  unfold outcomeOf, eventsOf, listAction, reportFailure.
  rewrite interp_tryCatch, interp_bind. cbn [perform interp].
  destruct (host unit past (SetVerbose (nullish verbose false))).
  rewrite interp_bind, interp_listWorktrees. cbv zeta.
  rewrite exitCode_resultOf.
  match goal with
  | |- context [Z.eqb (ExecUtils.exitStatus ?answer) 0] =>
      set (status := Z.eqb (ExecUtils.exitStatus answer) 0);
      set (output := stdout (ExecUtils.resultOf answer))
  end.
  destruct status; cbn [negb app].
  - destruct (Porcelain.parse output) as [|wt rest].
    + CreateFacts.run_prog host. split; reflexivity.
    + rewrite interp_bind. cbn [log perform interp].
      PostCommandFacts.unit_answers host.
      rewrite interp_bind.
      match goal with
      | |- context [interp host ?p (forEach ?xs ?body)] =>
          destruct (DryRunFacts.prints_forEach xs worktreeLine host p)
            as (evs & Hrun & Hops)
      end.
      rewrite Hrun. cbn [interp app fst snd List.map performed].
      split; [reflexivity|].
      rewrite !List.map_app. cbn [List.map performed app].
      rewrite app_nil_r. unfold DryRun.info in Hops. rewrite Hops. reflexivity.
  - CreateFacts.run_prog host. split; reflexivity.
Qed.

Lemma list_prints_one_line_per_worktree_witness :
  List.map performed (eventsOf Sample.host [] (listAction Sample.platform None))
  = [existT _ _ (SetVerbose false);
     existT _ _ (Execa "git" ["worktree"; "list"; "--porcelain"] (Some "/repo"));
     logged Info "Worktrees:";
     logged Info "  repo -> refs/heads/main ";
     logged Info "  review -> 2222222 (detached)"]
  /\ worktreeLine
       (mkGitWorktree (Some "/srv/git/project.git") None (Some "3333333")
          (Some true) None)
     = "  project.git -> 3333333 (bare)".
Proof.
  split.
  - exact (proj1 (proj2 (@list_prints_one_line_per_worktree Sample.platform
                           Sample.host [] None))).
  - refine (proj2 (proj2 (@list_prints_one_line_per_worktree Sample.platform
                            Sample.host [] None))
              "/srv/git" "project.git" None (Some "3333333") (Some true) None _
              eq_refl).
    discriminate.
Defined.

(** X27. [kwt config --init] never overwrites a local configuration:
    when the file is there it prints [Local configuration already
    exists] and writes nothing; when it is missing it writes the
    defaults ([prefixType] [none], [worktreeDir] [../worktrees], no
    post-creation command) and a failure of the write ends the process
    with status 1. *)
Theorem config_init_keeps_an_existing_file :
  forall (P : Platform) (host : Host) (past : list Event) (verbose : option bool),
    let setting := SetVerbose (nullish verbose false) in
    let path := path_join P (process_cwd P) ".kwt" in
    let there := host bool (past ++ [Ev setting tt])%list (ExistsSync path) in
    let write := WriteFileSync path (JsonText (Config_toJson defaultConfig)) in
    let written := host _ (past ++ [Ev setting tt; Ev (ExistsSync path) there])%list
                     write in
    outcomeOf host past (configInitAction P verbose)
    = Ok (if there then Returned
          else match written with
               | None => Returned
               | Some _ => Exited 1
               end)
    /\ List.map performed (eventsOf host past (configInitAction P verbose))
       = existT _ _ setting
         :: existT _ _ (ExistsSync path)
         :: (if there then [logged Info "Local configuration already exists"]
             else existT _ _ write
                  :: match written with
                     | None => [logged Success "Local configuration initialized"]
                     | Some e =>
                         [logged Error ("Failed to save local config: "
                                        ++ errMessage e)]
                     end).
Proof.
  intros P host past verbose. cbv zeta.
  unfold outcomeOf, eventsOf, configInitAction, reportFailure, hasLocalConfig,
    initLocalConfig.
  change (localConfigPath P (newConfigManager (process_cwd P)))
    with (path_join P (process_cwd P) ".kwt").
  rewrite interp_tryCatch, interp_bind. cbn [perform interp].
  destruct (host unit past (SetVerbose (nullish verbose false))).
  rewrite interp_bind. cbn [perform interp app].
  destruct (host bool _ (ExistsSync _)); cbn [negb].
  - CreateFacts.run_prog host. split; reflexivity.
  - rewrite !interp_bind, DiskFacts.interp_saveLocalConfig_any.
    change (ConfigSchema (Config_toJson (withDefaults nothing)))
      with (Some defaultConfig).
    cbv zeta.
    change (localConfigPath P (newConfigManager (process_cwd P)))
      with (path_join P (process_cwd P) ".kwt").
    repeat rewrite <- app_assoc. cbn [app].
    destruct (host (option JsError) _ (WriteFileSync _ _)) as [e|];
      CreateFacts.run_prog host; split; reflexivity.
Qed.

(** X28. [kwt config --set key=value] replaces the whole local file:
    what it writes is the validated object that holds this one key, so
    every other key is back at its default, whatever the file held
    before (the file is not read). The value is all the text after the
    first equals sign. A key that the schema does not know is dropped
    and the defaults are written, with the same success line; a value
    that is not JSON is kept as a string. *)
Theorem config_set_replaces_the_file :
  forall (P : Platform) (JSON_stringify : json -> string) (host : Host)
         (past : list Event) (verbose : option bool) (key value : string)
         (c : Config),
    plainKey key = true ->
    value <> "" ->
    ConfigSchema (JObj [(key, parsedValue P value)]) = Some c ->
    let setting := SetVerbose (nullish verbose false) in
    let path := path_join P (process_cwd P) ".kwt" in
    let write := WriteFileSync path (JsonText (Config_toJson c)) in
    let written := host _ (past ++ [Ev setting tt])%list write in
    outcomeOf host past
      (configSetAction P JSON_stringify verbose false (key ++ "=" ++ value))
    = Ok (match written with None => Returned | Some _ => Exited 1 end)
    /\ List.map performed
         (eventsOf host past
            (configSetAction P JSON_stringify verbose false (key ++ "=" ++ value)))
       = [existT _ _ setting;
          existT _ _ write;
          match written with
          | None =>
              logged Success ("Local configuration updated: " ++ key ++ " = "
                              ++ JSON_stringify (parsedValue P value))
          | Some e =>
              logged Error ("Failed to save local config: " ++ errMessage e)
          end]
    /\ (knownKey key = false -> c = defaultConfig)
    /\ (key = "worktreeDir" -> JSON_parse P value = None ->
        c = mkConfig PrefixNone None value []).
Proof.
  intros P JSON_stringify host past verbose key value c Hkey Hvalue Hc. cbv zeta.
  destruct (CliFacts.assigned key value Hkey) as [Hk Hv].
  apply CliFacts.plainKey_inv in Hkey as [Hkey _].
  assert (Hrun :
    interp host past
      (configSetAction P JSON_stringify verbose false (key ++ "=" ++ value))
    = (Ok (match host _ (past ++ [Ev (SetVerbose (nullish verbose false)) tt])%list
                   (WriteFileSync (path_join P (process_cwd P) ".kwt")
                      (JsonText (Config_toJson c))) with
           | None => Returned
           | Some _ => Exited 1
           end),
       [Ev (SetVerbose (nullish verbose false)) tt;
        Ev (WriteFileSync (path_join P (process_cwd P) ".kwt")
              (JsonText (Config_toJson c)))
           (host _ (past ++ [Ev (SetVerbose (nullish verbose false)) tt])%list
              (WriteFileSync (path_join P (process_cwd P) ".kwt")
                 (JsonText (Config_toJson c))));
        Ev (match host _ (past ++ [Ev (SetVerbose (nullish verbose false)) tt])%list
                    (WriteFileSync (path_join P (process_cwd P) ".kwt")
                       (JsonText (Config_toJson c))) with
            | None =>
                Log Success ("Local configuration updated: " ++ key ++ " = "
                             ++ JSON_stringify (parsedValue P value))
            | Some e => Log Error ("Failed to save local config: " ++ errMessage e)
            end) tt])).
  { unfold configSetAction, reportFailure.
    rewrite Hk, Hv.
    rewrite (CliFacts.eqb_nonempty Hkey), (CliFacts.eqb_nonempty Hvalue).
    cbn [orb].
    rewrite interp_tryCatch, interp_bind. cbn [perform interp].
    destruct (host unit past (SetVerbose (nullish verbose false))).
    rewrite interp_bind, DiskFacts.interp_saveLocalConfig_any, Hc. cbv zeta.
    change (localConfigPath P (newConfigManager (process_cwd P)))
      with (path_join P (process_cwd P) ".kwt").
    destruct (host (option JsError) _ (WriteFileSync _ _)) as [e|];
      CreateFacts.run_prog host; reflexivity. }
  split; [unfold outcomeOf; rewrite Hrun; reflexivity|].
  split.
  - unfold eventsOf. rewrite Hrun. cbn [snd List.map performed].
    destruct (host (option JsError) _ (WriteFileSync _ _)); reflexivity.
  - split.
    + intros Hunknown.
      rewrite (CliFacts.schema_unknown_key _ (parsedValue P value) Hunknown) in Hc.
      injection Hc as <-. reflexivity.
    + intros -> Hparse. unfold parsedValue in Hc. rewrite Hparse in Hc.
      rewrite CliFacts.schema_worktreeDir in Hc. injection Hc as <-. reflexivity.
Qed.

Lemma config_set_replaces_the_file_witness :
  List.map performed
    (eventsOf Sample.hostGlobal []
       (configSetAction Sample.platform showJson None false "worktreeDir=../a=b"))
  = [existT _ _ (SetVerbose false);
     existT _ _ (WriteFileSync "/repo/.kwt"
                   (JsonText (Config_toJson (mkConfig PrefixNone None "../a=b" []))));
     logged Success "Local configuration updated: worktreeDir = ../a=b"].
Proof.
  refine (proj1 (proj2 (@config_set_replaces_the_file Sample.platform showJson
                          Sample.hostGlobal [] None "worktreeDir" "../a=b"
                          (mkConfig PrefixNone None "../a=b" [])
                          eq_refl _ eq_refl))).
  discriminate.
Defined.

(** X29. [kwt config --set] rejects what it cannot save and writes
    nothing then: a text without an equals sign, with nothing before or
    nothing after the first one, prints [Invalid format. Use: --set
    key=value]; a value that parses as JSON but not to a string (a
    number, [true], [null], an array) cannot be given to [worktreeDir]
    or [manualPrefix], so that a directory named [2024] cannot be set;
    in each case the process ends with status 1. *)
Theorem config_set_rejects_what_it_cannot_save :
  forall (P : Platform) (JSON_stringify : json -> string) (host : Host)
         (past : list Event) (verbose : option bool) (useGlobal : bool),
    let setting := SetVerbose (nullish verbose false) in
    (forall assignment,
        assignedKey assignment = "" \/ assignedValue assignment = "" ->
        interp host past
          (configSetAction P JSON_stringify verbose useGlobal assignment)
        = (Ok (Exited 1),
           [Ev setting tt;
            Ev (Log Error "Invalid format. Use: --set key=value") tt]))
    /\ (forall key, plainKey key = true ->
                    assignedValue key = "" /\ assignedValue (key ++ "=") = "")
    /\ (forall value, assignedKey ("=" ++ value) = "")
    /\ (forall key value,
           key = "worktreeDir" \/ key = "manualPrefix" ->
           value <> "" ->
           notString (parsedValue P value) = true ->
           outcomeOf host past
             (configSetAction P JSON_stringify verbose useGlobal
                (key ++ "=" ++ value))
           = Ok (Exited 1)
           /\ List.forallb (fun ev => negb (isWrite ev))
                (eventsOf host past
                   (configSetAction P JSON_stringify verbose useGlobal
                      (key ++ "=" ++ value)))
              = true).
Proof.
  intros P JSON_stringify host past verbose useGlobal setting.
  split; [|split; [|split]].
  - intros assignment Hbad. unfold configSetAction, reportFailure.
    assert (Htest : String.eqb (assignedKey assignment) ""
                    || String.eqb (assignedValue assignment) "" = true).
    { destruct Hbad as [-> | ->]; [reflexivity|apply orb_true_r]. }
    rewrite Htest.
    rewrite interp_tryCatch. fold setting.
    CreateFacts.run_prog host. reflexivity.
  - intros key Hkey. apply CliFacts.plainKey_inv in Hkey as [_ Hall].
    unfold assignedValue. split.
    + rewrite (CliFacts.split_whole "=" key Hall). reflexivity.
    + change (key ++ "=") with (key ++ String "=" "").
      rewrite (CliFacts.split_plain "=" key "" Hall). reflexivity.
  - intros value. reflexivity.
  - intros key value Hkey Hvalue Hscalar.
    assert (Hplain : plainKey key = true)
      by (destruct Hkey as [-> | ->]; reflexivity).
    assert (Hbad : ConfigSchema (JObj [(key, parsedValue P value)]) = None).
    { destruct Hkey as [-> | ->];
        [rewrite CliFacts.schema_worktreeDir|rewrite CliFacts.schema_manualPrefix];
        destruct (parsedValue P value); solve [reflexivity | discriminate Hscalar]. }
    destruct (CliFacts.assigned key value Hplain) as [Hk Hv].
    apply CliFacts.plainKey_inv in Hplain as [Hne _].
    unfold outcomeOf, eventsOf, configSetAction, reportFailure.
    rewrite Hk, Hv.
    rewrite (CliFacts.eqb_nonempty Hne), (CliFacts.eqb_nonempty Hvalue).
    cbn [orb].
    rewrite interp_tryCatch, interp_bind. cbn [perform interp]. fold setting.
    destruct (host unit past setting).
    destruct useGlobal.
    + rewrite interp_bind.
      destruct (@DiskFacts.saveGlobalConfig_invalid P host
                  (past ++ [Ev setting tt])%list
                  (newConfigManager (process_cwd P))
                  (JObj [(key, parsedValue P value)]) Hbad)
        as (msg & evs & Hrun & Hquiet).
      rewrite Hrun. cbn [app].
      CreateFacts.run_prog host. split; [reflexivity|].
      cbn [List.forallb isWrite negb andb].
      rewrite List.forallb_app, Hquiet. reflexivity.
    + rewrite interp_bind, DiskFacts.interp_saveLocalConfig_any, Hbad.
      CreateFacts.run_prog host. split; reflexivity.
Qed.

Lemma config_set_rejects_what_it_cannot_save_witness :
  interp Sample.host []
    (configSetAction Sample.platform showJson None false "worktreeDir")
  = (Ok (Exited 1),
     [Ev (SetVerbose false) tt;
      Ev (Log Error "Invalid format. Use: --set key=value") tt])
  /\ outcomeOf Sample.host []
       (configSetAction platformYear showJson None false "worktreeDir=2024")
     = Ok (Exited 1).
Proof.
  split.
  - exact (proj1 (@config_set_rejects_what_it_cannot_save Sample.platform showJson
                    Sample.host [] None false)
             "worktreeDir" (or_intror eq_refl)).
  - refine (proj1 (proj2 (proj2 (proj2
              (@config_set_rejects_what_it_cannot_save platformYear showJson
                 Sample.host [] None false)))
              "worktreeDir" "2024" (or_introl eq_refl) _ eq_refl)).
    discriminate.
Defined.
